(** * Status-card rendering of astrbot_plugin_steam_info: draw.py and utils.py,
      with the Steam ids of steam.py and the stores of data_source.py

    The Python functions of [draw.py] are embedded as Rocq functions.

    - Python [int] is [Z] ([//] is [Z.div], which floors like Python).
    - Python [float] is [Q] with exact arithmetic; [int(x)] on a float is
      truncation toward zero.  Where a property of the progress bar depends
      on how a product is rounded, the rounding is written out
      ([create_progress_bar_with]).
    - Python [str] is a list of Unicode code points, compared the way
      Python compares strings (code point by code point).
    - A Pillow image is represented by the term of Pillow calls that built
      it; [size] is computed from that term.  Decoded photos and numpy
      arrays carry their pixels ([Bitmap]).
    - Exceptions are the [Err] results of [result]; the list objects that
      the roster functions sort in place live in a store ([heap]).
    - A dict read through [get] is a record of options or a finite map
      ([gmap]): a missing key and the value None are both [None]. *)

From Stdlib Require Import ZArith QArith Qround Qminmax String Ascii.
From stdpp Require Import base tactics option list sorting gmap.

Set Default Proof Using "Type".
Local Open Scope Z_scope.

(** ** Python values *)

Inductive PyError : Type :=
  | ZeroDivisionError
  | KeyError
  | ValueError
  | RecursionError
  | IndexError
  | NanToInt        (* integer cast of the mean of an empty array: platform defined *)
  | NoSuchObject.   (* a reference outside the store; never produced by the code *)

Inductive result (A : Type) : Type :=
  | Ok (a : A)
  | Err (e : PyError).
Arguments Ok {A} a.
Arguments Err {A} e.

Definition result_bind {A B : Type} (m : result A) (k : A → result B) : result B :=
  match m with
  | Ok a => k a
  | Err e => Err e
  end.

Declare Scope result_scope.
Delimit Scope result_scope with res.
Notation "'let*' x := m 'in' k" := (result_bind m (fun x => k))
  (at level 10, x name, m at level 100, k at level 200) : result_scope.

Fixpoint result_mapM {A B : Type} (f : A → result B) (l : list A) : result (list B) :=
  match l with
  | [] => Ok []
  | x :: r =>
      (let* y := f x in
       let* ys := result_mapM f r in
       Ok (y :: ys))%res
  end.

(** [str]: the code points of the string. *)
Definition pystr : Type := list N.

(** An ASCII literal as a [str]. *)
Definition lit (s : string) : pystr :=
  (λ a, N_of_ascii a) <$> list_ascii_of_string s.

Definition STR_ONLINE : pystr := [0x5728; 0x7EBF]%N.              (* "在线" *)
Definition STR_AWAY : pystr := [0x79BB; 0x5F00]%N.                (* "离开" *)
Definition STR_UNKNOWN : pystr := [0x672A; 0x77E5]%N.             (* "未知" *)
Definition STR_GAMING_TITLE : pystr := [0x6E38; 0x620F; 0x4E2D]%N.           (* "游戏中" *)
Definition STR_ONLINE_TITLE : pystr := [0x5728; 0x7EBF; 0x597D; 0x53CB]%N.   (* "在线好友" *)
Definition STR_OFFLINE_TITLE : pystr := [0x79BB; 0x7EBF]%N.                  (* "离线" *)
Definition STR_FRIENDS : pystr := [0x597D; 0x53CB]%N.                        (* "好友" *)
Definition STR_ACH_PROGRESS : pystr := [0x6210; 0x5C31; 0x8FDB; 0x5EA6]%N.   (* "成就进度" *)
Definition STR_TOTAL_HOURS : pystr := [0x603B; 0x65F6; 0x6570; 0x0020]%N.    (* "总时数 " *)
Definition NEWLINE : N := 10%N.

(** [s <= t] on [str]. *)
Fixpoint str_leb (s t : pystr) : bool :=
  match s, t with
  | [], _ => true
  | _ :: _, [] => false
  | a :: s', b :: t' =>
      if (a <? b)%N then true
      else if (a =? b)%N then str_leb s' t'
      else false
  end.

Definition str_le (s t : pystr) : Prop := str_leb s t = true.

(** Decimal rendering of an [int] inside an f-string. *)
Fixpoint pos_digits (fuel : nat) (n : Z) (acc : pystr) : pystr :=
  match fuel with
  | O => acc
  | S f =>
      let acc' := (48 + Z.to_N (n mod 10))%N :: acc in
      if n <? 10 then acc' else pos_digits f (n / 10) acc'
  end.

Definition str_of_int (n : Z) : pystr :=
  if n <? 0 then 45%N :: pos_digits (S (Z.to_nat (Z.log2 (- n)))) (- n) []
  else pos_digits (S (Z.to_nat (Z.log2 n))) n [].

(** [int(x)] for a float [x]. *)
Definition int_of_float (x : Q) : Z := Z.quot (Qnum x) (Zpos (Qden x)).

(** [float // 2]-style floor of a float. *)
Definition float_floor (x : Q) : Q := inject_Z (Qfloor x).

(** [a // b] on two [int]s. *)
Definition floordiv (a b : Z) : result Z :=
  if b =? 0 then Err ZeroDivisionError else Ok (a / b).

(** [a / b] on two [int]s. *)
Definition truediv (a b : Z) : result Q :=
  if b =? 0 then Err ZeroDivisionError else Ok (inject_Z a / inject_Z b)%Q.

(** ** list.sort

    [list.sort(key=...)] is stable and compares keys with [<]; on a key
    order that is total its result is the stable insertion sort below. *)

Section list_sort.
Context {A K : Type} (key : A → K) (leb : K → K → bool).

Fixpoint insert_by (x : A) (l : list A) : list A :=
  match l with
  | [] => [x]
  | y :: r => if leb (key x) (key y) then x :: y :: r else y :: insert_by x r
  end.

Definition list_sort (l : list A) : list A := foldr insert_by [] l.

(** The order of the keys, on the elements. *)
Definition key_le (x y : A) : Prop := leb (key x) (key y) = true.
End list_sort.

(** ** Colours *)

Definition Color : Type := list Z.

Definition hex_digit (a : ascii) : option Z :=
  let n := Z.of_N (N_of_ascii a) in
  if (48 <=? n) && (n <=? 57) then Some (n - 48)
  else if (97 <=? n) && (n <=? 102) then Some (n - 87)
  else if (65 <=? n) && (n <=? 70) then Some (n - 55)
  else None.

(** [int(s, 16)] on a string of two hexadecimal digits. *)
Definition hex_byte (a b : ascii) : result Z :=
  match hex_digit a, hex_digit b with
  | Some x, Some y => Ok (16 * x + y)
  | _, _ => Err ValueError
  end.

(** utils.hex_to_rgb: the characters 0-1, 2-3 and 4-5 of the string. *)
Definition hex_to_rgb_checked (hex_color : string) : result Color :=
  match list_ascii_of_string hex_color with
  | r1 :: r2 :: g1 :: g2 :: b1 :: b2 :: _ =>
      (let* r := hex_byte r1 r2 in
       let* g := hex_byte g1 g2 in
       let* b := hex_byte b1 b2 in
       Ok [r; g; b])%res
  | _ => Err ValueError
  end.

(** The call sites pass hexadecimal literals only. *)
Definition hex_to_rgb (hex_color : string) : Color :=
  match hex_to_rgb_checked hex_color with
  | Ok c => c
  | Err _ => []
  end.

(** ** Pillow images *)

Inductive Mode : Type := RGB | RGBA | MODE_L.

Inductive Resample : Type := BICUBIC | RESAMPLE_DEFAULT.

Inductive ImageFilter : Type := SMOOTH | GaussianBlur (radius : Z).

(** The resource files next to the module. *)
Inductive Asset : Type :=
  | unknown_avatar_path
  | parent_status_path
  | friends_search_path
  | busy_path
  | zzz_online_path
  | zzz_gaming_path
  | gaming_path.

Inductive FontPath : Type := font_regular_path | font_light_path | font_bold_path.

(** [ImageFont.truetype(path, size)] *)
Record Font : Type := truetype { font_path : FontPath; font_size : Z }.

(** Pixel data: a decoded photo or a numpy array of shape
    (height, width, channels). *)
Record Bitmap : Type := mkBitmap {
  bm_width : Z;
  bm_height : Z;
  bm_pixel : Z → Z → Color   (* column, row *)
}.

Definition Box : Type := (Z * Z * Z * Z)%type.

Inductive Image : Type :=
  | Image_new (mode : Mode) (size : Z * Z) (color : Color)
  | Image_open (fp : Asset)
  | Image_open_bytes (data : list Byte.byte)
  | Image_fromarray (a : Bitmap)
  | resize (im : Image) (size : Z * Z) (resample : Resample)
  | convert (im : Image) (mode : Mode)
  | paste (im : Image) (src : Image) (box : Z * Z)
  | paste_mask (im : Image) (src : Image) (box : Z * Z) (mask : Image)
  | crop (im : Image) (box : Box)
  | enhance_brightness (im : Image) (factor : Q)
  | draw_text (im : Image) (xy : Q * Q) (text : pystr) (font : Font) (fill : Color)
  | draw_rectangle (im : Image) (xy : Box) (fill outline : option Color) (width : Z)
  | draw_rounded_rectangle (im : Image) (xy : Box) (radius : Z)
      (fill outline : option Color) (width : Z)
  | draw_ellipse (im : Image) (xy : Box) (fill : Color)
  | filter_image (im : Image) (f : ImageFilter).

(** One record of the roster: the dictionary that
    [simplize_steam_player_data] builds and
    [convert_player_name_to_nickname] completes. *)
Record Friend : Type := mkFriend {
  steamid : pystr;
  avatar : Image;
  name : pystr;
  status : pystr;
  personastate : Z;
  nickname : option pystr
}.

Definition WIDTH : Z := 400.
Definition PARENT_AVATAR_SIZE : Z := 72.
Definition MEMBER_AVATAR_SIZE : Z := 50.

(** utils.simplize_steam_player_data: the status text of a player who
    is not offline (the offline text depends on the clock). *)
Definition simplize_status (personastate : Z) (gameextrainfo : option pystr) : pystr :=
  if bool_decide (personastate ∈ [1; 2; 4]) then
    match gameextrainfo with None => STR_ONLINE | Some g => g end
  else if personastate =? 3 then
    match gameextrainfo with None => STR_AWAY | Some g => g end
  else if bool_decide (personastate ∈ [5; 6]) then STR_ONLINE
  else STR_UNKNOWN.

(** ** The store of list objects *)

Definition loc : Type := nat.
Abbreviation heap := (gmap loc (list Friend)).

Definition Py (A : Type) : Type := heap → result (A * heap).

Definition py_ret {A : Type} (a : A) : Py A := λ h, Ok (a, h).

Definition py_bind {A B : Type} (m : Py A) (k : A → Py B) : Py B :=
  λ h, match m h with
       | Ok (a, h') => k a h'
       | Err e => Err e
       end.

Definition py_lift {A : Type} (r : result A) : Py A :=
  λ h, match r with
       | Ok a => Ok (a, h)
       | Err e => Err e
       end.

Declare Scope py_scope.
Delimit Scope py_scope with py.
Notation "'let*' x := m 'in' k" := (py_bind m (fun x => k))
  (at level 10, x name, m at level 100, k at level 200) : py_scope.
Notation "'let*' ' p := m 'in' k" := (py_bind m (fun p => k))
  (at level 10, p pattern, m at level 100, k at level 200) : py_scope.
Notation "m ;;; k" := (py_bind m (fun _ => k))
  (at level 100, k at level 200, right associativity) : py_scope.

(** A list display or comprehension: a new list object. *)
Definition list_new (xs : list Friend) : Py loc :=
  λ h, let l := fresh (dom h) in Ok (l, <[l := xs]> h).

(** Reading the elements of a list object. *)
Definition list_items (l : loc) : Py (list Friend) :=
  λ h, match h !! l with
       | Some xs => Ok (xs, h)
       | None => Err NoSuchObject
       end.

(** [l.sort(key=...)]: the list object is reordered in place. *)
Definition list_sort_in_place {K : Type} (key : Friend → K) (leb : K → K → bool)
    (l : loc) : Py unit :=
  λ h, match h !! l with
       | Some xs => Ok (tt, <[l := list_sort key leb xs]> h)
       | None => Err NoSuchObject
       end.

Definition enumerate_from {A : Type} : Z → list A → list (Z * A) :=
  fix go (i : Z) (l : list A) : list (Z * A) :=
    match l with
    | [] => []
    | x :: r => (i, x) :: go (i + 1) r
    end.

(** [enumerate(l)] *)
Definition enumerate {A : Type} (l : list A) : list (Z * A) := enumerate_from 0 l.

(** [len(l)] *)
Definition len {A : Type} (l : list A) : Z := Z.of_nat (length l).

(** A pair of [int] coordinates where Pillow also accepts floats. *)
Definition at_int (x y : Z) : Q * Q := (inject_Z x, inject_Z y).

(** ** Sample inputs

    Concrete stand-ins for what lies outside the repository, and small
    inputs on which the functions are evaluated. *)

(** colorsys.rgb_to_hsv on exact rationals. *)
Definition colorsys_rgb_to_hsv (r g b : Q) : Q * Q * Q :=
  let maxc := Qmax r (Qmax g b) in
  let minc := Qmin r (Qmin g b) in
  let rangec := (maxc - minc)%Q in
  let v := maxc in
  if Qeq_bool minc maxc then (0, 0, v)%Q
  else
    let s := (rangec / maxc)%Q in
    let rc := ((maxc - r) / rangec)%Q in
    let gc := ((maxc - g) / rangec)%Q in
    let bc := ((maxc - b) / rangec)%Q in
    let h :=
      if Qeq_bool r maxc then (bc - gc)%Q
      else if Qeq_bool g maxc then (2 + rc - bc)%Q
      else (4 + gc - rc)%Q in
    let h := (h / 6 - inject_Z (Qfloor (h / 6)))%Q in
    (h, s, v).

(** colorsys.hsv_to_rgb on exact rationals. *)
Definition colorsys_hsv_to_rgb (h s v : Q) : Q * Q * Q :=
  if Qeq_bool s 0 then (v, v, v)
  else
    let i := int_of_float (h * 6)%Q in
    let f := (h * 6 - inject_Z i)%Q in
    let p := (v * (1 - s))%Q in
    let q := (v * (1 - s * f))%Q in
    let t := (v * (1 - s * (1 - f)))%Q in
    let i := i mod 6 in
    if i =? 0 then (v, t, p)
    else if i =? 1 then (q, v, p)
    else if i =? 2 then (p, v, t)
    else if i =? 3 then (p, q, v)
    else if i =? 4 then (t, p, v)
    else (v, p, q).


(** A monospaced font: every glyph is half the font size wide. *)
Definition sample_getlength (font : Font) (text : pystr) : Q :=
  (inject_Z (font_size font * len text) / 2)%Q.

Definition sample_open_size (fp : Asset) : Z * Z := (64, 64).
Definition sample_bytes_size (data : list Byte.byte) : Z * Z := (64, 64).

(** One pixel to bytes of hue, saturation and value, by way of colorsys. *)
Definition sample_pixel_to_HSV (c : Color) : N * N * N :=
  match c with
  | r :: g :: b :: _ =>
      let '(h, s, v) :=
        colorsys_rgb_to_hsv (inject_Z r / 255)%Q (inject_Z g / 255)%Q (inject_Z b / 255)%Q in
      (Z.to_N (int_of_float (h * 255)%Q), Z.to_N (int_of_float (s * 255)%Q),
       Z.to_N (int_of_float (v * 255)%Q))
  | _ => (0, 0, 0)%N
  end.

Definition sample_pixel_HSV_to_RGB (p : N * N * N) : Color :=
  let '(r, g, b) :=
    colorsys_hsv_to_rgb (inject_Z (Z.of_N p.1.1) / 255)%Q (inject_Z (Z.of_N p.1.2) / 255)%Q
      (inject_Z (Z.of_N p.2) / 255)%Q in
  [int_of_float (r * 255)%Q; int_of_float (g * 255)%Q; int_of_float (b * 255)%Q].

(** An array without elements becomes an image without pixels. *)
Definition sample_fromarray_empty (size : Z * Z) : result Image :=
  Ok (Image_new RGBA size []).

Definition sample_avatar : Image := Image_open unknown_avatar_path.

(** One member in a game, one online with the generic label, one offline. *)
Definition bob : Friend :=
  mkFriend (lit "76561198000000002") sample_avatar (lit "bob") (lit "Counter-Strike") 1
    (Some (lit "bobby")).
Definition amy : Friend :=
  mkFriend (lit "76561198000000001") sample_avatar (lit "amy") STR_ONLINE 1 None.
Definition zed : Friend :=
  mkFriend (lit "76561198000000003") sample_avatar (lit "zed") (lit "offline") 0 None.

Definition sample_roster : list Friend := [bob; amy; zed].

(** A roster whose sections have several members: away, in a game,
    busy, online, snoozing in a game, offline. *)
Definition cal : Friend :=
  mkFriend (lit "76561198000000005") sample_avatar (lit "cal") STR_AWAY 3 None.
Definition dee : Friend :=
  mkFriend (lit "76561198000000006") sample_avatar (lit "dee") STR_ONLINE 2 None.
Definition eli : Friend :=
  mkFriend (lit "76561198000000007") sample_avatar (lit "eli") (lit "Apex Legends") 4 None.

Definition busy_roster : list Friend := [cal; bob; dee; amy; eli; zed].
Definition busy_heap : gmap nat (list Friend) := {[ 0%nat := busy_roster ]}.

(** The caller's store: the roster is its only list object. *)
Definition sample_heap : gmap nat (list Friend) := {[ 0%nat := sample_roster ]}.

(** A photo of one grey pixel. *)
Definition one_pixel : Bitmap := mkBitmap 1 1 (λ _ _, [128; 128; 128]).

(** A uniform grey photo of 5x2 pixels: no pixel has any saturation. *)
Definition grey_photo : Bitmap := mkBitmap 5 2 (λ _ _, [128; 128; 128]).

(** A photo of 4x3 pixels, all of full saturation: one dark red, one
    green of middling value, the other ten bright red.  Brightest and
    darkest pixel are both red. *)
Definition hue_photo : Bitmap :=
  mkBitmap 4 3
    (λ x y, if (x =? 0) && (y =? 0) then [100; 0; 0]
            else if (x =? 1) && (y =? 0) then [0; 120; 0]
            else [255; 0; 0]).

(** A photo of 20x10 pixels: with one row and one column its only tile is
    twice as wide as high. *)
Definition wide_photo : Bitmap := mkBitmap 20 10 (λ x y, [x; y; 7]).

(** A biography of two lines. *)
Definition sample_description : pystr := lit "Hello" ++ [NEWLINE] ++ lit "World".

(** ** utils.py: the status text of a player *)

Definition STR_OFFLINE : pystr := [0x79BB; 0x7EBF]%N.                        (* "离线" *)
Definition STR_LAST_SEEN : pystr := [0x4E0A; 0x6B21; 0x5728; 0x7EBF; 0x20]%N. (* "上次在线 " *)
Definition STR_JUST_NOW : pystr := [0x521A; 0x521A]%N.                       (* "刚刚" *)
Definition STR_MINUTES_AGO : pystr := [0x20; 0x5206; 0x949F; 0x524D]%N.      (* " 分钟前" *)
Definition STR_HOURS_AGO : pystr := [0x20; 0x5C0F; 0x65F6; 0x524D]%N.        (* " 小时前" *)
Definition STR_DAYS_AGO : pystr := [0x20; 0x5929; 0x524D]%N.                 (* " 天前" *)
Definition STR_MONTHS_AGO : pystr := [0x20; 0x4E2A; 0x6708; 0x524D]%N.       (* " 个月前" *)
Definition STR_YEARS_AGO : pystr := [0x20; 0x5E74; 0x524D]%N.                (* " 年前" *)

(** The [status] entry that simplize_steam_player_data computes.  [now]
    is [calendar.timegm(time.gmtime())]; [lastlogoff] and [gameextrainfo]
    are what [player.get(...)] returns, [None] also when the key is
    missing. *)
Definition simplize_steam_player_status (now : Z) (personastate : Z)
    (lastlogoff : option Z) (gameextrainfo : option pystr) : pystr :=
  if personastate =? 0 then
    match lastlogoff with
    | None => STR_OFFLINE
    | Some time_logged_off =>
        if time_logged_off =? 0 then STR_OFFLINE
        else
          let time_to_now := now - time_logged_off in
          if time_to_now <? 60 then STR_LAST_SEEN ++ STR_JUST_NOW
          else if time_to_now <? 3600 then
            STR_LAST_SEEN ++ str_of_int (time_to_now / 60) ++ STR_MINUTES_AGO
          else if time_to_now <? 86400 then
            STR_LAST_SEEN ++ str_of_int (time_to_now / 3600) ++ STR_HOURS_AGO
          else if time_to_now <? 2592000 then
            STR_LAST_SEEN ++ str_of_int (time_to_now / 86400) ++ STR_DAYS_AGO
          else if time_to_now <? 31536000 then
            STR_LAST_SEEN ++ str_of_int (time_to_now / 2592000) ++ STR_MONTHS_AGO
          else STR_LAST_SEEN ++ str_of_int (time_to_now / 31536000) ++ STR_YEARS_AGO
    end
  else simplize_status personastate gameextrainfo.

(** ** steam.py: Steam IDs and friend codes *)

Definition STEAM_ID_OFFSET : Z := 76561197960265728.

(** What [str.isdigit] and [int] take from the Unicode database:
    [is_digit c] tells whether the character [c] is a digit for
    [str.isdigit] (Numeric_Type Digit or Decimal), [decimal c] is its value
    when it is a decimal digit, the only digits that [int] reads. *)
Record Unicode : Type := mkUnicode {
  is_digit : N → bool;
  decimal : N → option Z
}.

(** [s.isdigit()]: a character at least, and digits only. *)
Definition str_isdigit (U : Unicode) (s : pystr) : bool :=
  match s with
  | [] => false
  | _ :: _ => forallb (is_digit U) s
  end.

(** [int(s)] on a string on which [isdigit] holds, so that no sign, blank
    or underscore occurs: the decimal value, or ValueError when a digit is
    not a decimal digit or when the string has more digits than the
    interpreter converts ([int_max_str_digits], 0 for no limit). *)
Definition int_of_digits (U : Unicode) (int_max_str_digits : Z) (s : pystr) : result Z :=
  if (0 <? int_max_str_digits) && (int_max_str_digits <? len s) then Err ValueError
  else
    match mapM (decimal U) s with
    | Some ds => Ok (foldl (λ v d, 10 * v + d) 0 ds)
    | None => Err ValueError
    end.

Definition get_steam_id (U : Unicode) (int_max_str_digits : Z)
    (steam_id_or_steam_friends_code : pystr) : result (option pystr) :=
  if negb (str_isdigit U steam_id_or_steam_friends_code) then Ok None
  else
    (let* id_ := int_of_digits U int_max_str_digits steam_id_or_steam_friends_code in
     if id_ <? STEAM_ID_OFFSET then Ok (Some (str_of_int (id_ + STEAM_ID_OFFSET)))
     else Ok (Some steam_id_or_steam_friends_code))%res.

(** main.py, steam_info: [player_id=str(int(steam_id) - STEAM_ID_OFFSET)],
    the friend code shown on the card, for a [steam_id] of digits. *)
Definition player_id_of (U : Unicode) (int_max_str_digits : Z) (steam_id : pystr)
    : result pystr :=
  (let* n := int_of_digits U int_max_str_digits steam_id in
   Ok (str_of_int (n - STEAM_ID_OFFSET)))%res.

(** The Unicode database cut down to the ASCII digits. *)
Definition ascii_digits : Unicode :=
  mkUnicode (λ c, (48 <=? c)%N && (c <=? 57)%N)
    (λ c, if (48 <=? c)%N && (c <=? 57)%N then Some (Z.of_N c - 48) else None).

(** The ASCII digits and the superscript digits of Latin-1, which are
    digits for [str.isdigit] and not for [int]. *)
Definition latin1_digits : Unicode :=
  mkUnicode (λ c, ((48 <=? c)%N && (c <=? 57)%N) || bool_decide (c ∈ [0xB2; 0xB3; 0xB9]%N))
    (decimal ascii_digits).

(** What the properties assume of the Unicode database: it knows the
    ASCII digits, and a character that [int] reads as a decimal digit is a
    digit for [str.isdigit], with a value from 0 to 9. *)
Definition unicode_ok (U : Unicode) : Prop :=
  (∀ c, (48 ≤ c ≤ 57)%N → decimal U c = Some (Z.of_N c - 48))
  ∧ (∀ c v, decimal U c = Some v → is_digit U c = true ∧ 0 ≤ v ≤ 9).

(** The strings of ASCII digits, and the number that such a string
    denotes. *)
Definition ascii_decimal (s : pystr) : Prop := s ≠ [] ∧ Forall (λ c, (48 ≤ c ≤ 57)%N) s.

Definition digits_value (s : pystr) : Z := foldl (λ v c, 10 * v + (Z.of_N c - 48)) 0 s.

(** The interpreter converts strings of [n] digits. *)
Definition converts (int_max_str_digits n : Z) : Prop :=
  int_max_str_digits ≤ 0 ∨ n ≤ int_max_str_digits.

(** ** data_source.py: the bindings and the comparison of two polls *)

(** Truth value of a string or None: [if x:] *)
Definition truthy (x : option pystr) : bool :=
  match x with
  | Some (_ :: _) => true
  | _ => false
  end.

(** What a user binds: the dictionary passed to [BindData.add], with the
    entries that the class reads or that its header comment names.
    [None] stands for a missing key or the value None. *)
Record BindEntry : Type := mkBindEntry {
  bind_user_id : option pystr;
  bind_steam_id : pystr;
  bind_nickname : option pystr
}.

(** [BindData.content]: parent id, then user id, then the entry. *)
Abbreviation BindContent := (gmap pystr (gmap pystr BindEntry)).

(** What [BindData.get] returns: None, the users of a parent, or the
    entry of one user. *)
Inductive BindGet : Type :=
  | GetNone
  | GetUsers (users : gmap pystr BindEntry)
  | GetEntry (entry : BindEntry).

Definition BindData_get (content : BindContent) (parent_id : pystr)
    (user_id : option pystr) : BindGet :=
  match content !! parent_id with
  | None => GetNone
  | Some users =>
      match user_id with
      | None => GetUsers users
      | Some user_id =>
          match users !! user_id with
          | Some entry => GetEntry entry
          | None => GetNone
          end
      end
  end.

Definition BindData_add (content : BindContent) (parent_id : pystr) (data : BindEntry)
    : BindContent :=
  let content :=
    if bool_decide (parent_id ∉ dom content) then <[parent_id := ∅]> content
    else content in
  let user_id := bind_user_id data in
  if truthy user_id then
    match user_id with
    | Some user_id =>
        <[parent_id := <[user_id := data]> (content !!! parent_id)]> content
    | None => content
    end
  else content.

Definition BindData_remove (content : BindContent) (parent_id user_id : pystr)
    : BindContent :=
  match content !! parent_id with
  | Some users =>
      if bool_decide (user_id ∈ dom users)
      then <[parent_id := delete user_id users]> content
      else content
  | None => content
  end.

(** A player as the Steam API reports it (models.Player), with the two
    entries that the comparison reads through [get]; [None] stands for a
    missing key or the value None. *)
Record Player : Type := mkPlayer {
  player_steamid : option pystr;
  personaname : pystr;
  gameextrainfo : option pystr
}.

(** One record of [SteamInfoData.compare]: its type and the players. *)
Inductive Change : Type :=
  | change_start (player : Player)
  | change_stop (player old_player : Player)
  | change_change (player old_player : Player).

(** [{player.get("steamid"): player for player in old_players}]: of two
    players with one id the later one stays. *)
Definition old_dict_of (old_players : list Player) : gmap (option pystr) Player :=
  foldl (λ old_dict player, <[player_steamid player := player]> old_dict) ∅ old_players.

(** One turn of the loop of [compare]: the record appended for [new], if
    any.  A game that stopped or changed was found in [old_dict], so the
    old player is there. *)
Definition compare_one (old_dict : gmap (option pystr) Player) (new : Player)
    : option Change :=
  let sid := player_steamid new in
  let old := old_dict !! sid in
  let new_game := gameextrainfo new in
  let old_game := old ≫= gameextrainfo in
  if truthy new_game && negb (truthy old_game) then Some (change_start new)
  else
    match old with
    | Some old =>
        if truthy old_game && negb (truthy new_game) then Some (change_stop new old)
        else if truthy new_game && truthy old_game && bool_decide (new_game ≠ old_game)
        then Some (change_change new old)
        else None
    | None => None
    end.

Definition SteamInfoData_compare (old_players new_players : list Player) : list Change :=
  let old_dict := old_dict_of old_players in
  omap (compare_one old_dict) new_players.

(** The new player of a record. *)
Definition change_player (c : Change) : Player :=
  match c with
  | change_start player | change_stop player _ | change_change player _ => player
  end.

(** A player who is in a game. *)
Definition playing (p : Player) : Prop := truthy (gameextrainfo p) = true.


(** ** More sample inputs *)

(** A record with a persona state that Steam does not have. *)
Definition ghost : Friend :=
  mkFriend (lit "76561198000000004") sample_avatar (lit "ghost") STR_UNKNOWN 7 None.

Definition odd_roster : list Friend := [bob; ghost].
Definition odd_heap : gmap nat (list Friend) := {[ 0%nat := odd_roster ]}.

(** The store of the commands of main.py: the list passed is empty. *)
Definition empty_heap : gmap nat (list Friend) := {[ 0%nat := [] ]}.

(** A photo of 20x20 pixels: with two rows and two columns its tiles are
    squares of 10 pixels. *)
Definition square_photo : Bitmap := mkBitmap 20 20 (λ x y, [x; y; 7]).

(** A generator that always hands out the least number asked for. *)
Definition sample_randint (k : nat) (low high : Z) : Z := low.

(** One player in two polls: idle in the first, in a game in the second. *)
Definition ann_idle : Player := mkPlayer (Some (lit "76561198000000001")) (lit "ann") None.
Definition ann_playing : Player :=
  mkPlayer (Some (lit "76561198000000001")) (lit "ann") (Some (lit "Portal")).
(** ** draw.py: the roster *)

Section draw.
(** What lies outside the repository: the glyph metrics of the fonts
    ([font.getlength], [draw.textlength]) and the dimensions of the
    images that Pillow opens from files or bytes. *)
Variable getlength : Font → pystr → Q.
Variable open_size : Asset → Z * Z.
Variable bytes_size : list Byte.byte → Z * Z.
(** [colorsys.rgb_to_hsv] and [colorsys.hsv_to_rgb]. *)
Variable rgb_to_hsv : Q → Q → Q → Q * Q * Q.
Variable hsv_to_rgb : Q → Q → Q → Q * Q * Q.
(** Pillow's conversion of one pixel to mode "HSV" (three bytes: hue,
    saturation, value) and back to "RGB". *)
Variable pixel_to_HSV : Color → N * N * N.
Variable pixel_HSV_to_RGB : N * N * N → Color.
(** [Image.fromarray] on an array that has a dimension of length 0. *)
Variable fromarray_empty : Z * Z → result Image.

Fixpoint size (im : Image) : Z * Z :=
  match im with
  | Image_new _ sz _ => sz
  | Image_open fp => open_size fp
  | Image_open_bytes data => bytes_size data
  | Image_fromarray a => (bm_width a, bm_height a)
  | resize _ sz _ => sz
  | crop _ (x0, y0, x1, y1) => (x1 - x0, y1 - y0)
  | convert im _
  | paste im _ _
  | paste_mask im _ _ _
  | enhance_brightness im _
  | draw_text im _ _ _ _
  | draw_rectangle im _ _ _ _
  | draw_rounded_rectangle im _ _ _ _ _
  | draw_ellipse im _ _
  | filter_image im _ => size im
  end.

Definition width (im : Image) : Z := (size im).1.
Definition height (im : Image) : Z := (size im).2.

Definition draw_parent_status (parent_avatar : Image) (parent_name : pystr) : Image :=
  let parent_avatar :=
    resize parent_avatar (PARENT_AVATAR_SIZE, PARENT_AVATAR_SIZE) BICUBIC in
  let canvas := resize (Image_open parent_status_path) (WIDTH, 120) BICUBIC in
  let avatar_height := 120 - 16 - PARENT_AVATAR_SIZE in
  let canvas := paste canvas parent_avatar (16, avatar_height) in
  let canvas :=
    draw_text canvas (at_int (16 + PARENT_AVATAR_SIZE + 16) (avatar_height + 12))
      parent_name (truetype font_bold_path 20) (hex_to_rgb "6dcff6") in
  draw_text canvas (at_int (16 + PARENT_AVATAR_SIZE + 16) (avatar_height + 20 + 16))
    STR_ONLINE (truetype font_light_path 18) (hex_to_rgb "4c91ac").

Definition draw_friends_search : Image :=
  let canvas := Image_new RGB (WIDTH, 50) (hex_to_rgb "434953") in
  let friends_search := Image_open friends_search_path in
  let canvas := paste canvas friends_search (WIDTH - width friends_search, 0) in
  draw_text canvas (at_int 24 10) STR_FRIENDS (truetype font_regular_path 20)
    (hex_to_rgb "b7ccd5").

Definition personastate_colors : gmap Z (Color * Color) :=
  list_to_map [
    (0, (hex_to_rgb "969697", hex_to_rgb "656565"));
    (1, (hex_to_rgb "6dcef5", hex_to_rgb "4c91ac"));
    (2, (hex_to_rgb "6dcef5", hex_to_rgb "4c91ac"));
    (3, (hex_to_rgb "45778e", hex_to_rgb "365969"));
    (4, (hex_to_rgb "6dcef5", hex_to_rgb "4c91ac"));
    (5, (hex_to_rgb "6dcef5", hex_to_rgb "4c91ac"));
    (6, (hex_to_rgb "6dcef5", hex_to_rgb "4c91ac"))].

(** f"{friend_name} ({nickname})" if nickname is not None else friend_name *)
Definition display_name_of (friend_name : pystr) (nickname : option pystr) : pystr :=
  match nickname with
  | Some n => friend_name ++ lit " (" ++ n ++ lit ")"
  | None => friend_name
  end.

(** draw_friend_status from [canvas.paste(friend_avatar, (22, 8))] on:
    the part reached when [personastate] is neither 2 nor 4. *)
Definition draw_friend_status_row (canvas friend_avatar : Image)
    (display_name status : pystr) (personastate : Z) : result Image :=
  let canvas := paste canvas friend_avatar (22, 8) in
  (let* fill :=
     if bool_decide (status ≠ STR_ONLINE) && (personastate =? 1) then
       Ok (hex_to_rgb "e3ffc2", hex_to_rgb "8ebe56")
     else if bool_decide (status ≠ STR_AWAY) && (personastate =? 3) then
       Ok (hex_to_rgb "e3ffc2", hex_to_rgb "8ebe56")
     else
       match personastate_colors !! personastate with
       | Some c => Ok c
       | None => Err KeyError
       end in
   let canvas :=
     draw_text canvas (at_int (22 + MEMBER_AVATAR_SIZE + 18) 12) display_name
       (truetype font_bold_path 20) fill.1 in
   Ok (draw_text canvas (at_int (22 + MEMBER_AVATAR_SIZE + 16) 36) status
         (truetype font_regular_path 18) fill.2))%res.

(** A call of draw_friend_status whose [personastate] is neither 2 nor
    4: the self-calls, which pass 1. *)
Definition draw_friend_status_plain (friend_avatar : Image)
    (friend_name status : pystr) (personastate : Z) (nickname : option pystr)
    : result Image :=
  let friend_avatar :=
    resize friend_avatar (MEMBER_AVATAR_SIZE, MEMBER_AVATAR_SIZE) BICUBIC in
  let canvas := Image_new RGB (WIDTH, 64) (hex_to_rgb "1e2024") in
  let display_name := display_name_of friend_name nickname in
  draw_friend_status_row canvas friend_avatar display_name status personastate.

Definition draw_friend_status (friend_avatar : Image)
    (friend_name status : pystr) (personastate : Z) (nickname : option pystr)
    : result Image :=
  let friend_avatar :=
    resize friend_avatar (MEMBER_AVATAR_SIZE, MEMBER_AVATAR_SIZE) BICUBIC in
  let canvas := Image_new RGB (WIDTH, 64) (hex_to_rgb "1e2024") in
  let display_name := display_name_of friend_name nickname in
  if personastate =? 2 then
    (let* canvas := draw_friend_status_plain friend_avatar friend_name status 1 nickname in
     let busy := Image_open busy_path in
     let name_width := int_of_float (getlength (truetype font_bold_path 20) display_name) in
     Ok (paste canvas busy (22 + MEMBER_AVATAR_SIZE + 16 + name_width + 4, 18)))%res
  else if personastate =? 4 then
    (let* canvas := draw_friend_status_plain friend_avatar friend_name status 1 nickname in
     let zzz :=
       Image_open (if bool_decide (status = STR_ONLINE) then zzz_online_path
                   else zzz_gaming_path) in
     let name_width := int_of_float (getlength (truetype font_bold_path 20) display_name) in
     Ok (paste canvas zzz (22 + MEMBER_AVATAR_SIZE + 16 + name_width + 8, 18)))%res
  else
    draw_friend_status_row canvas friend_avatar display_name status personastate.

(** [draw_friend_status(d["avatar"], d["name"], d["status"],
    d["personastate"], d["nickname"])] *)
Definition draw_friend (d : Friend) : result Image :=
  draw_friend_status (avatar d) (name d) (status d) (personastate d) (nickname d).

(** The loop that pastes the rows of a section below its title. *)
Definition paste_rows (canvas : Image) (friends_status_list : list Image) : Image :=
  foldl (λ canvas '(i, status_image),
           paste canvas status_image (0, 64 + (MEMBER_AVATAR_SIZE + 16) * i))
        canvas (enumerate friends_status_list).

(** f"({len(data)})" *)
Definition count_badge {A : Type} (data : list A) : pystr :=
  lit "(" ++ str_of_int (len data) ++ lit ")".

Definition draw_gaming_friends_status (data : loc) : Py Image :=
  (list_sort_in_place status str_leb data ;;;
   let* items := list_items data in
   let canvas :=
     Image_new RGB (WIDTH, 64 + (MEMBER_AVATAR_SIZE + 16) * len items + 16)
       (hex_to_rgb "1e2024") in
   let canvas :=
     draw_text canvas (at_int 22 22) STR_GAMING_TITLE (truetype font_regular_path 22)
       (hex_to_rgb "c5d6d4") in
   let* friends_status_list := py_lift (result_mapM draw_friend items) in
   py_ret (paste_rows canvas friends_status_list))%py.

Definition draw_online_friends_status (data : loc) : Py Image :=
  (let* items := list_items data in
   let canvas :=
     Image_new RGB (WIDTH, 64 + (MEMBER_AVATAR_SIZE + 16) * len items + 16)
       (hex_to_rgb "1e2024") in
   let canvas :=
     draw_text canvas (at_int 22 22) STR_ONLINE_TITLE (truetype font_regular_path 22)
       (hex_to_rgb "c5d6d4") in
   let canvas :=
     draw_text canvas (at_int 115 25) (count_badge items) (truetype font_regular_path 18)
       (hex_to_rgb "67665c") in
   let* friends_status_list := py_lift (result_mapM draw_friend items) in
   py_ret (paste_rows canvas friends_status_list))%py.

Definition draw_offline_friends_status (data : loc) : Py Image :=
  (let* items := list_items data in
   let canvas :=
     Image_new RGB (WIDTH, 64 + (MEMBER_AVATAR_SIZE + 16) * len items + 16)
       (hex_to_rgb "1e2024") in
   let canvas :=
     draw_text canvas (at_int 22 22) STR_OFFLINE_TITLE (truetype font_regular_path 22)
       (hex_to_rgb "c5d6d4") in
   let canvas :=
     draw_text canvas (at_int 72 25) (count_badge items) (truetype font_regular_path 18)
       (hex_to_rgb "67665c") in
   let* friends_status_list := py_lift (result_mapM draw_friend items) in
   py_ret (paste_rows canvas friends_status_list))%py.

(** The three list comprehensions of draw_friends_status. *)
Definition in_gaming_data (d : Friend) : Prop :=
  (personastate d = 1 ∧ status d ≠ STR_ONLINE)
  ∨ (personastate d = 3 ∧ status d ≠ STR_AWAY)
  ∨ (personastate d = 4 ∧ status d ≠ STR_ONLINE).

Definition in_online_data (d : Friend) : Prop :=
  (personastate d = 1 ∧ status d = STR_ONLINE)
  ∨ (personastate d = 3 ∧ status d = STR_AWAY)
  ∨ (personastate d = 4 ∧ status d = STR_ONLINE)
  ∨ personastate d ∈ [2; 5; 6].

Definition in_offline_data (d : Friend) : Prop := personastate d = 0.

Global Instance in_gaming_data_dec d : Decision (in_gaming_data d).
Proof. unfold in_gaming_data. apply _. Defined.
Global Instance in_online_data_dec d : Decision (in_online_data d).
Proof. unfold in_online_data. apply _. Defined.
Global Instance in_offline_data_dec d : Decision (in_offline_data d).
Proof. unfold in_offline_data. apply _. Defined.

(** [lambda x: (7 if x["personastate"] == 3 else x["personastate"])] *)
Definition online_sort_key (x : Friend) : Z :=
  if personastate x =? 3 then 7 else personastate x.

(** The last loop of draw_friends_status: sections are pasted from top
    to bottom, each but the last followed by a separator. *)
Definition stack_sections (status_images : list Image) (canvas : Image) (y : Z)
    : Image * Z :=
  foldl (λ '(canvas, y) '(i, status_image),
           let canvas := paste canvas status_image (0, y) in
           let y := y + height status_image in
           if bool_decide (i ≠ len status_images - 1) then
             (draw_rectangle canvas (0, y - 1, WIDTH, y)
                (Some (hex_to_rgb "333439")) None 1, y)
           else (canvas, y))
        (canvas, y) (enumerate status_images).

Definition draw_friends_status (parent_avatar : Image) (parent_name : pystr)
    (data : loc) : Py Image :=
  (list_sort_in_place personastate Z.leb data ;;;
   let parent_status := draw_parent_status parent_avatar parent_name in
   let friends_search := draw_friends_search in
   let status_images : list Image := [] in
   let height_ := height parent_status + height friends_search in
   let* items := list_items data in
   let* gaming_data := list_new (filter in_gaming_data items) in
   let* gaming_items := list_items gaming_data in
   let* '(status_images, height_) :=
     (if bool_decide (gaming_items ≠ []) then
        let* im := draw_gaming_friends_status gaming_data in
        py_ret (status_images ++ [im], height_ + height im)
      else py_ret (status_images, height_)) in
   let* items := list_items data in
   let* online_data := list_new (filter in_online_data items) in
   list_sort_in_place online_sort_key Z.leb online_data ;;;
   let* online_items := list_items online_data in
   let* '(status_images, height_) :=
     (if bool_decide (online_items ≠ []) then
        let* im := draw_online_friends_status online_data in
        py_ret (status_images ++ [im], height_ + height im)
      else py_ret (status_images, height_)) in
   let* items := list_items data in
   let* offline_data := list_new (filter in_offline_data items) in
   let* offline_items := list_items offline_data in
   let* '(status_images, height_) :=
     (if bool_decide (offline_items ≠ []) then
        let* im := draw_offline_friends_status offline_data in
        py_ret (status_images ++ [im], height_ + height im)
      else py_ret (status_images, height_)) in
   let canvas := Image_new RGB (WIDTH, height_) (hex_to_rgb "1e2024") in
   let canvas := paste canvas parent_status (0, 0) in
   let canvas := paste canvas friends_search (0, height parent_status) in
   let y := height parent_status + height friends_search in
   py_ret (stack_sections status_images canvas y).1)%py.

(** *** What a composed image shows *)

(** The images pasted on a canvas with their positions, first pasted
    first. *)
Fixpoint pasted (im : Image) : list (Image * (Z * Z)) :=
  match im with
  | paste im src box | paste_mask im src box _ => pasted im ++ [(src, box)]
  | convert im _
  | enhance_brightness im _
  | draw_text im _ _ _ _
  | draw_rectangle im _ _ _ _
  | draw_rounded_rectangle im _ _ _ _ _
  | draw_ellipse im _ _
  | filter_image im _ => pasted im
  | _ => []
  end.

(** The rectangles drawn on a canvas, first drawn first. *)
Fixpoint rectangles (im : Image) : list Box :=
  match im with
  | draw_rectangle im xy _ _ _ => rectangles im ++ [xy]
  | paste im _ _ | paste_mask im _ _ _
  | convert im _
  | enhance_brightness im _
  | draw_text im _ _ _ _
  | draw_rounded_rectangle im _ _ _ _ _
  | draw_ellipse im _ _
  | filter_image im _ => rectangles im
  | _ => []
  end.

(** The texts drawn on a canvas, first drawn first. *)
Fixpoint texts (im : Image) : list pystr :=
  match im with
  | draw_text im _ s _ _ => texts im ++ [s]
  | paste im _ _ | paste_mask im _ _ _
  | convert im _
  | enhance_brightness im _
  | draw_rectangle im _ _ _ _
  | draw_rounded_rectangle im _ _ _ _ _
  | draw_ellipse im _ _
  | filter_image im _ => texts im
  | _ => []
  end.

Inductive SectionKind : Type := Gaming | Online | Offline.

(** A section image is told by its title, the first text drawn on it. *)
Definition section_kind (im : Image) : option SectionKind :=
  match texts im with
  | t :: _ =>
      if bool_decide (t = STR_GAMING_TITLE) then Some Gaming
      else if bool_decide (t = STR_ONLINE_TITLE) then Some Online
      else if bool_decide (t = STR_OFFLINE_TITLE) then Some Offline
      else None
  | [] => None
  end.

(** The member list that each section is drawn from: the slice of the
    roster, in the order the section renderer receives and lists it. *)
Definition section_members (k : SectionKind) (data : list Friend) : list Friend :=
  let items := list_sort personastate Z.leb data in
  match k with
  | Gaming => list_sort status str_leb (filter in_gaming_data items)
  | Online => list_sort online_sort_key Z.leb (filter in_online_data items)
  | Offline => filter in_offline_data items
  end.

(** ** draw.py: graphics primitives *)

(** [max(0, min(255, c))] *)
Definition clamp_channel (c : Z) : Z := Z.max 0 (Z.min 255 c).

(** Element [i] of [np.linspace(start, stop, num)], for [num >= 1]. *)
Definition linspace_at (start stop : Z) (num i : Z) : Q :=
  if num =? 1 then inject_Z start
  else (inject_Z start + inject_Z i * (inject_Z stop - inject_Z start) / inject_Z (num - 1))%Q.

(** The same element for every channel, cast to uint8. *)
Definition linspace_color (start stop : Color) (num i : Z) : Color :=
  zip_with (λ a b, int_of_float (linspace_at a b num i)) start stop.

(** [Image.fromarray(a, "RGBA")] for an array of [w] x [h] pixels with [k]
    channels of one byte each: Pillow takes the array for a buffer of four
    bytes a pixel, row after row.  With four channels the image is the
    array; with fewer the buffer is too small and the call raises
    ValueError; with more the buffer is read across the pixels of the
    array. *)
Definition fromarray_RGBA (w h : Z) (k : nat) (pixel : Z → Z → Color) : result Image :=
  if (k <? 4)%nat then Err ValueError
  else if (k =? 4)%nat then Ok (Image_fromarray (mkBitmap w h pixel))
  else
    Ok (Image_fromarray
          (mkBitmap w h
             (λ x y, (λ j, let i := 4 * (y * w + x) + j in
                           nth (Z.to_nat (i mod Z.of_nat k))
                             (pixel ((i / Z.of_nat k) mod w) (i / Z.of_nat k / w)) 0)
                     <$> [0; 1; 2; 3]))).

Definition create_gradient_image (size : Z * Z) (color1 color2 : Color) : result Image :=
  let color1 := clamp_channel <$> color1 in
  let color2 := clamp_channel <$> color2 in
  (* np.linspace refuses a negative number of samples *)
  if size.1 <? 0 then Err ValueError
  (* and colours of different lengths *)
  else if negb (length color1 =? length color2)%nat then Err ValueError
  (* np.tile refuses a negative repetition *)
  else if size.2 <? 0 then Err ValueError
  else if (size.1 =? 0) || (size.2 =? 0) then fromarray_empty size
  else
    fromarray_RGBA size.1 size.2 (length color1)
      (λ x _, linspace_color color1 color2 size.1 x).

Definition create_vertical_gradient_rect (width height : Z)
    (start_color end_color : Color) : Image :=
  if (width <=? 0) || (height <=? 0) then Image_new RGBA (1, 1) [0; 0; 0; 0]
  else
    let start_color := clamp_channel <$> start_color in
    let end_color := clamp_channel <$> end_color in
    let gradient_array :=
      mkBitmap width height (λ _ y, linspace_color start_color end_color height y) in
    Image_fromarray gradient_array.

Definition rounded_rectangle (image : Image) (radius : Z) (border : bool)
    (border_width : Z) (border_color : Color) : Image :=
  let '(width, height) := size image in
  let image_ := Image_new RGBA (width + 1, height + 1) [0; 0; 0; 0] in
  let image_ := paste_mask image_ image (0, 0) (convert image RGBA) in
  let result := Image_new RGBA (width + 1, height + 1) [0; 0; 0; 0] in
  let mask := Image_new MODE_L (width + 1, height + 1) [0] in
  let mask := draw_rounded_rectangle mask (0, 0, width, height) radius (Some [255]) None 1 in
  let result := paste_mask result image_ (0, 0) mask in
  if border then
    draw_rounded_rectangle result (0, 0, width, height) radius None (Some border_color)
      border_width
  else result.

(** [tuple(map(int, hsv_to_rgb(h, s, v)))] *)
Definition int_rgb (c : Q * Q * Q) : Color :=
  [int_of_float c.1.1; int_of_float c.1.2; int_of_float c.2].

(** The width asked of the filled part: [int(width * progress) - 6]. *)
Definition fill_width (progress : Q) (width : Z) : Z :=
  int_of_float (inject_Z width * progress)%Q - 6.

Definition create_progress_bar (progress : Q) (color : Z * Z * Z) (width height : Z)
    : Image :=
  let '(r, g, b) := color in
  let '(h, s, v) := rgb_to_hsv (inject_Z r) (inject_Z g) (inject_Z b) in
  let bar_color := int_rgb (hsv_to_rgb h s (v * (8 # 10))%Q) in
  let border_color := (λ x, Z.max (x - 20) 0) <$> [r; g; b] in
  let border_image :=
    rounded_rectangle (Image_new RGBA (width, height) bar_color) 8 true 1 border_color in
  let bar_color_top := int_rgb (hsv_to_rgb h (s / 2)%Q (v * 5 / 2)%Q) in
  let bar_color_bottem := int_rgb (hsv_to_rgb h (s / 2)%Q v) in
  let bar_image :=
    create_vertical_gradient_rect (fill_width progress width) (height - 4)
      bar_color_top bar_color_bottem in
  let bar_image := rounded_rectangle bar_image 6 false 0 [0; 0; 0] in
  paste_mask border_image bar_image (3, 2) bar_image.

(** *** The roundings of float arithmetic

    The functions of this file compute with exact rationals.  The two
    below write out where create_progress_bar rounds: [fl x] stands for the
    float nearest to [x], and is applied to the constant 0.8, to the
    products and quotients of the colour, to [width] when it becomes a
    float and to its product with [progress].  With [fl] the identity they
    are [fill_width] and [create_progress_bar]. *)
Definition fill_width_with (fl : Q → Q) (progress : Q) (width : Z) : Z :=
  int_of_float (fl (fl (inject_Z width) * progress)%Q) - 6.

Definition create_progress_bar_with (fl : Q → Q) (progress : Q) (color : Z * Z * Z)
    (width height : Z) : Image :=
  let '(r, g, b) := color in
  let '(h, s, v) := rgb_to_hsv (inject_Z r) (inject_Z g) (inject_Z b) in
  let bar_color := int_rgb (hsv_to_rgb h s (fl (v * fl (8 # 10)))%Q) in
  let border_color := (λ x, Z.max (x - 20) 0) <$> [r; g; b] in
  let border_image :=
    rounded_rectangle (Image_new RGBA (width, height) bar_color) 8 true 1 border_color in
  let bar_color_top := int_rgb (hsv_to_rgb h (fl (s / 2))%Q (fl (fl (v * 5) / 2))%Q) in
  let bar_color_bottem := int_rgb (hsv_to_rgb h (fl (s / 2))%Q v) in
  let bar_image :=
    create_vertical_gradient_rect (fill_width_with fl progress width) (height - 4)
      bar_color_top bar_color_bottem in
  let bar_image := rounded_rectangle bar_image 6 false 0 [0; 0; 0] in
  paste_mask border_image bar_image (3, 2) bar_image.

(** What is assumed of rounding to the nearest float: it keeps the order,
    and an integer of at most 53 bits is a float. *)
Definition rounds (fl : Q → Q) : Prop :=
  (∀ x y, (x <= y)%Q → (fl x <= fl y)%Q)
  ∧ (∀ n, Z.abs n ≤ 2 ^ 53 → (fl (inject_Z n) == inject_Z n)%Q).

(** ** draw.py: one title block of the profile card *)

Record Achievements : Type := mkAchievements {
  ach_name : pystr;
  ach_image : list Byte.byte
}.

(** f"{completed_achievement_number} / {total_achievement_number}" *)
Definition achievement_counter (completed total : Z) : pystr :=
  str_of_int completed ++ lit " / " ++ str_of_int total.

Definition draw_game_info (header : Image) (game_name game_time last_play_time : pystr)
    (achievements : list Achievements)
    (completed_achievement_number total_achievement_number : option Z)
    (achievement_color : Z * Z * Z) : result Image :=
  let bg := Image_new RGBA (880, 110 + 64 + 10) [0; 0; 0; 110] in
  let header := resize header (229, 86) BICUBIC in
  let bg := paste bg header (10, 110 / 2 - height header / 2) in
  let bg :=
    draw_text bg (at_int 260 10) game_name (truetype font_regular_path 26)
      [255; 255; 255] in
  let font_light := truetype font_light_path 22 in
  let display_text := last_play_time in
  let bg :=
    draw_text bg
      (at_int (int_of_float (inject_Z (width bg) - getlength font_light display_text)%Q
               - 10) 75)
      display_text font_light [150; 150; 150] in
  let display_text := STR_TOTAL_HOURS ++ game_time in
  let bg :=
    draw_text bg
      (at_int (int_of_float (inject_Z (width bg) - getlength font_light display_text)%Q
               - 10) 50)
      display_text font_light [150; 150; 150] in
  match completed_achievement_number, total_achievement_number with
  | Some completed, Some total =>
      let '(cr, cg, cb) := achievement_color in
      let achievement_bg := Image_new RGBA (860, 64) [cr; cg; cb] in
      let font_ach := truetype font_light_path 18 in
      let x : Q := 14%Q in
      let achievement_bg :=
        draw_text achievement_bg (x, 20%Q) STR_ACH_PROGRESS font_ach
          [255; 255; 255; 255] in
      let x := (x + (getlength font_ach STR_ACH_PROGRESS + 10))%Q in
      let achievement_bg :=
        draw_text achievement_bg (at_int (int_of_float x) 20)
          (achievement_counter completed total) font_ach [130; 130; 130] in
      let x := (x + (getlength font_ach (achievement_counter completed total) + 10))%Q in
      (let* progress := truediv completed total in
       let progress_bar := create_progress_bar progress achievement_color 186 16 in
       let achievement_bg :=
         paste_mask achievement_bg progress_bar (int_of_float x, 24) progress_bar in
       let x := 860 - 48 * 6 - 10 * 6 in
       let '(achievement_bg, x) :=
         foldl (λ '(achievement_bg, x) achievement,
                  let achievement_image :=
                    resize (Image_open_bytes (ach_image achievement)) (48, 48)
                      RESAMPLE_DEFAULT in
                  (paste achievement_bg achievement_image (x, 8), x + (48 + 10)))
               (achievement_bg, x) achievements in
       let achievement_bg :=
         if 6 <? completed then
           let font_plus := truetype font_regular_path 22 in
           let display_text := lit "+" ++ str_of_int (completed - 5) in
           let achievement_bg :=
             draw_rectangle achievement_bg (x, 8, x + 48, 56) (Some [34; 34; 34]) None 1 in
           draw_text achievement_bg
             ((inject_Z x + 24 - float_floor (getlength font_plus display_text / 2))%Q, 18%Q)
             display_text font_plus [255; 255; 255]
         else achievement_bg in
       Ok (paste_mask bg achievement_bg (10, 110) achievement_bg))%res
  | _, _ => Ok (crop bg (0, 0, width bg, 110))
  end.

(** ** draw.py: colour analysis and the mosaic backdrop *)

(** The pixels of an array, row by row. *)
Definition bm_pixels (a : Bitmap) : list Color :=
  y ← seqZ 0 (bm_height a); x ← seqZ 0 (bm_width a); [bm_pixel a x y].

(** [image.crop(box)] on a decoded photo; Pillow fills what lies outside
    the photo with zeros. *)
Definition bm_crop (image : Bitmap) (box : Box) : Bitmap :=
  let '(x0, y0, x1, y1) := box in
  mkBitmap (x1 - x0) (y1 - y0)
    (λ x y,
       let sx := x0 + x in
       let sy := y0 + y in
       if (0 <=? sx) && (sx <? bm_width image) && (0 <=? sy) && (sy <? bm_height image)
       then bm_pixel image sx sy
       else (λ _, 0) <$> bm_pixel image 0 0).

(** [np.array(image).mean(axis=(0, 1)).astype(int)]: the channel sums
    divided by the number of pixels and truncated (channel values are not
    negative, so this is the floor).  The mean of no pixels is NaN, whose
    integer cast is not defined; the model stops there. *)
Definition get_average_color (image : Bitmap) : result Color :=
  match bm_pixels image with
  | [] => Err NanToInt
  | p :: ps =>
      let total := foldl (zip_with Z.add) p ps in
      Ok ((λ s, s / len (p :: ps)) <$> total)
  end.

Definition split_image (image : Bitmap) (rows cols : Z) : result (list Bitmap * Z * Z) :=
  let width := bm_width image in
  let height := bm_height image in
  (let* piece_width := floordiv width cols in
   let* piece_height := floordiv height rows in
   let pieces :=
     r ← seqZ 0 rows; c ← seqZ 0 cols;
     [bm_crop image (c * piece_width, r * piece_height,
                     (c + 1) * piece_width, (r + 1) * piece_height)] in
   Ok (pieces, piece_width, piece_height))%res.

Fixpoint result_foldl {A B : Type} (f : A → B → result A) (a : A) (l : list B)
    : result A :=
  match l with
  | [] => Ok a
  | x :: r => (let* a' := f a x in result_foldl f a' r)%res
  end.

Definition recolor_image (image : Bitmap) (rows cols : Z) : result Image :=
  (let* total_average_color := get_average_color image in
   let* split := split_image image rows cols in
   let '(pieces, piece_width, piece_height) := split in
   let* diameter :=
     match pieces with
     | p :: _ => Ok (Z.min (bm_width p) (bm_height p))
     | [] => Err IndexError
     end in
   let radius := diameter / 2 in
   let new_image :=
     Image_new RGB (bm_width image, bm_height image) total_average_color in
   let* new_image :=
     result_foldl
       (λ new_image '(i, piece),
          let* average_color := get_average_color piece in
          let row := i / cols in
          let col := i mod cols in
          let x := col * piece_width + piece_width / 2 in
          let y := row * piece_height + piece_height / 2 in
          let circle := Image_new RGBA (piece_width, piece_height) [0; 0; 0; 0] in
          let circle := draw_ellipse circle (0, 0, piece_width, piece_height) average_color in
          Ok (paste_mask new_image circle (x - radius, y - radius) circle))
       new_image (enumerate pieces) in
   let new_image := filter_image new_image SMOOTH in
   let new_image := filter_image new_image (GaussianBlur 50) in
   Ok new_image)%res.

(** [l[np.argmax(key of l)]]: the first element whose key is largest. *)
Definition argmax_by {A : Type} (key : A → Z) (l : list A) : option A :=
  match l with
  | [] => None
  | p :: ps => Some (foldl (λ best q, if key best <? key q then q else best) p ps)
  end.

(** [l[np.argmin(key of l)]]: the first element whose key is smallest. *)
Definition argmin_by {A : Type} (key : A → Z) (l : list A) : option A :=
  match l with
  | [] => None
  | p :: ps => Some (foldl (λ best q, if key q <? key best then q else best) p ps)
  end.

Definition hsv_hue (p : N * N * N) : Z := Z.of_N p.1.1.
Definition hsv_saturation (p : N * N * N) : Z := Z.of_N p.1.2.
Definition hsv_value (p : N * N * N) : Z := Z.of_N p.2.

(** [depth] is the number of frames the interpreter still grants; the
    self-call passes the saturation threshold only, so the hue threshold
    falls back to its default. *)
Fixpoint get_brightest_and_darkest_color (depth : nat) (image : Bitmap)
    (saturation_threshold hue_difference_threshold : Z) : result (Color * Color) :=
  match depth with
  | O => Err RecursionError
  | S depth =>
      let img_hsv := pixel_to_HSV <$> bm_pixels image in
      let vivid_pixels := filter (λ p, saturation_threshold < hsv_saturation p) img_hsv in
      if len vivid_pixels <? 10 then
        get_brightest_and_darkest_color depth image (saturation_threshold - 10) 30
      else
        match argmax_by hsv_value vivid_pixels, argmin_by hsv_value vivid_pixels with
        | Some brightest_pixel, Some darkest_pixel =>
            let hue_difference := Z.abs (hsv_hue brightest_pixel - hsv_hue darkest_pixel) in
            let darkest_pixel :=
              if hue_difference <? hue_difference_threshold then
                let possible_dark_pixels :=
                  filter (λ p, hsv_hue p ≠ hsv_hue brightest_pixel) vivid_pixels in
                match argmin_by hsv_value possible_dark_pixels with
                | Some p => p
                | None => darkest_pixel
                end
              else darkest_pixel in
            Ok (pixel_HSV_to_RGB brightest_pixel, pixel_HSV_to_RGB darkest_pixel)
        | _, _ => Err ValueError
        end
  end.

(** ** draw.py: the biography lines of draw_player_status *)

Definition description_font : Font := truetype font_light_path 22.

(** [line_width > 640] *)
Definition exceeds_640 (line_width : Q) : bool := negb (Qle_bool line_width 640).

(** The loop over [enumerate(player_description)]; [n] is
    [len(player_description)].  The result is the canvas when the loop is
    left. *)
Fixpoint description_loop (n : Z) (chars : list (Z * N)) (bg : Image)
    (line : pystr) (line_width : Q) (offset : Z) : Image :=
  match chars with
  | [] => bg
  | (idx, char) :: chars =>
      let line := line ++ [char] in
      let line_width := (line_width + getlength description_font [char])%Q in
      let '(bg, line, offset, line_width) :=
        if exceeds_640 line_width || (idx =? n - 1) || (char =? NEWLINE)%N then
          (draw_text bg (at_int 280 (132 + offset)) line description_font [255; 255; 255],
           [], offset + 25, 0%Q)
        else (bg, line, offset, line_width) in
      if 25 * 4 <=? offset then bg
      else description_loop n chars bg line line_width offset
  end.

(** Lines 410-422 of draw_player_status, on the canvas [bg]. *)
Definition draw_description (bg : Image) (player_description : pystr) : Image :=
  description_loop (len player_description) (enumerate player_description) bg [] 0%Q 0.

(** ** draw.py: stacking images and the start-of-game card *)

(** The images are pasted below one another on a black canvas as wide as
    the widest and as high as all of them together.
    The unpacking of the sizes into [widths] and [heights] needs an
    image: without one there is nothing to unpack. *)
Definition vertically_concatenate_images (images : list Image) : result Image :=
  match images with
  | [] => Err ValueError
  | first :: rest =>
      let widths := width <$> images in
      let heights := height <$> images in
      let total_width := foldl Z.max (width first) (width <$> rest) in
      let total_height := foldl Z.add 0 heights in
      let new_image := Image_new RGB (total_width, total_height) [0; 0; 0] in
      Ok (foldl (λ '(new_image, y_offset) image,
                   (paste new_image image (0, y_offset), y_offset + height image))
                (new_image, 0) images).1
  end.

Definition STR_PLAYING : pystr := [0x6B63; 0x5728; 0x73A9]%N.     (* "正在玩" *)

Definition draw_start_gaming (avatar : Image) (friend_name game_name : pystr)
    (nickname : option pystr) : Image :=
  let canvas := Image_open gaming_path in
  let canvas := paste canvas (resize avatar (66, 66) BICUBIC) (15, 20) in
  let canvas :=
    draw_text canvas (at_int 104 14) (display_name_of friend_name nickname)
      (truetype font_regular_path 19) (hex_to_rgb "e3ffc2") in
  let canvas :=
    draw_text canvas (at_int 103 42) STR_PLAYING (truetype font_regular_path 17)
      (hex_to_rgb "969696") in
  draw_text canvas (at_int 104 66) game_name (truetype font_bold_path 14)
    (hex_to_rgb "91c257").

(** ** draw.py: the profile card *)

(** [randint k low high] stands for [np.random.randint(low, high)]: the
    [k]-th number that the generator hands out, asked for an integer from
    [low] up to, not including, [high].  Every channel gets an offset of
    its own; [k] counts the numbers drawn so far.  randint refuses an empty
    range. *)
Fixpoint random_color_offset (randint : nat → Z → Z → Z) (k : nat) (color : Color)
    (offset : Z) : result (Color * nat) :=
  match color with
  | [] => Ok ([], k)
  | c :: color =>
      if offset + 1 <=? - offset then Err ValueError
      else
        let c' := Z.min 255 (Z.max 0 (c + randint k (- offset) (offset + 1))) in
        (let* rest := random_color_offset randint (S k) color offset in
         Ok (c' :: rest.1, rest.2))%res
  end.

(** [(color[0], color[1], color[2], alpha)] *)
Definition with_alpha (color : Color) (alpha : Z) : result Color :=
  match color with
  | r :: g :: b :: _ => Ok [r; g; b; alpha]
  | _ => Err IndexError
  end.

(** models.DrawPlayerStatusData: one recently played game. *)
Record DrawPlayerStatusData : Type := mkDrawPlayerStatusData {
  game_name : pystr;
  game_time : pystr;
  last_play_time : pystr;
  game_header : list Byte.byte;
  achievements : list Achievements;
  completed_achievement_number : option Z;
  total_achievement_number : option Z
}.

Definition STR_FRIEND_CODE : pystr :=
  [0x597D; 0x53CB; 0x4EE3; 0x7801; 0x3A; 0x20]%N.                 (* "好友代码: " *)
Definition STR_RECENT : pystr := [0x6700; 0x65B0; 0x52A8; 0x6001]%N.  (* "最新动态" *)

(** [draw_game_info(Image.open(BytesIO(game["game_header"])), ...)] *)
Definition draw_game (achievement_color : Z * Z * Z) (game : DrawPlayerStatusData)
    : result Image :=
  draw_game_info (Image_open_bytes (game_header game)) (game_name game) (game_time game)
    (last_play_time game) (achievements game) (completed_achievement_number game)
    (total_achievement_number game) achievement_color.

(** [tuple(map(int, hsv_to_rgb(h, s * 0.85, v * 0.6)))] of the first three
    channels of [color].  By the time it is called the colour has four
    channels, so the last case is never reached. *)
Definition achievement_color_of (color : Color) : result (Z * Z * Z) :=
  match color with
  | r :: g :: b :: _ =>
      let '(h, s, v) := rgb_to_hsv (inject_Z r) (inject_Z g) (inject_Z b) in
      let c := hsv_to_rgb h (s * (85 # 100))%Q (v * (6 # 10))%Q in
      Ok (int_of_float c.1.1, int_of_float c.1.2, int_of_float c.2)
  | _ => Err IndexError
  end.

(** The loop that pastes the title blocks below one another from
    y = 350 on. *)
Definition paste_games (bg : Image) (game_images : list Image) : Image :=
  (foldl (λ '(bg, y) game_image,
            (paste_mask bg game_image ((920 - width game_image) / 2 + 20, y)
               (convert game_image RGBA),
             y + (height game_image + 26)))
         (bg, 350) game_images).1.

(** [depth] is the number of frames left for
    get_brightest_and_darkest_color, [randint] the random number generator
    and [k] the count of random numbers drawn before the call.  [player_bg] and [player_avatar] are the opened
    pictures; the card is pasted onto [player_bg], which is returned. *)
Definition draw_player_status (depth : nat) (randint : nat → Z → Z → Z) (k : nat)
    (player_bg : Bitmap) (player_avatar : Image)
    (player_name player_id player_description : pystr)
    (player_last_two_weeks_time : option pystr)
    (player_games : list DrawPlayerStatusData) : result Image :=
  let left := (bm_width player_bg - 960) / 2 in
  (let* bg :=
     recolor_image
       (bm_crop player_bg (left, 0, (bm_width player_bg + 960) / 2, bm_height player_bg))
       10 10 in
   let bg := enhance_brightness bg (7 # 10) in
   let player_avatar := resize player_avatar (200, 200) RESAMPLE_DEFAULT in
   let bg := paste bg player_avatar (40, 40) in
   let bg := draw_rectangle bg (40, 40, 240, 240) None (Some [83; 164; 196]) 3 in
   let bg :=
     draw_text bg (at_int 280 48) player_name (truetype font_light_path 40)
       [255; 255; 255] in
   let bg :=
     draw_text bg (at_int 280 100) (STR_FRIEND_CODE ++ player_id)
       (truetype font_regular_path 19) [191; 191; 191] in
   let bg := draw_description bg player_description in
   let* colors := get_brightest_and_darkest_color depth player_bg 100 30 in
   let brightest_color := (λ x, if 30 <=? x then x - 30 else 0) <$> colors.1 in
   let darkest_color := (λ x, if x <=? 255 - 30 then x + 30 else 255) <$> colors.2 in
   let* brightest_color := with_alpha brightest_color 128 in
   let* brightest := random_color_offset randint k brightest_color 20 in
   let* darkest_color := with_alpha darkest_color 128 in
   let* darkest := random_color_offset randint brightest.2 darkest_color 20 in
   let brightest_color := brightest.1 in
   let darkest_color := darkest.1 in
   let* achievement_color := achievement_color_of brightest_color in
   let* game_images := result_mapM (draw_game achievement_color) player_games in
   let bg_game :=
     Image_new RGBA
       (920, 106 + foldl Z.add 0 ((λ game_image, height game_image + 26) <$> game_images))
       [0; 0; 0; 0] in
   let bg_game :=
     draw_rectangle bg_game (0, 0, 920, height bg_game) (Some [0; 0; 0; 120]) None 1 in
   let bg := paste_mask bg bg_game (20, 272) bg_game in
   let* gradient := create_gradient_image (920, 50) brightest_color darkest_color in
   let bg := paste_mask bg gradient (20, 272) gradient in
   let bg :=
     draw_text bg (at_int 34 279) STR_RECENT (truetype font_light_path 26)
       [255; 255; 255] in
   let bg :=
     match player_last_two_weeks_time with
     | Some t =>
         let width := getlength (truetype font_light_path 26) t in
         draw_text bg ((960 - width - 34)%Q, 279%Q) t (truetype font_light_path 26)
           [255; 255; 255]
     | None => bg
     end in
   let bg := paste_games bg game_images in
   Ok (paste_mask (Image_fromarray player_bg) bg (left, 0) (convert bg RGBA)))%res.

(** ** What the properties speak of *)

(** The parameters of the section are functions; [tauto] would take them
    for implications. *)
Local Ltac prop_tauto :=
  try clear fromarray_empty; try clear pixel_HSV_to_RGB; try clear pixel_to_HSV;
  try clear hsv_to_rgb; try clear rgb_to_hsv; try clear bytes_size;
  try clear open_size; try clear getlength; tauto.

(** The persona states that Steam defines, Offline (0) to LookingToPlay (6). *)
Definition valid_state (d : Friend) : Prop := 0 ≤ personastate d ≤ 6.

(** Where the rows of a section are pasted. *)
Definition row_boxes (rows : list Image) : list (Image * (Z * Z)) :=
  (λ '(i, r), (r, (0, 64 + (MEMBER_AVATAR_SIZE + 16) * i))) <$> enumerate rows.

(** [im] is the image of section [k] listing [members] from top to bottom. *)
Definition section_image (k : SectionKind) (members : list Friend) (im : Image) : Prop :=
  ∃ rows,
    Forall2 (λ d r, draw_friend d = Ok r) members rows
    ∧ size im = (WIDTH, 64 + (MEMBER_AVATAR_SIZE + 16) * len members + 16)
    ∧ section_kind im = Some k
    ∧ pasted im = row_boxes rows.

(** The top edge of every stacked section, the first one at [y]. *)
Fixpoint section_tops (y : Z) (sections : list Image) : list Z :=
  match sections with
  | [] => []
  | im :: r => y :: section_tops (y + height im) r
  end.

(** The separator under every stacked section but the last. *)
Fixpoint separators_below (y : Z) (sections : list Image) : list Box :=
  match sections with
  | [] => []
  | im :: r =>
      match r with
      | [] => []
      | _ :: _ => (0, y + height im - 1, WIDTH, y + height im)
                  :: separators_below (y + height im) r
      end
  end.

(** The heights of the sections, added up. *)
Definition total_height (sections : list Image) : Z := foldr Z.add 0 (height <$> sections).

(** The sections that have a member, from top to bottom. *)
Definition present_sections (data : list Friend) : list SectionKind :=
  filter (λ k, section_members k data ≠ []) [Gaming; Online; Offline].

(** What a call leaves of the caller's store [h]: the list object [data]
    holds [s], every other object of [h] is as it was. *)
Definition frame (data : loc) (s : list Friend) (h h' : heap) : Prop :=
  h' !! data = Some s ∧ ∀ l, l ∈ dom h → l ≠ data → h' !! l = h !! l.

(** The comprehension that selects the members of a section. *)
Definition in_section (k : SectionKind) (d : Friend) : Prop :=
  match k with
  | Gaming => in_gaming_data d
  | Online => in_online_data d
  | Offline => in_offline_data d
  end.

Global Instance in_section_dec k d : Decision (in_section k d).
Proof. destruct k; apply _. Defined.

(** The label that simplize_steam_player_data gives a state when the
    player runs no game. *)
Definition generic_label (personastate : Z) : pystr := simplize_status personastate None.

(** The image a canvas started from, under what was pasted, drawn and
    filtered on it. *)
Fixpoint canvas_of (im : Image) : Image :=
  match im with
  | paste im _ _ | paste_mask im _ _ _
  | draw_text im _ _ _ _
  | draw_rectangle im _ _ _ _
  | draw_rounded_rectangle im _ _ _ _ _
  | draw_ellipse im _ _
  | filter_image im _ => canvas_of im
  | _ => im
  end.

(** The box of tile [i] in a grid of tiles [pw] x [ph], [cols] to a row. *)
Definition tile_box (pw ph cols i : Z) : Box :=
  ((i mod cols) * pw, (i / cols) * ph, (i mod cols + 1) * pw, (i / cols + 1) * ph).

(** Where recolor_image pastes the shape of tile [i]. *)
Definition blob_corner (pw ph cols i : Z) : Z * Z :=
  ((i mod cols) * pw + pw / 2 - Z.min pw ph / 2,
   (i / cols) * ph + ph / 2 - Z.min pw ph / 2).

(** The shape recolor_image draws for a tile of average colour [c]. *)
Definition blob (pw ph : Z) (c : Color) : Image :=
  draw_ellipse (Image_new RGBA (pw, ph) [0; 0; 0; 0]) (0, 0, pw, ph) c.

(** The width the loop has accumulated for [line]. *)
Definition line_width_of (line : pystr) : Q :=
  foldl (λ w c, (w + getlength description_font [c])%Q) 0%Q line.

(** A line ends where its width exceeds 640 or at a newline. *)
Definition line_ends (line : pystr) : Prop :=
  (640 < line_width_of line)%Q ∨ last line = Some NEWLINE.

(** [l] stops at the first place where a line ends. *)
Definition stops_at_first_end (l : pystr) : Prop :=
  l ≠ [] ∧ ∀ p, p ≠ [] → p `prefix_of` l → p ≠ l → ¬ line_ends p.

(** The texts drawn on a canvas with their place, font and colour, first
    drawn first. *)
Fixpoint drawn_texts (im : Image) : list (Q * Q * pystr * Font * Color) :=
  match im with
  | draw_text im xy s font fill => drawn_texts im ++ [(xy, s, font, fill)]
  | paste im _ _ | paste_mask im _ _ _
  | convert im _
  | enhance_brightness im _
  | draw_rectangle im _ _ _ _
  | draw_rounded_rectangle im _ _ _ _ _
  | draw_ellipse im _ _
  | filter_image im _ => drawn_texts im
  | _ => []
  end.

(** A text with its colour. *)
Definition text_fill (t : Q * Q * pystr * Font * Color) : pystr * Color := (t.1.1.2, t.2).

(** The colours of a member who is in a game: name and status line. *)
Definition in_game_colors : Color * Color := (hex_to_rgb "e3ffc2", hex_to_rgb "8ebe56").

(** The rows that draw_friend_status draws in the in-game colours. *)
Definition in_game_row (personastate : Z) (status : pystr) : Prop :=
  (personastate ∈ [1; 2; 4] ∧ status ≠ STR_ONLINE) ∨ (personastate = 3 ∧ status ≠ STR_AWAY).

Global Instance in_game_row_dec p st : Decision (in_game_row p st).
Proof. unfold in_game_row. apply _. Defined.

(** The colours of a row that is not in a game, by persona state. *)
Definition idle_colors (personastate : Z) : Color * Color :=
  if personastate =? 0 then (hex_to_rgb "969697", hex_to_rgb "656565")
  else if personastate =? 3 then (hex_to_rgb "45778e", hex_to_rgb "365969")
  else (hex_to_rgb "6dcef5", hex_to_rgb "4c91ac").

(** The colours of a row: name and status line. *)
Definition row_colors (personastate : Z) (status : pystr) : Color * Color :=
  if decide (in_game_row personastate status) then in_game_colors
  else idle_colors personastate.

(** Where the status icon of a row stands: right of the name. *)
Definition icon_x (display_name : pystr) (gap : Z) : Z :=
  22 + MEMBER_AVATAR_SIZE + 16
  + int_of_float (getlength (truetype font_bold_path 20) display_name) + gap.

(** The status icon of a row: Busy (2) and Snooze (4) have one. *)
Definition status_icon (personastate : Z) (status display_name : pystr)
    : list (Image * (Z * Z)) :=
  if personastate =? 2 then [(Image_open busy_path, (icon_x display_name 4, 18))]
  else if personastate =? 4 then
    [(Image_open (if bool_decide (status = STR_ONLINE) then zzz_online_path
                  else zzz_gaming_path), (icon_x display_name 8, 18))]
  else [].

Global Instance valid_state_dec d : Decision (valid_state d).
Proof. unfold valid_state. apply _. Defined.

(** Where draw_game_info pastes the icons of the achievements. *)
Definition achievement_icons (achievements : list Achievements) : list (Image * (Z * Z)) :=
  (λ '(i, a), (resize (Image_open_bytes (ach_image a)) (48, 48) RESAMPLE_DEFAULT,
               (512 + 58 * i, 8))) <$> enumerate achievements.

(** The pixels, in mode "HSV", whose saturation exceeds a threshold. *)
Definition vivid_at (image : Bitmap) (threshold : Z) : list (N * N * N) :=
  filter (λ p, threshold < hsv_saturation p) (pixel_to_HSV <$> bm_pixels image).

(** The hue threshold in force after [n] retries: the self-call of
    get_brightest_and_darkest_color does not hand it on, so from the first
    retry on it is the default. *)
Definition hue_threshold_after (n : nat) (hue_difference_threshold : Z) : Z :=
  match n with
  | O => hue_difference_threshold
  | S _ => 30
  end.

(** The top edge of every title block of the card, the first one at [y],
    26 pixels between two blocks. *)
Fixpoint block_tops (y : Z) (blocks : list Image) : list Z :=
  match blocks with
  | [] => []
  | b :: r => y :: block_tops (y + (height b + 26)) r
  end.

(** The height of the title block of a game: with the achievement strip
    when both counts are there, without it otherwise. *)
Definition block_height (g : DrawPlayerStatusData) : Z :=
  match completed_achievement_number g, total_achievement_number g with
  | Some _, Some _ => 184
  | _, _ => 110
  end.

(** The games whose counts do not make draw_game_info divide by 0. *)
Definition drawable (g : DrawPlayerStatusData) : Prop :=
  completed_achievement_number g = None ∨ total_achievement_number g ≠ Some 0.

(** The part of the background that the card covers. *)
Definition card_box (player_bg : Bitmap) : Box :=
  ((bm_width player_bg - 960) / 2, 0, (bm_width player_bg + 960) / 2, bm_height player_bg).

(** The card before the title blocks are pasted on it. *)
Definition card_head (backdrop player_avatar : Image)
    (player_name player_id player_description : pystr)
    (player_last_two_weeks_time : option pystr) (blocks : list Image) (gradient : Image)
    : Image :=
  let bg := enhance_brightness backdrop (7 # 10) in
  let bg := paste bg (resize player_avatar (200, 200) RESAMPLE_DEFAULT) (40, 40) in
  let bg := draw_rectangle bg (40, 40, 240, 240) None (Some [83; 164; 196]) 3 in
  let bg :=
    draw_text bg (at_int 280 48) player_name (truetype font_light_path 40)
      [255; 255; 255] in
  let bg :=
    draw_text bg (at_int 280 100) (STR_FRIEND_CODE ++ player_id)
      (truetype font_regular_path 19) [191; 191; 191] in
  let bg := draw_description bg player_description in
  let bg_game :=
    Image_new RGBA
      (920, 106 + foldl Z.add 0 ((λ game_image, height game_image + 26) <$> blocks))
      [0; 0; 0; 0] in
  let bg_game :=
    draw_rectangle bg_game (0, 0, 920, height bg_game) (Some [0; 0; 0; 120]) None 1 in
  let bg := paste_mask bg bg_game (20, 272) bg_game in
  let bg := paste_mask bg gradient (20, 272) gradient in
  let bg :=
    draw_text bg (at_int 34 279) STR_RECENT (truetype font_light_path 26)
      [255; 255; 255] in
  match player_last_two_weeks_time with
  | Some t =>
      draw_text bg ((960 - getlength (truetype font_light_path 26) t - 34)%Q, 279%Q) t
        (truetype font_light_path 26) [255; 255; 255]
  | None => bg
  end.

(** The gradient under the heading of the card. *)
Definition card_gradient (brightest_color darkest_color : Color) : Image :=
  Image_fromarray
    (mkBitmap 920 50
       (λ x _, linspace_color (clamp_channel <$> brightest_color)
                 (clamp_channel <$> darkest_color) 920 x)).

(** Two games for the sample card: 3 of 4 achievements, and 3 of 0. *)
Definition sample_game : DrawPlayerStatusData :=
  mkDrawPlayerStatusData (lit "Portal") (lit "10.2") (lit "today") [] [] (Some 3) (Some 4).
Definition broken_game : DrawPlayerStatusData :=
  mkDrawPlayerStatusData (lit "Portal 2") (lit "0.1") (lit "today") [] [] (Some 3) (Some 0).

(** The sections of a roster image: what is pasted on it after the header
    and the search bar, from top to bottom. *)
Definition roster_sections (im : Image) : list Image := (drop 2 (pasted im)).*1.

(** The sections that have a member, in the order they are drawn. *)
Definition sections_with (members : SectionKind → list Friend) : list SectionKind :=
  filter (λ k, members k ≠ []) [Gaming; Online; Offline].

(** The roster image [im] lists [members]: its sections are those that
    have a member, and the section of kind [k] shows the rows of
    [members k] from top to bottom. *)
Definition lists_members (im : Image) (members : SectionKind → list Friend) : Prop :=
  Forall2 (λ k sec, section_image k (members k) sec) (sections_with members)
    (roster_sections im).


(** * Properties *)

(** ** list.sort *)

Section list_sort_facts.
Context {A K : Type} (key : A → K) (leb : K → K → bool).

Local Abbreviation key_le := (key_le key leb).

Lemma insert_by_Permutation x l : insert_by key leb x l ≡ₚ x :: l.
Proof.
  induction l as [|y r IH]; simpl; [done|].
  destruct (leb (key x) (key y)); [done|].
  rewrite IH. apply Permutation_swap.
Qed.

Lemma list_sort_Permutation l : list_sort key leb l ≡ₚ l.
Proof.
  induction l as [|x r IH]; simpl; [done|].
  rewrite insert_by_Permutation. by f_equiv.
Qed.

Lemma list_sort_length l : length (list_sort key leb l) = length l.
Proof. apply Permutation_length, list_sort_Permutation. Qed.

Lemma list_sort_nil_iff l : list_sort key leb l = [] ↔ l = [].
Proof.
  split; intros E; [|by subst].
  apply length_zero_iff_nil. rewrite <- (list_sort_length l), E. done.
Qed.

Lemma list_sort_elem_of x l : x ∈ list_sort key leb l ↔ x ∈ l.
Proof. by rewrite list_sort_Permutation. Qed.

Lemma list_sort_Forall (P : A → Prop) l : Forall P l → Forall P (list_sort key leb l).
Proof. by rewrite list_sort_Permutation. Qed.

(** Stability: the elements of one key keep their order. *)
Lemma insert_by_filter_key `{!EqDecision K} (k : K) x l :
  (∀ a, leb a a = true) →
  filter (λ y, key y = k) (insert_by key leb x l) = filter (λ y, key y = k) (x :: l).
Proof.
  intros Hrefl. induction l as [|y r IH]; [done|]. cbn [insert_by].
  destruct (leb (key x) (key y)) eqn:E; [done|].
  rewrite (filter_cons _ y), IH, !(filter_cons _ x), (filter_cons _ y).
  destruct (decide (key x = k)) as [Hx|Hx], (decide (key y = k)) as [Hy|Hy]; try done.
  rewrite Hx, Hy, Hrefl in E. done.
Qed.

Lemma list_sort_stable `{!EqDecision K} (k : K) l :
  (∀ a, leb a a = true) →
  filter (λ y, key y = k) (list_sort key leb l) = filter (λ y, key y = k) l.
Proof.
  intros Hrefl. induction l as [|x r IH]; [done|]. cbn [list_sort foldr].
  rewrite insert_by_filter_key by done. fold (list_sort key leb r).
  by rewrite !(filter_cons _ x), IH.
Qed.

Hypothesis leb_total : ∀ a b, leb a b = false → leb b a = true.

Lemma insert_by_HdRel a x l :
  key_le a x → HdRel key_le a l → HdRel key_le a (insert_by key leb x l).
Proof.
  intros Hax Hal. destruct l as [|y r]; simpl; [by constructor|].
  destruct (leb (key x) (key y)); constructor; [done|].
  by inversion Hal.
Qed.

Lemma insert_by_Sorted x l : Sorted key_le l → Sorted key_le (insert_by key leb x l).
Proof using leb_total.
  induction 1 as [|y r Hr IH Hy]; simpl; [by repeat constructor|].
  destruct (leb (key x) (key y)) eqn:E.
  - constructor; [by constructor|]. by constructor.
  - constructor; [done|]. apply insert_by_HdRel; [|done].
    by apply leb_total.
Qed.

Lemma list_sort_Sorted l : Sorted key_le (list_sort key leb l).
Proof using leb_total.
  induction l as [|x r IH]; simpl; [constructor|]. by apply insert_by_Sorted.
Qed.

Hypothesis leb_trans : ∀ a b c, leb a b = true → leb b c = true → leb a c = true.

Lemma list_sort_StronglySorted l : StronglySorted key_le (list_sort key leb l).
Proof using leb_total leb_trans.
  apply Sorted_StronglySorted; [|apply list_sort_Sorted].
  intros x y z. unfold key_le. apply leb_trans.
Qed.
End list_sort_facts.

Lemma Z_leb_total a b : (a <=? b) = false → (b <=? a) = true.
Proof. rewrite Z.leb_gt, Z.leb_le. lia. Qed.

Lemma Z_leb_trans a b c : (a <=? b) = true → (b <=? c) = true → (a <=? c) = true.
Proof. rewrite !Z.leb_le. lia. Qed.

Lemma str_leb_total s t : str_leb s t = false → str_leb t s = true.
Proof.
  revert t. induction s as [|a s IH]; intros [|b t]; simpl; try done.
  destruct (N.ltb_spec a b), (N.ltb_spec b a), (N.eqb_spec a b), (N.eqb_spec b a);
    try done; try lia. apply IH.
Qed.

Lemma str_leb_trans s t u : str_leb s t = true → str_leb t u = true → str_leb s u = true.
Proof.
  revert t u. induction s as [|a s IH]; intros [|b t] [|c u]; simpl; try done.
  destruct (N.ltb_spec a b), (N.ltb_spec b c), (N.ltb_spec a c),
    (N.eqb_spec a b), (N.eqb_spec b c), (N.eqb_spec a c); try done; try lia.
  apply IH.
Qed.


(** ** Rows of the roster *)

Lemma personastate_colors_lookup p : 0 ≤ p ≤ 6 → is_Some (personastate_colors !! p).
Proof.
  intros Hp.
  assert (p = 0 ∨ p = 1 ∨ p = 2 ∨ p = 3 ∨ p = 4 ∨ p = 5 ∨ p = 6) as Hc by lia.
  destruct_or!; subst p; vm_compute; eauto.
Qed.

Lemma draw_friend_status_row_ok canvas friend_avatar display_name st p :
  0 ≤ p ≤ 6 →
  ∃ im, draw_friend_status_row canvas friend_avatar display_name st p = Ok im.
Proof.
  intros Hp. unfold draw_friend_status_row.
  destruct (bool_decide (st ≠ STR_ONLINE) && (p =? 1)); [by eexists|].
  destruct (bool_decide (st ≠ STR_AWAY) && (p =? 3)); [by eexists|].
  destruct (personastate_colors_lookup p Hp) as [c ->]. by eexists.
Qed.

Lemma draw_friend_ok d : valid_state d → ∃ im, draw_friend d = Ok im.
Proof.
  intros Hd. unfold draw_friend, draw_friend_status, draw_friend_status_plain.
  destruct (personastate d =? 2).
  { edestruct draw_friend_status_row_ok as [im ->]; [|by eexists]. lia. }
  destruct (personastate d =? 4).
  { edestruct draw_friend_status_row_ok as [im ->]; [|by eexists]. lia. }
  by apply draw_friend_status_row_ok.
Qed.

Lemma result_mapM_ok {A B : Type} (f : A → result B) (l : list A) :
  Forall (λ x, ∃ y, f x = Ok y) l →
  ∃ ys, result_mapM f l = Ok ys ∧ Forall2 (λ x y, f x = Ok y) l ys.
Proof.
  induction 1 as [|x r [y Hy] _ (ys & Hys & IH)]; simpl.
  - exists []. by split.
  - exists (y :: ys). rewrite Hy, Hys. split; [done|]. by constructor.
Qed.

(** The members of every section have a state that the row renderer knows. *)
Lemma in_gaming_data_valid d : in_gaming_data d → valid_state d.
Proof. unfold in_gaming_data, valid_state. lia. Qed.

Lemma in_online_data_valid d : in_online_data d → valid_state d.
Proof.
  unfold in_online_data, valid_state. rewrite !elem_of_cons, elem_of_nil. lia.
Qed.

Lemma in_offline_data_valid d : in_offline_data d → valid_state d.
Proof. unfold in_offline_data, valid_state. lia. Qed.


(** ** Sections of the roster *)

Lemma paste_rows_from canvas rows i :
  let im := foldl (λ canvas '(i, status_image),
                     paste canvas status_image (0, 64 + (MEMBER_AVATAR_SIZE + 16) * i))
                  canvas (enumerate_from i rows) in
  size im = size canvas ∧ texts im = texts canvas
  ∧ pasted im = pasted canvas ++
      ((λ '(i, r), (r, (0, 64 + (MEMBER_AVATAR_SIZE + 16) * i))) <$> enumerate_from i rows).
Proof.
  revert canvas i. induction rows as [|r rows IH]; intros canvas i; simpl.
  - by rewrite app_nil_r.
  - destruct (IH (paste canvas r (0, 64 + (MEMBER_AVATAR_SIZE + 16) * i)) (i + 1))
      as (Hs & Ht & Hp).
    simpl in *. rewrite Hs, Ht, Hp. by rewrite <- app_assoc.
Qed.

Lemma paste_rows_spec canvas rows :
  size (paste_rows canvas rows) = size canvas
  ∧ texts (paste_rows canvas rows) = texts canvas
  ∧ pasted (paste_rows canvas rows) = pasted canvas ++ row_boxes rows.
Proof. apply paste_rows_from. Qed.

Lemma rows_of_members members :
  Forall valid_state members →
  ∃ rows, result_mapM draw_friend members = Ok rows
          ∧ Forall2 (λ d r, draw_friend d = Ok r) members rows.
Proof.
  intros Hv. apply result_mapM_ok. eapply Forall_impl; [done|].
  intros d. apply draw_friend_ok.
Qed.

Lemma draw_gaming_friends_status_run l (h : heap) xs :
  h !! l = Some xs → Forall valid_state xs →
  ∃ im, draw_gaming_friends_status l h = Ok (im, <[l := list_sort status str_leb xs]> h)
        ∧ section_image Gaming (list_sort status str_leb xs) im.
Proof.
  intros Hl Hv.
  destruct (rows_of_members (list_sort status str_leb xs)) as (rows & Hrows & Hrel).
  { by apply list_sort_Forall. }
  unfold draw_gaming_friends_status, py_bind, list_sort_in_place, list_items, py_lift, py_ret.
  rewrite Hl, lookup_insert_eq, Hrows.
  eexists. split; [done|]. exists rows.
  match goal with |- context [paste_rows ?c _] =>
    destruct (paste_rows_spec c rows) as (Hs & Ht & Hp) end.
  split; [done|]. split; [by rewrite Hs|]. split; [|by rewrite Hp].
  unfold section_kind. by rewrite Ht.
Qed.

Lemma draw_online_friends_status_run l (h : heap) xs :
  h !! l = Some xs → Forall valid_state xs →
  ∃ im, draw_online_friends_status l h = Ok (im, h) ∧ section_image Online xs im.
Proof.
  intros Hl Hv.
  destruct (rows_of_members xs) as (rows & Hrows & Hrel); [done|].
  unfold draw_online_friends_status, py_bind, list_items, py_lift, py_ret.
  rewrite Hl, Hrows.
  eexists. split; [done|]. exists rows.
  match goal with |- context [paste_rows ?c _] =>
    destruct (paste_rows_spec c rows) as (Hs & Ht & Hp) end.
  split; [done|]. split; [by rewrite Hs|]. split; [|by rewrite Hp].
  unfold section_kind. by rewrite Ht.
Qed.

Lemma draw_offline_friends_status_run l (h : heap) xs :
  h !! l = Some xs → Forall valid_state xs →
  ∃ im, draw_offline_friends_status l h = Ok (im, h) ∧ section_image Offline xs im.
Proof.
  intros Hl Hv.
  destruct (rows_of_members xs) as (rows & Hrows & Hrel); [done|].
  unfold draw_offline_friends_status, py_bind, list_items, py_lift, py_ret.
  rewrite Hl, Hrows.
  eexists. split; [done|]. exists rows.
  match goal with |- context [paste_rows ?c _] =>
    destruct (paste_rows_spec c rows) as (Hs & Ht & Hp) end.
  split; [done|]. split; [by rewrite Hs|]. split; [|by rewrite Hp].
  unfold section_kind. by rewrite Ht.
Qed.


(** ** The roster canvas *)

Lemma stack_sections_from n rest i canvas y :
  i + len rest = n →
  let res :=
    foldl (λ '(canvas, y) '(i, status_image),
             let canvas := paste canvas status_image (0, y) in
             let y := y + height status_image in
             if bool_decide (i ≠ n - 1) then
               (draw_rectangle canvas (0, y - 1, WIDTH, y)
                  (Some (hex_to_rgb "333439")) None 1, y)
             else (canvas, y))
          (canvas, y) (enumerate_from i rest) in
  size res.1 = size canvas
  ∧ pasted res.1 = pasted canvas ++ zip rest ((λ t, (0, t)) <$> section_tops y rest)
  ∧ rectangles res.1 = rectangles canvas ++ separators_below y rest.
Proof.
  revert i canvas y. induction rest as [|im rest IH]; intros i canvas y Hn; simpl.
  - by rewrite !app_nil_r.
  - unfold len in Hn. simpl in Hn.
    case_bool_decide as Hi.
    + edestruct (IH (i + 1)) as (Hs & Hp & Hr); [unfold len; lia|].
      simpl in *. rewrite Hs, Hp, Hr. simpl.
      destruct rest as [|im' rest]; [simpl in Hn; lia|].
      by rewrite <- !app_assoc.
    + destruct rest as [|im' rest]; [|simpl in Hn; lia].
      simpl. by rewrite app_nil_r.
Qed.

Lemma stack_sections_spec sections canvas y :
  let im := (stack_sections sections canvas y).1 in
  size im = size canvas
  ∧ pasted im = pasted canvas ++ zip sections ((λ t, (0, t)) <$> section_tops y sections)
  ∧ rectangles im = rectangles canvas ++ separators_below y sections.
Proof. apply stack_sections_from. lia. Qed.

Lemma separators_below_length y sections :
  length (separators_below y sections) = pred (length sections).
Proof.
  revert y. induction sections as [|im r IH]; intros y; [done|].
  destruct r as [|im' r]; [done|].
  specialize (IH (y + height im)). simpl in *. by rewrite IH.
Qed.

Lemma section_tops_length y sections : length (section_tops y sections) = length sections.
Proof.
  revert y. induction sections as [|im r IH]; intros y; simpl; [done|]. by rewrite IH.
Qed.

(** ** The store *)

Lemma py_bind_run {A B : Type} (m : Py A) (k : A → Py B) (h h' : heap) a :
  m h = Ok (a, h') → py_bind m k h = k a h'.
Proof. unfold py_bind. by intros ->. Qed.

Lemma list_sort_in_place_run {K : Type} (key : Friend → K) leb l (h : heap) xs :
  h !! l = Some xs →
  list_sort_in_place key leb l h = Ok (tt, <[l := list_sort key leb xs]> h).
Proof. unfold list_sort_in_place. by intros ->. Qed.

Lemma list_items_run l (h : heap) xs : h !! l = Some xs → list_items l h = Ok (xs, h).
Proof. unfold list_items. by intros ->. Qed.

Lemma frame_insert_new data s (h h' : heap) l v :
  frame data s h h' → l ∉ dom h' → frame data s h (<[l := v]> h').
Proof.
  intros [Hd Ho] Hl.
  assert (l ≠ data) as Hne.
  { intros ->. apply Hl, elem_of_dom. by eexists. }
  split; [by rewrite lookup_insert_ne|].
  intros l0 Hl0 Hl0d. destruct (decide (l = l0)) as [->|Hll].
  - exfalso. apply Hl, elem_of_dom. rewrite (Ho _ Hl0 Hl0d). by apply elem_of_dom.
  - rewrite lookup_insert_ne; [|done]. by apply Ho.
Qed.

Lemma frame_fresh data s (h h' : heap) v :
  frame data s h h' → frame data s h (<[fresh (dom h') := v]> h').
Proof. intros Hf. apply frame_insert_new; [done|]. apply is_fresh. Qed.

Lemma frame_fresh_again data s (h h' : heap) v w :
  frame data s h h' →
  frame data s h (<[fresh (dom h') := w]> (<[fresh (dom h') := v]> h')).
Proof. intros Hf. rewrite insert_insert_eq. by apply frame_fresh. Qed.


Lemma total_height_snoc sections im :
  total_height (sections ++ [im]) = total_height sections + height im.
Proof.
  unfold total_height. induction sections as [|x r IH]; [simpl; lia|].
  rewrite <- app_comm_cons, !fmap_cons. simpl. rewrite IH. lia.
Qed.

Lemma filter_members_valid (P : Friend → Prop) `{!∀ d, Decision (P d)} items :
  (∀ d, P d → valid_state d) → Forall valid_state (filter P items).
Proof.
  intros HP. apply Forall_forall. intros d Hd.
  apply list_elem_of_filter in Hd as [Hd _]. by apply HP.
Qed.

(** One [if members: status_images.append(...); height += ...] step. *)
Lemma append_section_run k (render : loc → Py Image) l (members : list Friend)
    (h0 h2 : heap)
    data s (status_images : list Image) (height_ : Z) ks xs :
  members = [] ↔ section_members k xs = [] →
  frame data s h0 h2 →
  (members ≠ [] →
   ∃ im h3, render l h2 = Ok (im, h3) ∧ frame data s h0 h3
            ∧ section_image k (section_members k xs) im) →
  Forall2 (λ k im, section_image k (section_members k xs) im)
    (filter (λ k, section_members k xs ≠ []) ks) status_images →
  height_ = 170 + total_height status_images →
  ∃ status_images' height' h3,
    (if bool_decide (members ≠ []) then
       (let* im := render l in
        py_ret (status_images ++ [im], height_ + height im))%py
     else py_ret (status_images, height_)) h2 = Ok ((status_images', height'), h3)
    ∧ frame data s h0 h3
    ∧ Forall2 (λ k im, section_image k (section_members k xs) im)
        (filter (λ k, section_members k xs ≠ []) (ks ++ [k])) status_images'
    ∧ height' = 170 + total_height status_images'.
Proof.
  intros Hiff F2 Hrender Hsec Hh. rewrite filter_app, filter_cons, filter_nil.
  case_bool_decide as Hm.
  - destruct (Hrender Hm) as (im & h3 & Er & F3 & Him).
    exists (status_images ++ [im]), (height_ + height im), h3.
    rewrite (py_bind_run _ _ _ _ _ Er). split; [done|]. split; [done|].
    rewrite decide_True by (by rewrite <- Hiff).
    split; [apply Forall2_app; [done|by repeat constructor]|].
    rewrite total_height_snoc. lia.
  - exists status_images, height_, h2. split; [done|]. split; [done|].
    rewrite decide_False by (rewrite <- Hiff; by intros ?).
    by rewrite app_nil_r.
Qed.


(** What a call of draw_friends_status returns and what it leaves in the
    store. *)
Lemma draw_friends_status_run parent_avatar parent_name data (h : heap) xs :
  h !! data = Some xs →
  ∃ im h' sections,
    draw_friends_status parent_avatar parent_name data h = Ok (im, h')
    ∧ frame data (list_sort personastate Z.leb xs) h h'
    ∧ Forall2 (λ k im, section_image k (section_members k xs) im)
        (present_sections xs) sections
    ∧ size im = (WIDTH, 120 + 50 + total_height sections)
    ∧ pasted im = (draw_parent_status parent_avatar parent_name, (0, 0))
                  :: (draw_friends_search, (0, 120))
                  :: zip sections ((λ t, (0, t)) <$> section_tops 170 sections)
    ∧ rectangles im = separators_below 170 sections.
Proof.
  intros Hdata. set (s := list_sort personastate Z.leb xs).
  unfold draw_friends_status.
  erewrite py_bind_run; [|by apply list_sort_in_place_run].
  fold s. set (h1 := <[data := s]> h).
  assert (frame data s h h1) as F1.
  { split; [apply lookup_insert_eq|]. intros. by apply lookup_insert_ne. }
  cbv zeta.
  (* the gaming section *)
  erewrite py_bind_run; [|apply list_items_run, F1].
  erewrite py_bind_run; [|reflexivity].
  set (lg := fresh (dom h1)).
  erewrite py_bind_run; [|apply list_items_run, lookup_insert_eq].
  edestruct (append_section_run Gaming draw_gaming_friends_status lg
               (filter in_gaming_data s) h (<[lg := filter in_gaming_data s]> h1)
               data s [] (120 + 50) [] xs)
    as (imgs1 & hgt1 & h3 & E1 & F3 & S1 & H1).
  { unfold section_members. fold s. by rewrite list_sort_nil_iff. }
  { by apply frame_fresh. }
  { intros _.
    edestruct (draw_gaming_friends_status_run lg) as (im & Er & Him);
      [apply lookup_insert_eq|apply (filter_members_valid in_gaming_data), in_gaming_data_valid|].
    eexists _, _. split; [exact Er|]. split; [by apply frame_fresh_again|done]. }
  { constructor. }
  { done. }
  rewrite (py_bind_run _ _ _ _ _ E1).
  (* the online section *)
  erewrite py_bind_run; [|apply list_items_run, F3].
  erewrite py_bind_run; [|reflexivity].
  set (lo := fresh (dom h3)).
  erewrite py_bind_run; [|apply list_sort_in_place_run, lookup_insert_eq].
  erewrite py_bind_run; [|apply list_items_run, lookup_insert_eq].
  edestruct (append_section_run Online draw_online_friends_status lo
               (list_sort online_sort_key Z.leb (filter in_online_data s)) h
               (<[lo := list_sort online_sort_key Z.leb (filter in_online_data s)]>
                  (<[lo := filter in_online_data s]> h3))
               data s imgs1 hgt1 [Gaming] xs)
    as (imgs2 & hgt2 & h5 & E2 & F5 & S2 & H2).
  { done. }
  { by apply frame_fresh_again. }
  { intros _.
    edestruct (draw_online_friends_status_run lo) as (im & Er & Him);
      [apply lookup_insert_eq
      |apply (list_sort_Forall online_sort_key Z.leb), (filter_members_valid in_online_data), in_online_data_valid|].
    eexists _, _. split; [exact Er|]. split; [by apply frame_fresh_again|done]. }
  { done. }
  { done. }
  rewrite (py_bind_run _ _ _ _ _ E2).
  (* the offline section *)
  erewrite py_bind_run; [|apply list_items_run, F5].
  erewrite py_bind_run; [|reflexivity].
  set (lf := fresh (dom h5)).
  erewrite py_bind_run; [|apply list_items_run, lookup_insert_eq].
  edestruct (append_section_run Offline draw_offline_friends_status lf
               (filter in_offline_data s) h (<[lf := filter in_offline_data s]> h5)
               data s imgs2 hgt2 [Gaming; Online] xs)
    as (imgs3 & hgt3 & h7 & E3 & F7 & S3 & H3).
  { done. }
  { by apply frame_fresh. }
  { intros _.
    edestruct (draw_offline_friends_status_run lf) as (im & Er & Him);
      [apply lookup_insert_eq|apply (filter_members_valid in_offline_data), in_offline_data_valid|].
    eexists _, _. split; [exact Er|]. split; [by apply frame_fresh|done]. }
  { done. }
  { done. }
  rewrite (py_bind_run _ _ _ _ _ E3).
  (* the canvas *)
  unfold py_ret. eexists _, h7, imgs3. split; [done|]. split; [done|].
  split; [done|].
  match goal with |- context [stack_sections ?l ?c ?y] =>
    destruct (stack_sections_spec l c y) as (Hs & Hp & Hr) end.
  simpl in Hs, Hp, Hr. rewrite Hs, Hp, Hr. subst hgt3. done.
Qed.


(** ** Classification *)

Lemma section_members_Permutation k data :
  section_members k data ≡ₚ filter (in_section k) data.
Proof.
  unfold section_members. destruct k; simpl.
  - by rewrite !list_sort_Permutation.
  - by rewrite !list_sort_Permutation.
  - by rewrite list_sort_Permutation.
Qed.

Lemma elem_of_section_members k d data :
  d ∈ section_members k data ↔ d ∈ data ∧ in_section k d.
Proof.
  rewrite section_members_Permutation, list_elem_of_filter. prop_tauto.
Qed.

Lemma in_gaming_data_iff d :
  in_gaming_data d ↔
  personastate d ∈ [1; 3; 4] ∧ status d ≠ generic_label (personastate d).
Proof.
  unfold in_gaming_data. rewrite !elem_of_cons, elem_of_nil. split.
  - intros H. destruct H as [[E H]|[[E H]|[E H]]]; rewrite E;
      (split; [prop_tauto|exact H]).
  - intros [Hs H]. destruct Hs as [E|[E|[E|[]]]]; rewrite E in H |- *;
      [left|right; left|right; right]; (split; [done|exact H]).
Qed.

Lemma in_online_data_iff d :
  valid_state d →
  in_online_data d ↔ ¬ in_gaming_data d ∧ ¬ in_offline_data d.
Proof.
  unfold valid_state, in_online_data, in_gaming_data, in_offline_data.
  rewrite !elem_of_cons, elem_of_nil. destruct d as [sid av nm st p nk]; simpl.
  intros Hv.
  assert (p = 0 ∨ p = 1 ∨ p = 2 ∨ p = 3 ∨ p = 4 ∨ p = 5 ∨ p = 6) as Hc by lia.
  destruct (decide (st = STR_ONLINE)), (decide (st = STR_AWAY));
    destruct_or!; subst p; clear Hv;
    try clear fromarray_empty; try clear pixel_HSV_to_RGB;
    try clear pixel_to_HSV; try clear hsv_to_rgb; try clear rgb_to_hsv;
    try clear bytes_size; try clear open_size; try clear getlength;
    intuition (first [discriminate | congruence]).
Qed.

(** No record satisfies two of the three comprehensions. *)
Lemma in_section_exclusive k1 k2 d : in_section k1 d → in_section k2 d → k1 = k2.
Proof.
  destruct k1, k2; simpl; try done;
    unfold in_gaming_data, in_online_data, in_offline_data;
    rewrite ?elem_of_cons, ?elem_of_nil; intros H1 H2; exfalso;
    destruct_or?; destruct_and?; try congruence; try lia.
Qed.

Lemma in_section_total d : valid_state d → ∃ k, in_section k d.
Proof.
  intros Hv. destruct (decide (in_gaming_data d)) as [|Hg]; [by exists Gaming|].
  destruct (decide (in_offline_data d)) as [|Ho]; [by exists Offline|].
  exists Online. by apply in_online_data_iff.
Qed.

Lemma filter_three_way (l : list Friend) :
  Forall valid_state l →
  filter in_gaming_data l ++ filter in_online_data l ++ filter in_offline_data l ≡ₚ l.
Proof.
  induction 1 as [|d l Hd _ IH]; [done|].
  rewrite !filter_cons.
  destruct (in_section_total d Hd) as [[] Hk]; simpl in Hk.
  - rewrite decide_True by done.
    rewrite (decide_False (P := in_online_data d))
      by (intros H'; by pose proof (in_section_exclusive Gaming Online d Hk H')).
    rewrite (decide_False (P := in_offline_data d))
      by (intros H'; by pose proof (in_section_exclusive Gaming Offline d Hk H')).
    simpl. by rewrite IH.
  - rewrite (decide_False (P := in_gaming_data d))
      by (intros H'; by pose proof (in_section_exclusive Gaming Online d H' Hk)).
    rewrite (decide_True (P := in_online_data d)) by done.
    rewrite (decide_False (P := in_offline_data d))
      by (intros H'; by pose proof (in_section_exclusive Online Offline d Hk H')).
    simpl. etrans; [symmetry; apply Permutation_middle|]. by constructor.
  - rewrite (decide_False (P := in_gaming_data d))
      by (intros H'; by pose proof (in_section_exclusive Gaming Offline d H' Hk)).
    rewrite (decide_False (P := in_online_data d))
      by (intros H'; by pose proof (in_section_exclusive Online Offline d H' Hk)).
    rewrite (decide_True (P := in_offline_data d)) by done.
    simpl. rewrite app_assoc.
    etrans; [symmetry; apply Permutation_middle|]. rewrite <- app_assoc. by constructor.
Qed.


Lemma StronglySorted_lookup {A : Type} (R : relation A) (l : list A) (i j : nat) a b :
  StronglySorted R l → (i < j)%nat → l !! i = Some a → l !! j = Some b → R a b.
Proof.
  intros Hl. revert i j. induction Hl as [|x l Hl IH Hx]; intros i j Hij Hi Hj; [done|].
  destruct j as [|j]; [lia|]. destruct i as [|i]; simpl in *.
  - injection Hi as ->. rewrite Forall_forall in Hx. apply Hx.
    by eapply list_elem_of_lookup_2.
  - eapply (IH i j); [lia|done..].
Qed.

Lemma StronglySorted_mono {A : Type} (R1 R2 : relation A) (l : list A) :
  (∀ a b, R1 a b → R2 a b) → StronglySorted R1 l → StronglySorted R2 l.
Proof.
  intros HR. induction 1 as [|x l _ IH Hx]; constructor; [done|].
  eapply Forall_impl; [exact Hx|]. intros b. apply HR.
Qed.

Lemma Sorted_mono {A : Type} (R1 R2 : relation A) (l : list A) :
  (∀ a b, R1 a b → R2 a b) → Sorted R1 l → Sorted R2 l.
Proof.
  intros HR. induction 1 as [|x l _ IH Hx]; constructor; [done|].
  destruct Hx; constructor. by apply HR.
Qed.

Lemma present_sections_all g o f xs :
  g ∈ xs → o ∈ xs → f ∈ xs →
  in_gaming_data g → in_online_data o → in_offline_data f →
  present_sections xs = [Gaming; Online; Offline].
Proof.
  intros Hg Ho Hf Pg Po Pf. unfold present_sections.
  assert (∀ k d, d ∈ xs → in_section k d → section_members k xs ≠ []) as Hne.
  { intros k d Hd Hk E.
    assert (d ∈ section_members k xs) as Hin
      by (apply elem_of_section_members; by split).
    rewrite E in Hin. by apply elem_of_nil in Hin. }
  rewrite !filter_cons, filter_nil.
  rewrite !decide_True
    by first [by apply (Hne Gaming g) | by apply (Hne Online o) | by apply (Hne Offline f)].
  done.
Qed.

(** The image that draw_friends_status returns lists the member lists
    that the sections are drawn from. *)
Lemma draw_friends_status_lists parent_avatar parent_name data (h : heap) xs :
  h !! data = Some xs →
  ∃ im h',
    draw_friends_status parent_avatar parent_name data h = Ok (im, h')
    ∧ lists_members im (λ k, section_members k xs).
Proof.
  intros Hdata.
  destruct (draw_friends_status_run parent_avatar parent_name data h xs Hdata)
    as (im & h' & sections & Hrun & _ & Hsec & _ & Hpasted & _).
  exists im, h'. split; [done|].
  unfold lists_members, roster_sections. rewrite Hpasted. cbn [skipn]. rewrite drop_0.
  rewrite fst_zip by (by rewrite length_fmap, section_tops_length).
  exact Hsec.
Qed.

(** C2. Roster classification is a total, deterministic partition: the
    sections of the image that draw_friends_status returns list, between
    them, every record of a roster whose states lie in 0..6 exactly once.
    A record is listed under Gaming iff its state is 1, 3 or 4 and its
    status text is not the generic label of that state, under Offline iff
    its state is 0, and under Online otherwise. *)
Theorem roster_classification_partition parent_avatar parent_name data (h : heap) xs :
  h !! data = Some xs →
  Forall valid_state xs →
  ∃ im h' members,
    draw_friends_status parent_avatar parent_name data h = Ok (im, h')
    ∧ lists_members im members
    ∧ members Gaming ++ members Online ++ members Offline ≡ₚ xs
    ∧ ∀ d, d ∈ xs →
        (∃ k, d ∈ members k ∧ ∀ k', d ∈ members k' → k' = k)
        ∧ (d ∈ members Gaming ↔
           personastate d ∈ [1; 3; 4] ∧ status d ≠ generic_label (personastate d))
        ∧ (d ∈ members Offline ↔ personastate d = 0)
        ∧ (d ∈ members Online ↔
           ¬ (personastate d ∈ [1; 3; 4] ∧ status d ≠ generic_label (personastate d))
           ∧ personastate d ≠ 0).
Proof.
  intros Hdata Hv.
  destruct (draw_friends_status_lists parent_avatar parent_name data h xs Hdata)
    as (im & h' & Hrun & Hlists).
  exists im, h', (λ k, section_members k xs). split; [done|]. split; [done|].
  cbv beta. split.
  { rewrite !section_members_Permutation. exact (filter_three_way xs Hv). }
  intros d Hd. rewrite Forall_forall in Hv. specialize (Hv d Hd).
  rewrite !elem_of_section_members. simpl. split; [|split; [|split]].
  - destruct (in_section_total d Hv) as [k Hk]. exists k.
    split; [apply elem_of_section_members; by split|].
    intros k'. rewrite elem_of_section_members. intros [_ Hk'].
    by eapply in_section_exclusive.
  - rewrite in_gaming_data_iff. prop_tauto.
  - unfold in_offline_data. prop_tauto.
  - rewrite in_online_data_iff, in_gaming_data_iff by done.
    unfold in_offline_data. prop_tauto.
Qed.

(** C7. The roster image stacks the sections that have a member in the
    order Gaming, Online, Offline below the parent header and the search
    divider, draws one separator under every section but the last (n
    sections, n - 1 separators), and is as high as the header, the divider and
    the sections together; one gaming, one generic-online and one offline
    record give three sections and two separators. *)
Theorem roster_composition parent_avatar parent_name data (h : heap) xs :
  h !! data = Some xs →
  ∃ im h' sections,
    draw_friends_status parent_avatar parent_name data h = Ok (im, h')
    ∧ section_kind <$> sections = Some <$> present_sections xs
    ∧ pasted im = (draw_parent_status parent_avatar parent_name, (0, 0))
                  :: (draw_friends_search, (0, height (draw_parent_status parent_avatar parent_name)))
                  :: zip sections
                       ((λ t, (0, t)) <$>
                          section_tops (height (draw_parent_status parent_avatar parent_name)
                                        + height draw_friends_search) sections)
    ∧ rectangles im
      = separators_below (height (draw_parent_status parent_avatar parent_name)
                          + height draw_friends_search) sections
    ∧ length (rectangles im) = pred (length sections)
    ∧ height im = height (draw_parent_status parent_avatar parent_name)
                  + height draw_friends_search + total_height sections
    ∧ ∀ g o f, xs ≡ₚ [g; o; f] →
        in_gaming_data g → in_online_data o → in_offline_data f →
        section_kind <$> sections = [Some Gaming; Some Online; Some Offline]
        ∧ length (rectangles im) = 2%nat.
Proof.
  intros Hdata.
  destruct (draw_friends_status_run parent_avatar parent_name data h xs Hdata)
    as (im & h' & sections & Hrun & _ & Hsec & Hsize & Hpasted & Hrect).
  assert (section_kind <$> sections = Some <$> present_sections xs) as Hkinds.
  { clear -Hsec. induction Hsec as [|k sec ks secs (rows & _ & _ & Hk & _) _ IH];
      [done|]. rewrite !fmap_cons, IH, Hk. done. }
  assert (length (rectangles im) = pred (length sections)) as Hlen.
  { rewrite Hrect. apply separators_below_length. }
  exists im, h', sections. split; [done|]. split; [done|]. split; [done|].
  split; [done|]. split; [done|]. split.
  { unfold height at 1. by rewrite Hsize. }
  intros g o f Hxs Pg Po Pf.
  assert (present_sections xs = [Gaming; Online; Offline]) as Hall.
  { apply (present_sections_all g o f); try done; rewrite Hxs;
      repeat first [apply list_elem_of_here | apply list_elem_of_further]. }
  rewrite Hall in Hkinds. split; [done|].
  rewrite Hlen. apply (f_equal length) in Hkinds. rewrite length_fmap in Hkinds.
  by rewrite Hkinds.
Qed.


(** C8. In the image that draw_friends_status returns, the rows of the
    Online section follow the persona state in ascending order with Away
    (3) counted as 7, so that every Away member stands below every other
    member of the section; the rows of the Gaming section follow the status
    text in the order of Python strings.  Each section shows the records
    that its comprehension selects, neither more nor fewer. *)
Theorem section_ordering parent_avatar parent_name data (h : heap) xs :
  h !! data = Some xs →
  ∃ im h' members,
    draw_friends_status parent_avatar parent_name data h = Ok (im, h')
    ∧ lists_members im members
    ∧ members Online ≡ₚ filter in_online_data xs
    ∧ Sorted (λ a b, online_sort_key a ≤ online_sort_key b) (members Online)
    ∧ (∀ i j a b,
         members Online !! i = Some a →
         members Online !! j = Some b →
         personastate a = 3 → personastate b ≠ 3 → (j < i)%nat)
    ∧ members Gaming ≡ₚ filter in_gaming_data xs
    ∧ Sorted (λ a b, str_le (status a) (status b)) (members Gaming).
Proof.
  intros Hdata.
  destruct (draw_friends_status_lists parent_avatar parent_name data h xs Hdata)
    as (im & h' & Hrun & Hlists).
  exists im, h', (λ k, section_members k xs). split; [done|]. split; [done|].
  cbv beta.
  split; [apply (section_members_Permutation Online)|].
  assert (StronglySorted (λ a b, online_sort_key a ≤ online_sort_key b)
            (section_members Online xs)) as Hss.
  { eapply StronglySorted_mono;
      [|apply (list_sort_StronglySorted online_sort_key Z.leb Z_leb_total Z_leb_trans)].
    intros a b. unfold key_le. by rewrite Z.leb_le. }
  split; [by apply StronglySorted_Sorted|]. split.
  { intros i j a b Hi Hj Ha Hb.
    assert (in_online_data a ∧ in_online_data b) as [Pa Pb].
    { split; eapply (elem_of_section_members Online);
        by eapply list_elem_of_lookup_2. }
    apply in_online_data_valid in Pb. unfold valid_state in Pb.
    destruct (decide (i < j)%nat) as [Hij|Hij].
    - pose proof (StronglySorted_lookup _ _ _ _ _ _ Hss Hij Hi Hj) as Hle.
      unfold online_sort_key in Hle. rewrite Ha in Hle. simpl in Hle.
      destruct (Z.eqb_spec (personastate b) 3); lia.
    - destruct (decide (i = j)) as [->|Hne]; [|lia].
      rewrite Hi in Hj. injection Hj as ->. done. }
  split; [apply (section_members_Permutation Gaming)|].
  eapply Sorted_mono;
    [|apply (list_sort_Sorted status str_leb str_leb_total)].
  by intros a b.
Qed.

(** C10 (amended). draw_friends_status reorders the caller's list in
    place: after the call the list holds the same records, unchanged, in
    the order of a stable sort by persona state (ascending, the records of
    one state in the order they had); every other list object of the
    caller is as it was. *)
Theorem roster_sorts_callers_list parent_avatar parent_name data (h : heap) xs :
  h !! data = Some xs →
  ∃ im h' after,
    draw_friends_status parent_avatar parent_name data h = Ok (im, h')
    ∧ h' !! data = Some after
    ∧ after = list_sort personastate Z.leb xs
    ∧ after ≡ₚ xs
    ∧ Sorted (λ a b, personastate a ≤ personastate b) after
    ∧ (∀ p, filter (λ d, personastate d = p) after = filter (λ d, personastate d = p) xs)
    ∧ ∀ l, l ∈ dom h → l ≠ data → h' !! l = h !! l.
Proof.
  intros Hdata.
  destruct (draw_friends_status_run parent_avatar parent_name data h xs Hdata)
    as (im & h' & sections & Hrun & [Hd Ho] & _).
  exists im, h', (list_sort personastate Z.leb xs).
  split; [done|]. split; [done|]. split; [done|].
  split; [apply list_sort_Permutation|]. split; [|split; [|done]].
  - eapply Sorted_mono; [|apply (list_sort_Sorted personastate Z.leb Z_leb_total)].
    intros a b. unfold key_le. by rewrite Z.leb_le.
  - intros p. apply list_sort_stable. intros a. apply Z.leb_refl.
Qed.


(** ** The achievement strip *)

(** With both counts present and a total of 0 the division
    [completed / total] raises ZeroDivisionError and the call fails,
    whatever the other arguments. *)
Lemma draw_game_info_zero_total header game_name game_time last_play_time
    achievements completed achievement_color :
  draw_game_info header game_name game_time last_play_time achievements
    (Some completed) (Some 0) achievement_color = Err ZeroDivisionError.
Proof.
  unfold draw_game_info. cbv zeta. by destruct achievement_color as [[cr cg] cb].
Qed.

(** C1 (amended). With both counts present and a total other than 0,
    draw_game_info draws the achievement strip, and the bar pasted on it is
    the progress bar of [completed / total]; the division has no guard for a
    total of 0. *)
Theorem draw_game_info_nonzero_total header game_name game_time last_play_time
    achievements completed total achievement_color :
  total ≠ 0 →
  ∃ bg achievement_bg pos,
    draw_game_info header game_name game_time last_play_time achievements
      (Some completed) (Some total) achievement_color
    = Ok (paste_mask bg achievement_bg (10, 110) achievement_bg)
    ∧ size bg = (880, 184)
    ∧ (create_progress_bar (inject_Z completed / inject_Z total)%Q achievement_color
         186 16, pos) ∈ pasted achievement_bg.
Proof.
  intros Ht. unfold draw_game_info, truediv. cbv zeta.
  destruct achievement_color as [[cr cg] cb].
  destruct (Z.eqb_spec total 0) as [|_]; [done|].
  remember (create_progress_bar (inject_Z completed / inject_Z total)%Q (cr, cg, cb)
              186 16) as bar eqn:Hbar.
  cbn [result_bind]. rewrite <- Hbar.
  match goal with
  | |- context [foldl ?f (paste_mask ?a bar ?pos bar, ?x) achievements] =>
      assert (∀ acc x0, (bar, pos) ∈ pasted acc →
                (bar, pos) ∈ pasted (foldl f (acc, x0) achievements).1) as Hfold;
      [|specialize (Hfold (paste_mask a bar pos bar) x);
        destruct (foldl f (paste_mask a bar pos bar, x) achievements) as [abg x'] eqn:E]
  end.
  { clear. induction achievements as [|ach r IH]; intros acc x0 Hin; [done|].
    cbn [foldl]. apply IH. cbn [pasted]. apply elem_of_app. by left. }
  cbn [fst] in Hfold.
  match type of Hfold with ?P → ?Q => assert Q as Hin end.
  { apply Hfold. cbn [pasted]. apply elem_of_app. right. apply list_elem_of_here. }
  destruct (6 <? completed); eexists _, _, _; (split; [reflexivity|]); (split; [done|]);
    exact Hin.
Qed.


(** ** Threshold relaxation *)

Lemma vivid_pixels_length_le (image : Bitmap) saturation_threshold :
  len (filter (λ p, saturation_threshold < hsv_saturation p)
         (pixel_to_HSV <$> bm_pixels image)) ≤ len (bm_pixels image).
Proof.
  unfold len. apply inj_le. etrans; [apply length_filter|]. by rewrite length_fmap.
Qed.

(** On an image of fewer than ten pixels get_brightest_and_darkest_color
    never returns a pair of colours: no threshold leaves ten vivid pixels,
    every call calls itself again, and whatever depth the interpreter grants
    is used up (RecursionError). *)
Lemma vivid_extremes_small_image_never_returns depth (image : Bitmap)
    saturation_threshold hue_difference_threshold :
  len (bm_pixels image) < 10 →
  get_brightest_and_darkest_color depth image saturation_threshold
    hue_difference_threshold = Err RecursionError.
Proof.
  intros Hsmall. revert saturation_threshold hue_difference_threshold.
  induction depth as [|depth IH]; intros sat hue; [done|].
  cbn [get_brightest_and_darkest_color].
  pose proof (vivid_pixels_length_le image sat) as Hle.
  destruct (Z.ltb_spec
              (len (filter (λ p, sat < hsv_saturation p) (pixel_to_HSV <$> bm_pixels image)))
              10) as [_|Hge]; [apply IH|lia].
Qed.

Lemma filter_all {A : Type} (P : A → Prop) `{!∀ x, Decision (P x)} (l : list A) :
  Forall P l → filter P l = l.
Proof.
  induction 1 as [|x l Hx _ IH]; [done|]. rewrite filter_cons_True by done.
  by rewrite IH.
Qed.

Lemma argmax_by_is_Some {A : Type} (key : A → Z) (l : list A) :
  l ≠ [] → is_Some (argmax_by key l).
Proof. destruct l; [done|]. by eexists. Qed.

Lemma argmin_by_is_Some {A : Type} (key : A → Z) (l : list A) :
  l ≠ [] → is_Some (argmin_by key l).
Proof. destruct l; [done|]. by eexists. Qed.

(** C3 (amended). On every image of at least ten pixels, a uniform one
    of no saturation included, get_brightest_and_darkest_color returns a
    pair of colours: the retries with the threshold lowered by 10 bottom
    out, because below threshold 0 every pixel is vivid.  A threshold under
    [10 * n] needs at most [n + 1] nested calls (twelve for the default
    100). *)
Theorem vivid_extremes_returns (n : nat) depth (image : Bitmap)
    saturation_threshold hue_difference_threshold :
  10 ≤ len (bm_pixels image) →
  saturation_threshold < 10 * Z.of_nat n →
  (n < depth)%nat →
  ∃ colors,
    get_brightest_and_darkest_color depth image saturation_threshold
      hue_difference_threshold = Ok colors.
Proof.
  intros Hbig. revert depth saturation_threshold hue_difference_threshold.
  induction n as [|n IH]; intros depth sat hue Hsat Hdepth;
    (destruct depth as [|depth]; [lia|]); cbn [get_brightest_and_darkest_color];
    set (vivid := filter (λ p, sat < hsv_saturation p) (pixel_to_HSV <$> bm_pixels image));
    destruct (Z.ltb_spec (len vivid) 10) as [Hlt|Hge].
  - exfalso. assert (vivid = pixel_to_HSV <$> bm_pixels image) as Hall.
    { unfold vivid. apply filter_all. apply Forall_forall. intros p _.
      unfold hsv_saturation. lia. }
    rewrite Hall in Hlt. unfold len in *. rewrite length_fmap in Hlt. lia.
  - assert (vivid ≠ []) as Hne by (intros E; rewrite E in Hge; unfold len in Hge; simpl in Hge; lia).
    destruct (argmax_by_is_Some hsv_value vivid Hne) as [b ->].
    destruct (argmin_by_is_Some hsv_value vivid Hne) as [d ->]. by eexists.
  - apply IH; lia.
  - assert (vivid ≠ []) as Hne by (intros E; rewrite E in Hge; unfold len in Hge; simpl in Hge; lia).
    destruct (argmax_by_is_Some hsv_value vivid Hne) as [b ->].
    destruct (argmin_by_is_Some hsv_value vivid Hne) as [d ->]. by eexists.
Qed.


(** ** Gradients and the progress bar *)

Lemma int_of_float_mono (x y : Q) : (x <= y)%Q → int_of_float x ≤ int_of_float y.
Proof.
  unfold Qle, int_of_float. destruct x as [nx dx], y as [ny dy]. simpl. intros Hle.
  rewrite <- (Z.quot_mul_cancel_r nx (Z.pos dx) (Z.pos dy)) by lia.
  rewrite <- (Z.quot_mul_cancel_r ny (Z.pos dy) (Z.pos dx)) by lia.
  rewrite (Z.mul_comm (Z.pos dy) (Z.pos dx)).
  apply Z.quot_le_mono; lia.
Qed.

Lemma int_of_float_integer (q : Q) (z : Z) : (q == inject_Z z)%Q → int_of_float q = z.
Proof.
  unfold Qeq, int_of_float. simpl. intros E.
  assert (Qnum q = z * Z.pos (Qden q)) as -> by lia.
  by apply Z.quot_mul.
Qed.

Lemma linspace_at_first start stop num : int_of_float (linspace_at start stop num 0) = start.
Proof.
  apply int_of_float_integer. unfold linspace_at.
  destruct (num =? 1); [reflexivity|].
  change (inject_Z 0) with 0%Q. unfold Qdiv. ring.
Qed.

Lemma linspace_at_last start stop num :
  1 < num → int_of_float (linspace_at start stop num (num - 1)) = stop.
Proof.
  intros Hn. apply int_of_float_integer. unfold linspace_at.
  destruct (Z.eqb_spec num 1) as [|_]; [lia|].
  field. intros E. unfold Qeq in E. simpl in E. lia.
Qed.

Lemma linspace_color_first (start stop : Color) num :
  length start = length stop → linspace_color start stop num 0 = start.
Proof.
  unfold linspace_color. revert stop.
  induction start as [|a start IH]; intros [|b stop] Hl; try done.
  simpl. rewrite linspace_at_first. f_equal. apply IH. simpl in Hl. lia.
Qed.

Lemma linspace_color_last (start stop : Color) num :
  1 < num → length start = length stop →
  linspace_color start stop num (num - 1) = stop.
Proof.
  intros Hn. unfold linspace_color. revert stop.
  induction start as [|a start IH]; intros [|b stop] Hl; try done.
  simpl. rewrite linspace_at_last by done. f_equal. apply IH. simpl in Hl. lia.
Qed.

Lemma create_vertical_gradient_rect_degenerate width height start_color end_color :
  width ≤ 0 ∨ height ≤ 0 →
  create_vertical_gradient_rect width height start_color end_color
  = Image_new RGBA (1, 1) [0; 0; 0; 0].
Proof.
  intros Hd. unfold create_vertical_gradient_rect.
  destruct (Z.leb_spec width 0), (Z.leb_spec height 0); try done. lia.
Qed.

(** The horizontal constructor on colours of four channels and a size
    that is positive both ways: the image is the array, one column for
    every sample of np.linspace, the same in every row. *)
Lemma create_gradient_image_RGBA size color1 color2 :
  0 < size.1 → 0 < size.2 → length color1 = 4%nat → length color2 = 4%nat →
  create_gradient_image size color1 color2
  = Ok (Image_fromarray
          (mkBitmap size.1 size.2
             (λ x _, linspace_color (clamp_channel <$> color1) (clamp_channel <$> color2)
                       size.1 x))).
Proof.
  intros Hw Hh H1 H2. unfold create_gradient_image.
  destruct (Z.ltb_spec size.1 0); [lia|]. destruct (Z.ltb_spec size.2 0); [lia|].
  destruct (Z.eqb_spec size.1 0); [lia|]. destruct (Z.eqb_spec size.2 0); [lia|].
  rewrite !length_fmap, H1, H2. reflexivity.
Qed.

(** The two gradient constructors side by side.  The vertical one returns
    a 1x1 transparent pixel when the width or the height is not positive.
    The horizontal one has no such guard: for positive dimensions and
    colours of four channels it interpolates by column, from the first
    colour in column 0 to the second in the last column, the same in every
    row; colours of fewer than four channels make Image.fromarray fail with
    ValueError, and so does a negative width or height. *)
Lemma gradient_degenerate_sizes :
  (∀ width height start_color end_color,
     width ≤ 0 ∨ height ≤ 0 →
     create_vertical_gradient_rect width height start_color end_color
     = Image_new RGBA (1, 1) [0; 0; 0; 0])
  ∧ (∀ size color1 color2,
       0 < size.1 → 0 < size.2 → length color1 = 4%nat → length color2 = 4%nat →
       ∃ a, create_gradient_image size color1 color2 = Ok (Image_fromarray a)
            ∧ (bm_width a, bm_height a) = size
            ∧ (∀ x y y', bm_pixel a x y = bm_pixel a x y')
            ∧ (∀ y, bm_pixel a 0 y = clamp_channel <$> color1)
            ∧ (1 < size.1 → ∀ y, bm_pixel a (size.1 - 1) y = clamp_channel <$> color2))
  ∧ (∀ size color1 color2,
       0 < size.1 → 0 < size.2 → (length color1 < 4)%nat →
       create_gradient_image size color1 color2 = Err ValueError)
  ∧ (∀ size color1 color2,
       size.1 < 0 ∨ size.2 < 0 →
       create_gradient_image size color1 color2 = Err ValueError).
Proof.
  split; [|split; [|split]].
  - apply create_vertical_gradient_rect_degenerate.
  - intros [w hh] color1 color2 Hw Hh H1 H2.
    rewrite create_gradient_image_RGBA by done. simpl in *.
    eexists. split; [reflexivity|]. simpl. split; [done|]. split; [done|].
    split.
    + intros _. apply linspace_color_first. by rewrite !length_fmap, H1, H2.
    + intros Hw1 _. apply linspace_color_last; [done|]. by rewrite !length_fmap, H1, H2.
  - intros [w hh] color1 color2 Hw Hh H1. simpl in *. unfold create_gradient_image. simpl.
    destruct (Z.ltb_spec w 0); [lia|]. destruct (negb _); [done|].
    destruct (Z.ltb_spec hh 0); [lia|].
    destruct (Z.eqb_spec w 0); [lia|]. destruct (Z.eqb_spec hh 0); [lia|]. simpl.
    unfold fromarray_RGBA. rewrite length_fmap.
    by destruct (Nat.ltb_spec (length color1) 4); [|lia].
  - intros [w hh] color1 color2 Hd. simpl in *. unfold create_gradient_image. simpl.
    destruct (Z.ltb_spec w 0); [done|]. destruct (negb _); [done|].
    destruct (Z.ltb_spec hh 0); [done|]. lia.
Qed.

Lemma create_vertical_gradient_rect_size width height start_color end_color :
  0 < width → 0 < height →
  size (create_vertical_gradient_rect width height start_color end_color) = (width, height).
Proof.
  intros Hw Hh. unfold create_vertical_gradient_rect.
  destruct (Z.leb_spec width 0); [lia|]. destruct (Z.leb_spec height 0); [lia|]. done.
Qed.

Lemma fill_width_0 width : fill_width 0 width = -6.
Proof.
  unfold fill_width. rewrite (int_of_float_integer _ 0); [done|]. ring.
Qed.

Lemma fill_width_1 width : fill_width 1 width = width - 6.
Proof.
  unfold fill_width. rewrite (int_of_float_integer _ width); [done|]. ring.
Qed.

Lemma create_progress_bar_pasted progress color width height :
  ∃ top bottom,
    last (pasted (create_progress_bar progress color width height))
    = Some (rounded_rectangle
              (create_vertical_gradient_rect (fill_width progress width) (height - 4)
                 top bottom) 6 false 0 [0; 0; 0], (3, 2)).
Proof.
  unfold create_progress_bar. destruct color as [[r g] b].
  destruct (rgb_to_hsv (inject_Z r) (inject_Z g) (inject_Z b)) as [[hh s] v].
  eexists _, _. cbn [pasted]. apply last_snoc.
Qed.

Lemma create_progress_bar_exact progress color width height :
  create_progress_bar progress color width height
  = create_progress_bar_with (λ x, x) progress color width height.
Proof. reflexivity. Qed.


Lemma rounds_proper fl x y : rounds fl → (x == y)%Q → (fl x == fl y)%Q.
Proof.
  intros [Hmono _] E. apply Qle_antisym; apply Hmono; rewrite E; apply Qle_refl.
Qed.








(** ** The biography lines *)

Lemma exceeds_640_iff w : exceeds_640 w = true ↔ (640 < w)%Q.
Proof.
  unfold exceeds_640. rewrite negb_true_iff, <- not_true_iff_false, Qle_bool_iff.
  split; [apply Qnot_le_lt|apply Qlt_not_le].
Qed.

Lemma line_width_of_snoc line c :
  line_width_of (line ++ [c]) = (line_width_of line + getlength description_font [c])%Q.
Proof. unfold line_width_of. by rewrite foldl_app. Qed.

Lemma prefix_snoc_inv {A : Type} (p l : list A) c :
  p `prefix_of` l ++ [c] → p = l ++ [c] ∨ p `prefix_of` l.
Proof.
  intros [k Hk]. destruct k as [|x k _] using rev_ind.
  - left. by rewrite app_nil_r in Hk.
  - right. rewrite app_assoc in Hk. apply app_inj_tail in Hk as [-> _]. by exists k.
Qed.

Lemma description_loop_spec n rest idx bg line offset j :
  idx + len rest = n →
  offset = 25 * j → 0 ≤ j < 4 →
  (line ≠ [] → rest ≠ []) →
  (∀ p, p ≠ [] → p `prefix_of` line → ¬ line_ends p) →
  ∃ lines dropped,
    texts (description_loop n (enumerate_from idx rest) bg line (line_width_of line) offset)
    = texts bg ++ lines
    ∧ line ++ rest = concat lines ++ dropped
    ∧ len lines ≤ 4 - j
    ∧ (dropped ≠ [] → len lines = 4 - j)
    ∧ Forall stops_at_first_end lines
    ∧ ∀ i l, lines !! i = Some l → line_ends l ∨ (S i = length lines ∧ dropped = []).
Proof.
  revert idx bg line offset j.
  induction rest as [|c rest IH]; intros idx bg line offset j Hn Hoff Hj Hline Hinv.
  - exists [], []. simpl. rewrite !app_nil_r.
    destruct line as [|a line]; [|by destruct Hline].
    repeat split; try done. unfold len. simpl. lia.
  - unfold len in Hn. cbn [length] in Hn.
    cbn [enumerate_from description_loop].
    rewrite <- line_width_of_snoc.
    set (line' := line ++ [c]).
    assert (stops_at_first_end line') as Hstop.
    { split; [by destruct line|]. intros p Hp Hpre Hne.
      apply prefix_snoc_inv in Hpre as [->|Hpre]; [done|]. by apply Hinv. }
    destruct (exceeds_640 (line_width_of line') || (idx =? n - 1) || (c =? NEWLINE)%N)
      eqn:Hcond.
    + (* a line is emitted *)
      assert (line_ends line' ∨ rest = []) as Hend.
      { apply orb_true_iff in Hcond as [Hcond|Hcond];
          [apply orb_true_iff in Hcond as [Hcond|Hcond]|].
        - left. left. by apply exceeds_640_iff.
        - right. apply Z.eqb_eq in Hcond. destruct rest; [done|].
          cbn [length] in Hn. lia.
        - left. right. apply N.eqb_eq in Hcond. subst c. apply last_snoc. }
      destruct (Z.leb_spec (25 * 4) (offset + 25)) as [Hfull|Hroom].
      * exists [line'], rest. cbn [texts concat]. rewrite app_nil_r.
        split; [done|]. split; [unfold line'; by rewrite <- app_assoc|].
        split; [unfold len; simpl; lia|]. split; [unfold len; simpl; lia|].
        split; [constructor; [exact Hstop|constructor]|].
        intros [|i] l Hl; [|done]. injection Hl as <-.
        destruct Hend as [He| ->]; [by left|by right].
      * destruct (IH (idx + 1) (draw_text bg (at_int 280 (132 + offset)) line'
                                  description_font [255; 255; 255])
                    [] (offset + 25) (j + 1))
          as (lines & dropped & Ht & Hcat & Hlen & Hdrop & Hall & Hlast);
          [unfold len; lia|lia|lia|done|by intros p Hp ->%prefix_nil_inv|].
        exists (line' :: lines), dropped. cbn [texts] in Ht.
        change (line_width_of []) with 0%Q in Ht.
        split; [by rewrite Ht, <- app_assoc|].
        split; [cbn [concat]; unfold line'; rewrite <- !app_assoc, <- Hcat; done|].
        split; [unfold len in *; cbn [length]; lia|].
        split; [intros Hd; specialize (Hdrop Hd); unfold len in *; cbn [length]; lia|].
        split; [by constructor|].
        intros [|i] l Hl.
        -- injection Hl as <-. destruct Hend as [He| ->]; [by left|]. right.
           simpl in Hcat. symmetry in Hcat. apply app_eq_nil in Hcat as [Hc ->].
           destruct lines as [|l0 lines]; [done|].
           apply Forall_cons in Hall as [[Hl0 _] _]. simpl in Hc.
           by apply app_eq_nil in Hc as [-> _].
        -- destruct (Hlast i l Hl) as [|[Hi ->]]; [by left|right].
           split; [cbn [length]; lia|done].
    + (* the line goes on *)
      apply orb_false_iff in Hcond as [Hcond Hnl].
      apply orb_false_iff in Hcond as [Hw Hidx].
      destruct (Z.leb_spec (25 * 4) offset) as [Hfull|_]; [lia|].
      destruct (IH (idx + 1) bg line' offset j)
        as (lines & dropped & Ht & Hcat & Hrest); [unfold len; lia|done|done| |  |].
      * intros _. apply Z.eqb_neq in Hidx. destruct rest; [|done]. simpl in Hn. lia.
      * intros p Hp Hpre. apply prefix_snoc_inv in Hpre as [->|Hpre]; [|by apply Hinv].
        intros [Hex|Hlast].
        -- apply exceeds_640_iff in Hex. fold line' in Hex. congruence.
        -- unfold line' in Hlast. rewrite last_snoc in Hlast. injection Hlast as ->.
           by rewrite N.eqb_refl in Hnl.
      * exists lines, dropped. split; [done|]. split; [|done].
        rewrite <- Hcat. unfold line'. by rewrite <- app_assoc.
Qed.

(** C6. The biography loop of draw_player_status draws a line exactly
    where the accumulated glyph width exceeds 640, at a newline, or at the
    end of the text: every line drawn stops at the first such place, the
    lines drawn are a prefix of the text in order, and there are never more
    than four; text is left out only after a fourth line, and nothing is
    drawn in its place. *)
Theorem description_wrapping bg player_description :
  ∃ lines dropped,
    texts (draw_description bg player_description) = texts bg ++ lines
    ∧ player_description = concat lines ++ dropped
    ∧ (length lines ≤ 4)%nat
    ∧ (dropped ≠ [] → length lines = 4%nat)
    ∧ Forall stops_at_first_end lines
    ∧ ∀ i l, lines !! i = Some l → line_ends l ∨ (S i = length lines ∧ dropped = []).
Proof.
  destruct (description_loop_spec (len player_description) player_description 0 bg [] 0 0)
    as (lines & dropped & Ht & Hcat & Hlen & Hdrop & Hall & Hlast);
    [unfold len; lia|lia|lia|done|by intros p Hp ->%prefix_nil_inv|].
  exists lines, dropped. unfold len in *.
  split; [exact Ht|]. split; [exact Hcat|]. split; [lia|].
  split; [intros Hd; specialize (Hdrop Hd); lia|]. by split.
Qed.


(** ** The mosaic backdrop *)

Lemma bind_singleton_fmap {A B : Type} (g : A → B) (l : list A) :
  (x ← l; [g x]) = g <$> l.
Proof. induction l as [|x l IH]; [done|]. by rewrite bind_cons, IH. Qed.

Lemma grid_row {A : Type} (f : Z → Z → A) (cols r : Z) :
  0 < cols → 0 ≤ r →
  (c ← seqZ 0 cols; [f r c])
  = (λ i, f (i / cols) (i mod cols)) <$> seqZ (r * cols) cols.
Proof.
  intros Hc Hr. rewrite bind_singleton_fmap.
  replace (r * cols) with (r * cols + 0) by lia.
  rewrite <- fmap_add_seqZ, <- list_fmap_compose.
  apply list_fmap_ext. intros i c Hi. apply lookup_seqZ in Hi as [-> Hi]. simpl.
  f_equal.
  - rewrite (Z.add_comm (r * cols)), Z.div_add by lia. rewrite Z.div_small; lia.
  - rewrite (Z.add_comm (r * cols)), Z.mod_add by lia. rewrite Z.mod_small; lia.
Qed.

Lemma grid_rows {A : Type} (f : Z → Z → A) (cols : Z) (n : nat) :
  0 < cols →
  (r ← seqZ 0 (Z.of_nat n); c ← seqZ 0 cols; [f r c])
  = (λ i, f (i / cols) (i mod cols)) <$> seqZ 0 (Z.of_nat n * cols).
Proof.
  intros Hc. induction n as [|n IH]; [done|].
  rewrite seqZ_S, bind_app, IH, bind_singleton, grid_row by lia.
  replace (Z.of_nat (S n) * cols) with (Z.of_nat n * cols + cols) by lia.
  rewrite seqZ_app by lia. by rewrite fmap_app.
Qed.

Lemma enumerate_from_fmap_seqZ {A : Type} (g : Z → A) (k : Z) (n : nat) :
  enumerate_from k (g <$> seqZ k (Z.of_nat n)) = (λ i, (i, g i)) <$> seqZ k (Z.of_nat n).
Proof.
  revert k. induction n as [|n IH]; intros k; [done|].
  rewrite seqZ_cons by lia. cbn [fmap list_fmap enumerate_from].
  replace (Z.pred (Z.of_nat (S n))) with (Z.of_nat n) by lia.
  f_equal. apply IH.
Qed.

Lemma bm_pixels_cons (a : Bitmap) :
  0 < bm_width a → 0 < bm_height a → ∃ p ps, bm_pixels a = p :: ps.
Proof.
  intros Hw Hh. unfold bm_pixels.
  rewrite (seqZ_cons 0 (bm_height a)), bind_cons by done.
  rewrite (seqZ_cons 0 (bm_width a)), bind_cons by done. simpl. eauto.
Qed.

Lemma get_average_color_ok (a : Bitmap) :
  0 < bm_width a → 0 < bm_height a → ∃ c, get_average_color a = Ok c.
Proof.
  intros Hw Hh. unfold get_average_color.
  destruct (bm_pixels_cons a Hw Hh) as (p & ps & ->). by eexists.
Qed.

(** The loop of recolor_image over the tiles [idxs]. *)
Lemma recolor_loop image cols pw ph radius (idxs : list Z) new_image :
  0 < pw → 0 < ph → radius = Z.min pw ph / 2 →
  ∃ im entries,
    result_foldl
      (λ new_image '(i, piece),
         let* average_color := get_average_color piece in
         let row := i / cols in
         let col := i mod cols in
         let x := col * pw + pw / 2 in
         let y := row * ph + ph / 2 in
         let circle := Image_new RGBA (pw, ph) [0; 0; 0; 0] in
         let circle := draw_ellipse circle (0, 0, pw, ph) average_color in
         Ok (paste_mask new_image circle (x - radius, y - radius) circle))%res
      new_image ((λ i, (i, bm_crop image (tile_box pw ph cols i))) <$> idxs) = Ok im
    ∧ size im = size new_image
    ∧ canvas_of im = canvas_of new_image
    ∧ pasted im = pasted new_image ++ entries
    ∧ Forall2 (λ i e, ∃ c, get_average_color (bm_crop image (tile_box pw ph cols i)) = Ok c
                           ∧ e = (blob pw ph c, blob_corner pw ph cols i))
        idxs entries.
Proof.
  intros Hpw Hph ->. revert new_image.
  induction idxs as [|i idxs IH]; intros new_image.
  - exists new_image, []. rewrite app_nil_r. by repeat split.
  - cbn [fmap list_fmap result_foldl].
    destruct (get_average_color_ok (bm_crop image (tile_box pw ph cols i))) as [c Hc];
      [unfold tile_box; simpl; lia..|].
    rewrite Hc. cbn [result_bind].
    edestruct IH as (im & entries & Hrun & Hs & Hc0 & Hp & Hall).
    exists im, ((blob pw ph c, blob_corner pw ph cols i) :: entries).
    split; [exact Hrun|]. split; [by rewrite Hs|]. split; [by rewrite Hc0|].
    split; [rewrite Hp; cbn [pasted]; by rewrite <- app_assoc|].
    constructor; [by exists c|done].
Qed.

Lemma split_image_run (image : Bitmap) rows cols :
  1 ≤ rows → 1 ≤ cols →
  split_image image rows cols
  = Ok ((λ i, bm_crop image
                (tile_box (bm_width image / cols) (bm_height image / rows) cols i))
          <$> seqZ 0 (rows * cols),
        bm_width image / cols, bm_height image / rows).
Proof.
  intros Hr Hc. unfold split_image, floordiv.
  destruct (Z.eqb_spec cols 0) as [|_]; [lia|]. cbn [result_bind].
  destruct (Z.eqb_spec rows 0) as [|_]; [lia|]. cbn [result_bind].
  do 3 f_equal.
  set (pw := bm_width image / cols). set (ph := bm_height image / rows).
  replace rows with (Z.of_nat (Z.to_nat rows)) by lia.
  apply (grid_rows (λ r c, bm_crop image (c * pw, r * ph, (c + 1) * pw, (r + 1) * ph))).
  lia.
Qed.

(** What recolor_image paints on a grid whose tiles are not empty: a
    canvas of the size of the photo, filled with the average colour of
    the photo, and for every tile the ellipse inscribed in a box of the
    tile's size, in the tile's average colour, with its corner at
    [blob_corner]. *)
Lemma recolor_image_run (image : Bitmap) rows cols :
  1 ≤ rows ≤ bm_height image → 1 ≤ cols ≤ bm_width image →
  let pw := bm_width image / cols in
  let ph := bm_height image / rows in
  ∃ im total,
    recolor_image image rows cols = Ok im
    ∧ size im = (bm_width image, bm_height image)
    ∧ get_average_color image = Ok total
    ∧ canvas_of im = Image_new RGB (bm_width image, bm_height image) total
    ∧ Forall2 (λ i e, ∃ c, get_average_color (bm_crop image (tile_box pw ph cols i)) = Ok c
                           ∧ e = (blob pw ph c, blob_corner pw ph cols i))
        (seqZ 0 (rows * cols)) (pasted im).
Proof.
  intros Hr Hc pw ph.
  assert (0 < pw) as Hpw by (apply Z.div_str_pos; lia).
  assert (0 < ph) as Hph by (apply Z.div_str_pos; lia).
  destruct (get_average_color_ok image) as [total Htotal]; [lia..|].
  unfold recolor_image. rewrite Htotal, split_image_run by lia. cbn [result_bind].
  fold pw ph.
  remember ((λ i, bm_crop image (tile_box pw ph cols i)) <$> seqZ 0 (rows * cols))
    as pieces eqn:Hpieces.
  destruct pieces as [|p0 rest].
  { apply (f_equal length) in Hpieces. rewrite length_fmap, length_seqZ in Hpieces.
    simpl in Hpieces. lia. }
  assert (p0 = bm_crop image (tile_box pw ph cols 0)) as ->.
  { rewrite seqZ_cons in Hpieces by lia. by injection Hpieces. }
  cbn [result_bind]. rewrite Hpieces. unfold enumerate.
  replace (rows * cols) with (Z.of_nat (Z.to_nat (rows * cols))) by lia.
  rewrite enumerate_from_fmap_seqZ.
  edestruct (recolor_loop image cols pw ph
               (Z.min (bm_width (bm_crop image (tile_box pw ph cols 0)))
                      (bm_height (bm_crop image (tile_box pw ph cols 0))) / 2))
    as (im & entries & Hrun & Hs & Hc0 & Hp & Hall); [done|done| |].
  { unfold tile_box. simpl. f_equal. f_equal; lia. }
  rewrite Hrun. cbn [result_bind].
  eexists _, total. split; [reflexivity|]. cbn [size canvas_of pasted].
  split; [by rewrite Hs|]. split; [done|]. split; [by rewrite Hc0|].
  rewrite Hp. exact Hall.
Qed.

(** On square tiles the box of every ellipse is the tile itself: the
    shape is the circle inscribed in the tile. *)
Lemma blob_corner_square pw cols i :
  blob_corner pw pw cols i = ((tile_box pw pw cols i).1.1.1, (tile_box pw pw cols i).1.1.2).
Proof. unfold blob_corner, tile_box. simpl. rewrite Z.min_id. f_equal; lia. Qed.

(** C5. On a 20x10 photo taken as a single tile recolor_image does not
    paint a circle of diameter 10 centred in the tile: the shape is the
    ellipse inscribed in the whole 20x10 tile, and it is pasted 5 pixels to
    the right of the tile, from x = 5 to x = 25, so that its centre is at
    x = 15 where the tile's is at x = 10.  The canvas has the size of the
    photo and the ellipse the photo's average colour. *)
Theorem recolor_wide_tile :
  ∃ im,
    recolor_image wide_photo 1 1 = Ok im
    ∧ size im = (20, 10)
    ∧ pasted im
      = [(draw_ellipse (Image_new RGBA (20, 10) [0; 0; 0; 0]) (0, 0, 20, 10) [9; 4; 7],
          (5, 0))]
    ∧ get_average_color wide_photo = Ok [9; 4; 7].
Proof. eexists. split; [by vm_compute|]. by vm_compute. Qed.


(** * Further properties of the renderers *)

(** ** Rows *)

Lemma personastate_colors_lookup_None p : ¬ 0 ≤ p ≤ 6 → personastate_colors !! p = None.
Proof.
  intros Hp. unfold personastate_colors. cbn [list_to_map foldr fst snd].
  rewrite !lookup_insert_ne by lia. apply lookup_empty.
Qed.

Lemma personastate_colors_idle p :
  0 ≤ p ≤ 6 → personastate_colors !! p = Some (idle_colors p).
Proof.
  intros Hp.
  assert (p = 0 ∨ p = 1 ∨ p = 2 ∨ p = 3 ∨ p = 4 ∨ p = 5 ∨ p = 6) as Hc by lia.
  destruct_or!; subst p; reflexivity.
Qed.

(** The part of draw_friend_status that every row goes through. *)
Lemma draw_friend_status_row_run canvas friend_avatar display_name st p :
  0 ≤ p ≤ 6 → p ≠ 2 → p ≠ 4 →
  draw_friend_status_row canvas friend_avatar display_name st p
  = Ok (draw_text
          (draw_text (paste canvas friend_avatar (22, 8))
             (at_int (22 + MEMBER_AVATAR_SIZE + 18) 12) display_name
             (truetype font_bold_path 20) (row_colors p st).1)
          (at_int (22 + MEMBER_AVATAR_SIZE + 16) 36) st
          (truetype font_regular_path 18) (row_colors p st).2).
Proof.
  intros Hp H2 H4. unfold draw_friend_status_row, row_colors.
  destruct (decide (in_game_row p st)) as [Hg|Hg].
  - destruct Hg as [[Hs Hst]|[-> Hst]].
    + assert (p = 1) as ->.
      { rewrite !elem_of_cons, elem_of_nil in Hs. lia. }
      by rewrite bool_decide_eq_true_2.
    + rewrite andb_false_r. by rewrite bool_decide_eq_true_2.
  - assert (bool_decide (st ≠ STR_ONLINE) && (p =? 1) = false) as ->.
    { apply andb_false_iff. destruct (Z.eqb_spec p 1) as [->|]; [left|by right].
      apply bool_decide_eq_false_2. intros Hst. apply Hg. left.
      split; [|done]. rewrite elem_of_cons. by left. }
    assert (bool_decide (st ≠ STR_AWAY) && (p =? 3) = false) as ->.
    { apply andb_false_iff. destruct (Z.eqb_spec p 3) as [->|]; [left|by right].
      apply bool_decide_eq_false_2. intros Hst. apply Hg. by right. }
    by rewrite personastate_colors_idle.
Qed.

Lemma in_game_row_online_like p st :
  p = 1 ∨ p = 2 ∨ p = 4 → in_game_row p st ↔ st ≠ STR_ONLINE.
Proof.
  intros Hp. unfold in_game_row. rewrite !elem_of_cons, elem_of_nil. split.
  - intros [[_ H]|[H3 _]]; [done|lia].
  - intros H. left. split; [lia|done].
Qed.

Lemma row_colors_busy_snooze p st : p = 2 ∨ p = 4 → row_colors p st = row_colors 1 st.
Proof.
  intros Hp. unfold row_colors.
  pose proof (in_game_row_online_like p st) as Hp'.
  pose proof (in_game_row_online_like 1 st) as H1.
  assert (idle_colors p = idle_colors 1) as -> by (by destruct Hp as [-> | ->]).
  destruct (decide (in_game_row p st)) as [Hg|Hg], (decide (in_game_row 1 st)) as [Hg1|Hg1];
    try done.
  - exfalso. apply Hg1, H1; [lia|]. apply Hp'; [lia|done].
  - exfalso. apply Hg, Hp'; [lia|]. apply H1; [lia|done].
Qed.

(** What draw_friend_status returns for the states it knows. *)
Lemma draw_friend_status_run friend_avatar friend_name st p nickname :
  0 ≤ p ≤ 6 →
  ∃ im,
    draw_friend_status friend_avatar friend_name st p nickname = Ok im
    ∧ canvas_of im = Image_new RGB (WIDTH, 64) (hex_to_rgb "1e2024")
    ∧ drawn_texts im
      = [(at_int (22 + MEMBER_AVATAR_SIZE + 18) 12, display_name_of friend_name nickname,
          truetype font_bold_path 20, (row_colors p st).1);
         (at_int (22 + MEMBER_AVATAR_SIZE + 16) 36, st,
          truetype font_regular_path 18, (row_colors p st).2)]
    ∧ snd <$> pasted im
      = (22, 8) :: (snd <$> status_icon p st (display_name_of friend_name nickname))
    ∧ tail (pasted im) = status_icon p st (display_name_of friend_name nickname).
Proof.
  intros Hp. unfold draw_friend_status, draw_friend_status_plain, status_icon.
  destruct (Z.eqb_spec p 2) as [->|H2].
  { rewrite draw_friend_status_row_run by lia. rewrite (row_colors_busy_snooze 2) by lia.
    eexists. split; [reflexivity|]. by repeat split. }
  destruct (Z.eqb_spec p 4) as [->|H4].
  { rewrite draw_friend_status_row_run by lia. rewrite (row_colors_busy_snooze 4) by lia.
    eexists. split; [reflexivity|]. by repeat split. }
  rewrite draw_friend_status_row_run by lia.
  eexists. split; [reflexivity|]. by repeat split.
Qed.

Lemma draw_friend_status_size friend_avatar friend_name st p nickname im :
  draw_friend_status friend_avatar friend_name st p nickname = Ok im →
  size im = (WIDTH, 64).
Proof.
  unfold draw_friend_status, draw_friend_status_plain, draw_friend_status_row.
  repeat case_match; simpl; intros; simplify_eq; done.
Qed.

Lemma draw_friend_status_KeyError friend_avatar friend_name st p nickname :
  ¬ 0 ≤ p ≤ 6 →
  draw_friend_status friend_avatar friend_name st p nickname = Err KeyError.
Proof.
  intros Hp. unfold draw_friend_status, draw_friend_status_row.
  destruct (Z.eqb_spec p 2) as [|_]; [lia|]. destruct (Z.eqb_spec p 4) as [|_]; [lia|].
  destruct (Z.eqb_spec p 1) as [|_]; [lia|]. destruct (Z.eqb_spec p 3) as [|_]; [lia|].
  rewrite !andb_false_r. by rewrite personastate_colors_lookup_None.
Qed.

(** X1. draw_friend_status knows the persona states 0 to 6 and no other:
    for these it returns a row of 400x64 pixels, for every other state the
    colour table has no entry and the call raises KeyError. *)
Theorem draw_friend_status_known_states friend_avatar friend_name st p nickname :
  (0 ≤ p ≤ 6 ↔
   ∃ im, draw_friend_status friend_avatar friend_name st p nickname = Ok im
         ∧ size im = (WIDTH, 64))
  ∧ (¬ 0 ≤ p ≤ 6 ↔
     draw_friend_status friend_avatar friend_name st p nickname = Err KeyError).
Proof.
  pose proof (draw_friend_status_KeyError friend_avatar friend_name st p nickname) as Hbad.
  assert (0 ≤ p ≤ 6 →
          ∃ im, draw_friend_status friend_avatar friend_name st p nickname = Ok im
                ∧ size im = (WIDTH, 64)) as Hgood.
  { intros Hp.
    destruct (draw_friend_status_run friend_avatar friend_name st p nickname Hp)
      as (im & Him & _).
    exists im. split; [done|]. by eapply draw_friend_status_size. }
  split; split.
  - exact Hgood.
  - intros (im & Him & _). destruct (decide (0 ≤ p ≤ 6)) as [|Hn]; [done|].
    rewrite (Hbad Hn) in Him. discriminate Him.
  - exact Hbad.
  - intros He Hp. destruct (Hgood Hp) as (im & Him & _). rewrite Him in He. discriminate He.
Qed.


(** ** The roster and the states it does not know *)

Lemma in_section_valid k d : in_section k d → valid_state d.
Proof.
  destruct k; [apply in_gaming_data_valid|apply in_online_data_valid
              |apply in_offline_data_valid].
Qed.

Lemma filter_in_section_valid k (xs : list Friend) :
  filter (in_section k) (filter valid_state xs) = filter (in_section k) xs.
Proof.
  induction xs as [|d xs IH]; [done|].
  rewrite (filter_cons valid_state). destruct (decide (valid_state d)) as [Hv|Hv].
  - rewrite !filter_cons, IH. done.
  - rewrite IH, filter_cons. rewrite decide_False; [done|].
    intros Hk. by apply Hv, (in_section_valid k).
Qed.

Lemma section_members_known k xs :
  section_members k xs ≡ₚ filter (in_section k) (filter valid_state xs).
Proof. by rewrite filter_in_section_valid, section_members_Permutation. Qed.

Lemma sections_known xs :
  section_members Gaming xs ++ section_members Online xs ++ section_members Offline xs
  ≡ₚ filter valid_state xs.
Proof.
  rewrite !section_members_known. apply filter_three_way.
  apply Forall_forall. intros d Hd. by apply list_elem_of_filter in Hd as [Hd _].
Qed.

(** X3. The roster lists the records whose state is one of 0..6 and no
    other: the sections of the image returned list, between them, exactly
    these records.  A record with any other state satisfies none of the
    three comprehensions, so it is listed nowhere, and the row renderer,
    which would raise KeyError on it, is never called with it.  The call
    returns on every roster. *)
Theorem roster_lists_known_states parent_avatar parent_name data (h : heap) xs :
  h !! data = Some xs →
  ∃ im h' members,
    draw_friends_status parent_avatar parent_name data h = Ok (im, h')
    ∧ lists_members im members
    ∧ members Gaming ++ members Online ++ members Offline ≡ₚ filter valid_state xs
    ∧ ∀ d, d ∈ xs → ¬ valid_state d →
        draw_friend d = Err KeyError ∧ ∀ k, d ∉ members k.
Proof.
  intros Hdata.
  destruct (draw_friends_status_lists parent_avatar parent_name data h xs Hdata)
    as (im & h' & Hrun & Hlists).
  exists im, h', (λ k, section_members k xs). split; [done|]. split; [done|].
  cbv beta. split; [apply sections_known|].
  intros d Hd Hv. split.
  - by apply draw_friend_status_KeyError.
  - intros k Hk. apply elem_of_section_members in Hk as [_ Hk].
    by apply Hv, (in_section_valid k).
Qed.

Lemma section_image_height k members sec :
  section_image k members sec → height sec = 80 + 66 * len members.
Proof.
  intros (rows & _ & Hs & _). unfold height. rewrite Hs. simpl.
  unfold MEMBER_AVATAR_SIZE. lia.
Qed.

Lemma total_height_sections xs ks sections :
  Forall2 (λ k sec, section_image k (section_members k xs) sec) ks sections →
  total_height sections
  = 80 * len ks + 66 * foldr Z.add 0 ((λ k, len (section_members k xs)) <$> ks).
Proof.
  induction 1 as [|k sec ks sections Hk _ IH]; [done|].
  unfold total_height in *. cbn [fmap list_fmap foldr]. rewrite IH.
  rewrite (section_image_height _ _ _ Hk). unfold len. cbn [length]. lia.
Qed.

Lemma present_sections_count xs :
  foldr Z.add 0 ((λ k, len (section_members k xs)) <$> present_sections xs)
  = len (filter valid_state xs).
Proof.
  unfold len at 2. rewrite <- (Permutation_length (sections_known xs)), !length_app.
  unfold present_sections. rewrite !filter_cons, filter_nil.
  repeat case_decide; cbn [fmap list_fmap foldr].
  all: repeat match goal with H : _ = [] |- _ => rewrite H; clear H end.
  all: unfold len; cbn [length]; lia.
Qed.

(** X4. The height of the roster image in closed form: 170 pixels for the
    header and the search bar, 80 for every section that has a member and
    66 for every record whose state is one of 0..6; the width is 400. *)
Theorem roster_height parent_avatar parent_name data (h : heap) xs :
  h !! data = Some xs →
  ∃ im h',
    draw_friends_status parent_avatar parent_name data h = Ok (im, h')
    ∧ size im = (400, 170 + 80 * len (present_sections xs)
                      + 66 * len (filter valid_state xs)).
Proof.
  intros Hdata.
  destruct (draw_friends_status_run parent_avatar parent_name data h xs Hdata)
    as (im & h' & sections & Hrun & _ & Hsec & Hsize & _).
  exists im, h'. split; [done|]. rewrite Hsize.
  rewrite (total_height_sections xs _ _ Hsec), present_sections_count.
  unfold WIDTH. f_equal. lia.
Qed.

(** X5. With an empty list, which is what the commands of main.py pass,
    the roster image is the 400x170 header with the search bar below it:
    no section and no separator are drawn, and the caller's list is still
    empty. *)
Theorem roster_of_nobody parent_avatar parent_name data (h : heap) :
  h !! data = Some [] →
  ∃ im h',
    draw_friends_status parent_avatar parent_name data h = Ok (im, h')
    ∧ size im = (400, 170)
    ∧ pasted im = [(draw_parent_status parent_avatar parent_name, (0, 0));
                   (draw_friends_search, (0, 120))]
    ∧ rectangles im = []
    ∧ h' !! data = Some [].
Proof.
  intros Hdata.
  destruct (draw_friends_status_run parent_avatar parent_name data h [] Hdata)
    as (im & h' & sections & Hrun & [Hd _] & Hsec & Hsize & Hpasted & Hrect).
  change (present_sections []) with (@nil SectionKind) in Hsec.
  apply Forall2_nil_inv_l in Hsec. subst sections.
  exists im, h'. by repeat split.
Qed.

(** ** The section renderers called on their own *)

Lemma draw_friend_cases d :
  (valid_state d ∧ ∃ im, draw_friend d = Ok im)
  ∨ (¬ valid_state d ∧ draw_friend d = Err KeyError).
Proof.
  destruct (decide (valid_state d)) as [Hv|Hv].
  - left. split; [done|]. by apply draw_friend_ok.
  - right. split; [done|]. by apply draw_friend_status_KeyError.
Qed.

Lemma result_mapM_draw_friend_err (members : list Friend) :
  ¬ Forall valid_state members → result_mapM draw_friend members = Err KeyError.
Proof.
  induction members as [|d members IH]; intros Hn.
  - destruct Hn. constructor.
  - cbn [result_mapM]. destruct (draw_friend_cases d) as [[Hv [im ->]]|[_ ->]]; [|done].
    cbn [result_bind]. rewrite IH; [done|]. intros Hall. apply Hn. by constructor.
Qed.

Lemma texts_paste_rows_from canvas rows i :
  texts (foldl (λ canvas '(i, status_image),
                  paste canvas status_image (0, 64 + (MEMBER_AVATAR_SIZE + 16) * i))
               canvas (enumerate_from i rows))
  = texts canvas.
Proof.
  revert canvas i. induction rows as [|r rows IH]; intros canvas i; [done|].
  cbn [enumerate_from foldl]. by rewrite IH.
Qed.

Lemma texts_paste_rows canvas rows : texts (paste_rows canvas rows) = texts canvas.
Proof. apply texts_paste_rows_from. Qed.

(** X6. The three section renderers on a list of their own.  When every
    record has a state in 0..6 each returns its section: the title, and
    for the online and the offline section the number of records in
    brackets after it (the gaming section shows no count); the gaming
    renderer leaves the list it was given sorted by status text, the other
    two leave it as it was.  When some record has another state, each of
    the three raises KeyError. *)
Theorem section_renderers l (h : heap) xs :
  h !! l = Some xs →
  (Forall valid_state xs →
   (∃ im, draw_gaming_friends_status l h = Ok (im, <[l := list_sort status str_leb xs]> h)
          ∧ texts im = [STR_GAMING_TITLE]
          ∧ size im = (400, 80 + 66 * len xs))
   ∧ (∃ im, draw_online_friends_status l h = Ok (im, h)
            ∧ texts im = [STR_ONLINE_TITLE; lit "(" ++ str_of_int (len xs) ++ lit ")"]
            ∧ size im = (400, 80 + 66 * len xs))
   ∧ (∃ im, draw_offline_friends_status l h = Ok (im, h)
            ∧ texts im = [STR_OFFLINE_TITLE; lit "(" ++ str_of_int (len xs) ++ lit ")"]
            ∧ size im = (400, 80 + 66 * len xs)))
  ∧ (¬ Forall valid_state xs →
     draw_gaming_friends_status l h = Err KeyError
     ∧ draw_online_friends_status l h = Err KeyError
     ∧ draw_offline_friends_status l h = Err KeyError).
Proof.
  intros Hl. split.
  - intros Hv.
    destruct (rows_of_members xs Hv) as (rows & Hrows & _).
    destruct (rows_of_members (list_sort status str_leb xs)) as (srows & Hsrows & _).
    { by apply list_sort_Forall. }
    unfold draw_gaming_friends_status, draw_online_friends_status,
      draw_offline_friends_status, py_bind, list_sort_in_place, list_items, py_lift, py_ret.
    rewrite Hl, lookup_insert_eq, Hrows, Hsrows.
    assert (len (list_sort status str_leb xs) = len xs) as Hlen
        by (unfold len; by rewrite list_sort_length).
    split; [|split]; eexists; (split; [reflexivity|]);
      rewrite texts_paste_rows; (split; [reflexivity|]);
      match goal with |- context [paste_rows ?c ?r] =>
        destruct (paste_rows_spec c r) as (-> & _) end;
      cbn [size]; rewrite ?Hlen; unfold WIDTH, MEMBER_AVATAR_SIZE; f_equal; lia.
  - intros Hn.
    unfold draw_gaming_friends_status, draw_online_friends_status,
      draw_offline_friends_status, py_bind, list_sort_in_place, list_items, py_lift, py_ret.
    rewrite Hl, lookup_insert_eq.
    rewrite (result_mapM_draw_friend_err xs Hn).
    rewrite (result_mapM_draw_friend_err (list_sort status str_leb xs)); [done|].
    intros Hall. apply Hn. rewrite Forall_forall in Hall |- *.
    intros d Hd. apply Hall. by apply list_sort_elem_of.
Qed.

(** ** Section and colour *)

Lemma in_gaming_data_in_game d :
  in_gaming_data d → in_game_row (personastate d) (status d).
Proof.
  unfold in_gaming_data, in_game_row. rewrite !elem_of_cons, elem_of_nil.
  intros [[E H]|[[E H]|[E H]]]; [left|right|left]; (split; [lia|done]).
Qed.

Lemma in_offline_data_not_in_game d :
  in_offline_data d → ¬ in_game_row (personastate d) (status d).
Proof.
  unfold in_offline_data, in_game_row. rewrite !elem_of_cons, elem_of_nil.
  intros E [[H _]|[H _]]; lia.
Qed.

Lemma in_online_data_in_game d :
  in_online_data d →
  in_game_row (personastate d) (status d) ↔ personastate d = 2 ∧ status d ≠ STR_ONLINE.
Proof.
  unfold in_online_data, in_game_row. rewrite !elem_of_cons, !elem_of_nil.
  intros Ho. split.
  - intros [[Hp Hst]|[Hp Hst]]; destruct Ho as [[E H]|[[E H]|[[E H]|E]]];
      try congruence; try lia.
    split; [lia|done].
  - intros [E Hst]. left. split; [lia|done].
Qed.

(** X7. How the section of a record and the colours of its row go
    together.  Every row of the Gaming section is drawn in the in-game
    colours and no row of the Offline section is.  A row of the Online
    section is drawn in the in-game colours exactly when the member is Busy
    (state 2) with a status text other than the label of an online member:
    a Busy member who is in a game is listed under Online, not under
    Gaming, yet drawn like a member in a game. *)
Theorem section_and_colour d xs :
  d ∈ xs → valid_state d →
  ∃ row,
    draw_friend d = Ok row
    ∧ text_fill <$> drawn_texts row
      = [(display_name_of (name d) (nickname d), (row_colors (personastate d) (status d)).1);
         (status d, (row_colors (personastate d) (status d)).2)]
    ∧ (d ∈ section_members Gaming xs →
       row_colors (personastate d) (status d) = in_game_colors)
    ∧ (d ∈ section_members Offline xs →
       row_colors (personastate d) (status d) = idle_colors 0)
    ∧ (d ∈ section_members Online xs →
       (personastate d = 2 ∧ status d ≠ STR_ONLINE →
        row_colors (personastate d) (status d) = in_game_colors)
       ∧ (¬ (personastate d = 2 ∧ status d ≠ STR_ONLINE) →
          row_colors (personastate d) (status d) = idle_colors (personastate d))).
Proof.
  intros Hd Hv.
  destruct (draw_friend_status_run (avatar d) (name d) (status d) (personastate d)
              (nickname d) Hv) as (row & Hrow & _ & Ht & _).
  exists row. split; [exact Hrow|]. split; [by rewrite Ht|].
  unfold row_colors. split; [|split].
  - intros [_ Hg]%elem_of_section_members.
    rewrite decide_True; [done|]. by apply in_gaming_data_in_game.
  - intros [_ Ho]%elem_of_section_members.
    rewrite decide_False by (by apply in_offline_data_not_in_game).
    cbn [in_section] in Ho. unfold in_offline_data in Ho. by rewrite Ho.
  - intros [_ Ho]%elem_of_section_members. split; intros Hb.
    + rewrite decide_True; [done|]. by apply in_online_data_in_game.
    + rewrite decide_False; [done|]. by rewrite in_online_data_in_game.
Qed.

(** ** The progress bar *)

Lemma rounded_rectangle_size image radius border border_width border_color :
  size (rounded_rectangle image radius border border_width border_color)
  = ((size image).1 + 1, (size image).2 + 1).
Proof.
  unfold rounded_rectangle. destruct (size image) as [w hh]. by destruct border.
Qed.

(** The image that create_progress_bar returns is one pixel wider and one
    pixel higher than the width and the height asked for. *)
Lemma create_progress_bar_size progress color width height :
  size (create_progress_bar progress color width height) = (width + 1, height + 1).
Proof.
  unfold create_progress_bar. destruct color as [[r g] b].
  destruct (rgb_to_hsv (inject_Z r) (inject_Z g) (inject_Z b)) as [[hh s] v].
  cbn [size]. by rewrite rounded_rectangle_size.
Qed.

Lemma fill_width_mono (p q : Q) width :
  0 ≤ width → (p <= q)%Q → fill_width p width ≤ fill_width q width.
Proof.
  intros Hw Hpq. unfold fill_width.
  enough (int_of_float (inject_Z width * p) ≤ int_of_float (inject_Z width * q)) by lia.
  apply int_of_float_mono. rewrite !(Qmult_comm (inject_Z width)).
  apply Qmult_le_compat_r; [done|].
  change 0%Q with (inject_Z 0). by rewrite <- Zle_Qle.
Qed.

(** X8. The bar and its filled part.  The image returned is one pixel
    wider and one pixel higher than the width and the height asked for
    (187x17 by default).  The filled part follows the progress and, for a
    progress between 0 and 1, stays inside the bar: a larger progress never
    gives a narrower fill, and on a bar wider than 6 and higher than 4
    pixels the fill pasted at (3, 2) ends at least 2 pixels before the
    right edge and 1 pixel before the bottom edge of the bar asked for. *)
Theorem progress_bar_fill_inside progress color width height :
  (0 <= progress)%Q → (progress <= 1)%Q → 6 < width → 4 < height →
  size (create_progress_bar progress color width height) = (width + 1, height + 1)
  ∧ (∀ q, (progress <= q)%Q → fill_width progress width ≤ fill_width q width)
  ∧ ∃ fill,
      last (pasted (create_progress_bar progress color width height)) = Some (fill, (3, 2))
      ∧ 3 + (size fill).1 ≤ width - 2
      ∧ 2 + (size fill).2 ≤ height - 1.
Proof.
  intros H0 H1 Hw Hh. split; [apply create_progress_bar_size|]. split.
  { intros q Hq. apply fill_width_mono; [lia|done]. }
  destruct (create_progress_bar_pasted progress color width height)
    as (top & bottom & Hlast).
  eexists. split; [exact Hlast|]. rewrite rounded_rectangle_size.
  assert (fill_width progress width ≤ width - 6) as Hfw.
  { rewrite <- fill_width_1. apply fill_width_mono; [lia|done]. }
  destruct (decide (0 < fill_width progress width)) as [Hpos|Hneg].
  - rewrite create_vertical_gradient_rect_size by lia. simpl. lia.
  - rewrite create_vertical_gradient_rect_degenerate by lia. simpl. lia.
Qed.

(** ** The title block *)

(** X9. When either count is missing draw_game_info returns the upper
    880x110 pixels of the block: the header picture, scaled to 229x86, at
    (10, 12), and the three texts; no achievement strip is drawn, also
    when achievements are passed, and the call does not fail. *)
Theorem draw_game_info_without_counts header game_name game_time last_play_time
    achievements completed total achievement_color :
  completed = None ∨ total = None →
  ∃ bg,
    draw_game_info header game_name game_time last_play_time achievements
      completed total achievement_color = Ok (crop bg (0, 0, 880, 110))
    ∧ size (crop bg (0, 0, 880, 110)) = (880, 110)
    ∧ pasted bg = [(resize header (229, 86) BICUBIC, (10, 12))]
    ∧ texts bg = [game_name; last_play_time; STR_TOTAL_HOURS ++ game_time].
Proof.
  intros Hn. unfold draw_game_info. cbv zeta.
  eexists. split; [by destruct Hn as [-> | ->]; [|destruct completed]|].
  by repeat split.
Qed.

Lemma achievement_icons_fold (achievements : list Achievements) strip x i :
  x = 512 + 58 * i →
  let res :=
    foldl (λ '(achievement_bg, x) achievement,
             let achievement_image :=
               resize (Image_open_bytes (ach_image achievement)) (48, 48)
                 RESAMPLE_DEFAULT in
             (paste achievement_bg achievement_image (x, 8), x + (48 + 10)))
          (strip, x) achievements in
  res.2 = 512 + 58 * (i + len achievements)
  ∧ size res.1 = size strip
  ∧ texts res.1 = texts strip
  ∧ rectangles res.1 = rectangles strip
  ∧ pasted res.1
    = pasted strip
      ++ ((λ '(i, a), (resize (Image_open_bytes (ach_image a)) (48, 48) RESAMPLE_DEFAULT,
                       (512 + 58 * i, 8))) <$> enumerate_from i achievements).
Proof.
  revert strip x i. induction achievements as [|a achievements IH]; intros strip x i Hx.
  - simpl. rewrite app_nil_r. unfold len. simpl. repeat split; lia.
  - cbn [foldl enumerate_from fmap list_fmap].
    edestruct (IH (paste strip (resize (Image_open_bytes (ach_image a)) (48, 48)
                                  RESAMPLE_DEFAULT) (x, 8)) (x + (48 + 10)) (i + 1))
      as (Hx' & Hs & Ht & Hr & Hp); [lia|].
    cbv zeta in *. rewrite Hx', Hs, Ht, Hr, Hp. cbn [size texts rectangles pasted].
    rewrite <- app_assoc. subst x. unfold len. cbn [length]. repeat split. lia.
Qed.

(** X10. The achievement strip of a title block whose total is not 0:
    860x64 pixels, pasted at (10, 110); on it the progress bar of
    completed/total at height 24, the icons of the achievements passed, 48x48
    each, from x = 512 on in steps of 58, and, when more than six
    achievements are completed, a dark box after the last icon with the
    text "+N", N being the completed number less 5 however many icons
    were passed. *)
Theorem achievement_strip_layout header game_name game_time last_play_time
    achievements completed total achievement_color :
  total ≠ 0 →
  ∃ bg strip bar_x,
    draw_game_info header game_name game_time last_play_time achievements
      (Some completed) (Some total) achievement_color
    = Ok (paste_mask bg strip (10, 110) strip)
    ∧ size strip = (860, 64)
    ∧ pasted strip
      = (create_progress_bar (inject_Z completed / inject_Z total)%Q achievement_color
           186 16, (bar_x, 24))
        :: achievement_icons achievements
    ∧ rectangles strip
      = (if 6 <? completed
         then [(512 + 58 * len achievements, 8, 512 + 58 * len achievements + 48, 56)]
         else [])
    ∧ texts strip
      = [STR_ACH_PROGRESS; achievement_counter completed total]
        ++ (if 6 <? completed then [lit "+" ++ str_of_int (completed - 5)] else []).
Proof.
  intros Ht. unfold draw_game_info, truediv. cbv zeta.
  destruct achievement_color as [[cr cg] cb].
  destruct (Z.eqb_spec total 0) as [|_]; [done|]. cbn [result_bind].
  match goal with
  | |- context [foldl ?f (?strip0, ?x0) achievements] =>
      destruct (achievement_icons_fold achievements strip0 x0 0 eq_refl)
        as (Hx & Hs & Htx & Hr & Hp);
      destruct (foldl f (strip0, x0) achievements) as [strip x] eqn:E
  end.
  cbn [fst snd] in Hx, Hs, Htx, Hr, Hp. rewrite Z.add_0_l in Hx. subst x.
  eexists _, _, _. split; [reflexivity|].
  destruct (6 <? completed); cbn [size pasted rectangles texts];
    rewrite ?Hs, ?Hp, ?Hr, ?Htx; by repeat split.
Qed.

(** ** Average colours and tiles *)

Lemma elem_of_bm_pixels (a : Bitmap) p :
  p ∈ bm_pixels a ↔
  ∃ x y, 0 ≤ x < bm_width a ∧ 0 ≤ y < bm_height a ∧ p = bm_pixel a x y.
Proof.
  unfold bm_pixels. rewrite list_elem_of_bind. split.
  - intros (y & Hp & Hy). apply list_elem_of_bind in Hp as (x & Hp & Hx).
    apply list_elem_of_singleton in Hp. apply elem_of_seqZ in Hx, Hy.
    exists x, y. split; [lia|]. split; [lia|done].
  - intros (x & y & Hx & Hy & ->). exists y. split; [|apply elem_of_seqZ; lia].
    apply list_elem_of_bind. exists x. split; [|apply elem_of_seqZ; lia].
    by apply list_elem_of_singleton.
Qed.

Lemma zip_with_add_between m lo hi (acc p : Color) :
  Forall (λ s, m * lo ≤ s ≤ m * hi) acc → Forall (λ c, lo ≤ c ≤ hi) p →
  Forall (λ s, (m + 1) * lo ≤ s ≤ (m + 1) * hi) (zip_with Z.add acc p).
Proof.
  intros Hacc. revert p. induction Hacc as [|s acc Hs _ IH]; intros [|c p] Hp; simpl;
    try constructor.
  - apply Forall_cons in Hp as [Hc _]. simpl in Hs, Hc. nia.
  - apply Forall_cons in Hp as [_ Hp]. by apply IH.
Qed.

(** The channel sums of [m] pixels lie between [m * lo] and [m * hi]. *)
Lemma channel_sums_between k lo hi (ps : list Color) (acc : Color) m :
  length acc = k → Forall (λ s, m * lo ≤ s ≤ m * hi) acc →
  Forall (λ p, length p = k ∧ Forall (λ c, lo ≤ c ≤ hi) p) ps →
  let total := foldl (zip_with Z.add) acc ps in
  length total = k ∧ Forall (λ s, (m + len ps) * lo ≤ s ≤ (m + len ps) * hi) total.
Proof.
  intros Hk Hacc Hps. revert acc m Hk Hacc.
  induction Hps as [|p ps [Hpk Hp] _ IH]; intros acc m Hk Hacc.
  - simpl. split; [done|]. eapply Forall_impl; [exact Hacc|].
    intros s Hs. simpl in Hs. unfold len. simpl. lia.
  - cbn [foldl]. destruct (IH (zip_with Z.add acc p) (m + 1)) as [Hl Hb].
    + rewrite length_zip_with. lia.
    + by apply zip_with_add_between.
    + split; [done|]. eapply Forall_impl; [exact Hb|].
      intros s Hs. unfold len in *. cbv beta in *. cbn [length]. lia.
Qed.

Lemma Forall_between_eq (v : Z) (l1 l2 : list Z) :
  length l1 = length l2 →
  Forall (λ c, v ≤ c ≤ v) l1 → Forall (λ c, v ≤ c ≤ v) l2 → l1 = l2.
Proof.
  revert l2. induction l1 as [|a l1 IH]; intros [|b l2] Hlen H1 H2; try done.
  apply Forall_cons in H1 as [Ha H1]. apply Forall_cons in H2 as [Hb H2].
  simpl in *. f_equal; [lia|]. apply IH; [lia|done|done].
Qed.

(** X11. The average colour lies between the pixels: when every pixel of
    a photo that is not empty has [k] channels with values between [lo]
    and [hi] (channel values are not negative), get_average_color returns
    [k] channels with values between [lo] and [hi]; the average of a photo
    of one colour is that colour. *)
Theorem get_average_color_between (image : Bitmap) (k : nat) lo hi :
  0 < bm_width image → 0 < bm_height image → 0 ≤ lo →
  (∀ x y, 0 ≤ x < bm_width image → 0 ≤ y < bm_height image →
     length (bm_pixel image x y) = k ∧ Forall (λ c, lo ≤ c ≤ hi) (bm_pixel image x y)) →
  ∃ average,
    get_average_color image = Ok average
    ∧ length average = k
    ∧ Forall (λ c, lo ≤ c ≤ hi) average
    ∧ (lo = hi → ∀ x y, 0 ≤ x < bm_width image → 0 ≤ y < bm_height image →
         average = bm_pixel image x y).
Proof.
  intros Hw Hh _ Hpix.
  assert (Forall (λ p, length p = k ∧ Forall (λ c, lo ≤ c ≤ hi) p) (bm_pixels image)) as Hall.
  { apply Forall_forall. intros p (x & y & Hx & Hy & ->)%elem_of_bm_pixels. by apply Hpix. }
  unfold get_average_color.
  destruct (bm_pixels image) as [|p ps] eqn:E.
  { destruct (bm_pixels_cons image Hw Hh) as (p & ps & E'). congruence. }
  apply Forall_cons in Hall as [[Hpk Hp] Hps].
  destruct (channel_sums_between k lo hi ps p 1) as [Hl Hb]; [done| |done|].
  { eapply Forall_impl; [exact Hp|]. intros c Hc. simpl in *. lia. }
  cbv zeta in Hl, Hb.
  assert (len (p :: ps) = 1 + len ps) as Hn by (unfold len; cbn [length]; lia).
  assert (0 < len (p :: ps)) as Hpos by (unfold len; cbn [length]; lia).
  assert (Forall (λ c, lo ≤ c ≤ hi)
            ((λ s, s / len (p :: ps)) <$> foldl (zip_with Z.add) p ps)) as Havg.
  { apply Forall_fmap. eapply Forall_impl; [exact Hb|]. intros s Hs. simpl in *.
    rewrite <- Hn in Hs. split.
    - apply Z.div_le_lower_bound; lia.
    - apply Z.div_le_upper_bound; lia. }
  eexists. split; [reflexivity|]. split; [by rewrite length_fmap|]. split; [exact Havg|].
  intros -> x y Hx Hy. destruct (Hpix x y Hx Hy) as [Hlen Hval].
  apply (Forall_between_eq hi); [|done|done].
  by rewrite length_fmap, Hl, Hlen.
Qed.

(** X12. split_image cuts the photo into [rows * cols] tiles of one size,
    the photo's width and height divided (rounding down) by [cols] and
    [rows], in row-major order: pixel (x, y) of tile [i] is the photo's
    pixel (x, y) counted from the corner of column [i mod cols] and row
    [i / cols], which always lies in the photo.  With no rows or no
    columns the division raises ZeroDivisionError. *)
Theorem split_image_tiles (image : Bitmap) rows cols :
  (1 ≤ rows → 1 ≤ cols →
   ∃ pieces,
     split_image image rows cols
     = Ok (pieces, bm_width image / cols, bm_height image / rows)
     ∧ len pieces = rows * cols
     ∧ ∀ i, 0 ≤ i < rows * cols →
         ∃ piece,
           pieces !! Z.to_nat i = Some piece
           ∧ bm_width piece = bm_width image / cols
           ∧ bm_height piece = bm_height image / rows
           ∧ ∀ x y, 0 ≤ x < bm_width piece → 0 ≤ y < bm_height piece →
               0 ≤ (i mod cols) * bm_width piece + x < bm_width image
               ∧ 0 ≤ (i / cols) * bm_height piece + y < bm_height image
               ∧ bm_pixel piece x y
                 = bm_pixel image ((i mod cols) * bm_width piece + x)
                     ((i / cols) * bm_height piece + y))
  ∧ (rows = 0 ∨ cols = 0 → split_image image rows cols = Err ZeroDivisionError).
Proof.
  split.
  - intros Hr Hc. rewrite split_image_run by done.
    set (pw := bm_width image / cols). set (ph := bm_height image / rows).
    eexists. split; [reflexivity|]. split.
    { unfold len. rewrite length_fmap, length_seqZ. lia. }
    intros i Hi. eexists. split.
    { rewrite list_lookup_fmap.
      rewrite (proj2 (lookup_seqZ 0 (rows * cols) (Z.to_nat i) i)) by lia.
      reflexivity. }
    unfold tile_box. cbn [bm_crop bm_width bm_height bm_pixel].
    replace ((i mod cols + 1) * pw - i mod cols * pw) with pw by lia.
    replace ((i / cols + 1) * ph - i / cols * ph) with ph by lia.
    split; [done|]. split; [done|].
    intros x y Hx Hy.
    assert (0 ≤ i mod cols < cols) as Hcol by (apply Z.mod_pos_bound; lia).
    assert (0 ≤ i / cols < rows) as Hrow.
    { split; [apply Z.div_pos; lia|]. apply Z.div_lt_upper_bound; lia. }
    assert (cols * pw ≤ bm_width image) as Hwid by (apply Z.mul_div_le; lia).
    assert (rows * ph ≤ bm_height image) as Hhei by (apply Z.mul_div_le; lia).
    assert (0 ≤ i mod cols * pw + x < bm_width image) as Hx' by nia.
    assert (0 ≤ i / cols * ph + y < bm_height image) as Hy' by nia.
    split; [done|]. split; [done|].
    destruct (Z.leb_spec 0 (i mod cols * pw + x)); [|lia].
    destruct (Z.ltb_spec (i mod cols * pw + x) (bm_width image)); [|lia].
    destruct (Z.leb_spec 0 (i / cols * ph + y)); [|lia].
    destruct (Z.ltb_spec (i / cols * ph + y) (bm_height image)); [|lia].
    done.
  - intros Hz. unfold split_image, floordiv.
    destruct (Z.eqb_spec cols 0) as [|Hc]; [done|]. cbn [result_bind].
    destruct (Z.eqb_spec rows 0) as [|Hr]; [done|]. lia.
Qed.

(** X13. On a grid of square tiles recolor_image paints what its names
    say: on a canvas of the photo's size, filled with the photo's average
    colour, one circle for every tile, inscribed in the tile (its box is
    the tile's, corner at column [i mod cols] and row [i / cols] times the
    side) and filled with the tile's average colour. *)
Theorem recolor_image_square_tiles (image : Bitmap) rows cols side :
  1 ≤ rows ≤ bm_height image → 1 ≤ cols ≤ bm_width image →
  bm_width image / cols = side → bm_height image / rows = side →
  ∃ im total,
    recolor_image image rows cols = Ok im
    ∧ size im = (bm_width image, bm_height image)
    ∧ get_average_color image = Ok total
    ∧ canvas_of im = Image_new RGB (bm_width image, bm_height image) total
    ∧ Forall2
        (λ i e, ∃ c,
           get_average_color
             (bm_crop image ((i mod cols) * side, (i / cols) * side,
                             (i mod cols + 1) * side, (i / cols + 1) * side)) = Ok c
           ∧ e = (draw_ellipse (Image_new RGBA (side, side) [0; 0; 0; 0])
                    (0, 0, side, side) c,
                  ((i mod cols) * side, (i / cols) * side)))
        (seqZ 0 (rows * cols)) (pasted im).
Proof.
  intros Hr Hc Hw Hh.
  destruct (recolor_image_run image rows cols Hr Hc)
    as (im & total & Hrun & Hs & Ht & Hcv & Hall).
  rewrite Hw, Hh in Hall.
  exists im, total. split; [done|]. split; [done|]. split; [done|]. split; [done|].
  eapply Forall2_impl; [exact Hall|]. intros i e (c & Hcol & ->). exists c.
  split; [exact Hcol|]. by rewrite blob_corner_square.
Qed.

(** ** The brightest and the darkest vivid colour *)

Lemma argmax_by_spec {A : Type} (key : A → Z) (l : list A) b :
  argmax_by key l = Some b → b ∈ l ∧ ∀ q, q ∈ l → key q ≤ key b.
Proof.
  destruct l as [|p ps]; [done|]. simpl. intros [= <-].
  assert (∀ best, let r := foldl (λ best q, if key best <? key q then q else best) best ps in
                  (r = best ∨ r ∈ ps) ∧ key best ≤ key r ∧ ∀ q, q ∈ ps → key q ≤ key r) as H.
  { induction ps as [|q ps IH]; intros best; simpl.
    - split; [by left|]. split; [lia|]. intros q Hq. by apply elem_of_nil in Hq.
    - destruct (IH (if key best <? key q then q else best)) as (Hin & Hle & Hall).
      simpl in *. destruct (Z.ltb_spec (key best) (key q)).
      + split; [right; destruct Hin as [->|]; [left|by right]|].
        split; [lia|]. intros q' [->|Hq']%elem_of_cons; [done|by apply Hall].
      + split; [destruct Hin as [->|]; [by left|right; by right]|].
        split; [done|]. intros q' [->|Hq']%elem_of_cons; [lia|by apply Hall]. }
  destruct (H p) as (Hin & Hle & Hall). simpl in *. split.
  - destruct Hin as [->|]; [left|by right].
  - intros q [->|Hq]%elem_of_cons; [done|by apply Hall].
Qed.

Lemma argmin_by_spec {A : Type} (key : A → Z) (l : list A) d :
  argmin_by key l = Some d → d ∈ l ∧ ∀ q, q ∈ l → key d ≤ key q.
Proof.
  destruct l as [|p ps]; [done|]. simpl. intros [= <-].
  assert (∀ best, let r := foldl (λ best q, if key q <? key best then q else best) best ps in
                  (r = best ∨ r ∈ ps) ∧ key r ≤ key best ∧ ∀ q, q ∈ ps → key r ≤ key q) as H.
  { induction ps as [|q ps IH]; intros best; simpl.
    - split; [by left|]. split; [lia|]. intros q Hq. by apply elem_of_nil in Hq.
    - destruct (IH (if key q <? key best then q else best)) as (Hin & Hle & Hall).
      simpl in *. destruct (Z.ltb_spec (key q) (key best)).
      + split; [right; destruct Hin as [->|]; [left|by right]|].
        split; [lia|]. intros q' [->|Hq']%elem_of_cons; [done|by apply Hall].
      + split; [destruct Hin as [->|]; [by left|right; by right]|].
        split; [done|]. intros q' [->|Hq']%elem_of_cons; [lia|by apply Hall]. }
  destruct (H p) as (Hin & Hle & Hall). simpl in *. split.
  - destruct Hin as [->|]; [left|by right].
  - intros q [->|Hq]%elem_of_cons; [done|by apply Hall].
Qed.

(** X14. What get_brightest_and_darkest_color returns when it returns.
    The saturation threshold used is the first of [threshold],
    [threshold - 10], [threshold - 20], ... that leaves at least ten vivid
    pixels.  The brightest colour is a vivid pixel [b] of the largest value,
    converted back to RGB.  The darkest colour comes from a vivid pixel
    [d0] of the smallest value, unless the hues of [b] and [d0] differ by
    less than the hue threshold and some vivid pixel has another hue than
    [b]: then it comes from a pixel of the smallest value among the vivid
    pixels whose hue is not that of [b].  The hue threshold is the one
    passed only when no retry was needed, and 30 after a retry. *)
Theorem vivid_extremes_are_pixels depth (image : Bitmap)
    saturation_threshold hue_difference_threshold brightest_color darkest_color :
  get_brightest_and_darkest_color depth image saturation_threshold
    hue_difference_threshold = Ok (brightest_color, darkest_color) →
  ∃ (n : nat) b d0 d,
    let vivid := vivid_at image (saturation_threshold - 10 * Z.of_nat n) in
    let others := filter (λ p, hsv_hue p ≠ hsv_hue b) vivid in
    let close :=
      Z.abs (hsv_hue b - hsv_hue d0) < hue_threshold_after n hue_difference_threshold in
    (∀ m : nat, (m < n)%nat →
       len (vivid_at image (saturation_threshold - 10 * Z.of_nat m)) < 10)
    ∧ 10 ≤ len vivid
    ∧ brightest_color = pixel_HSV_to_RGB b
    ∧ darkest_color = pixel_HSV_to_RGB d
    ∧ b ∈ vivid ∧ (∀ p, p ∈ vivid → hsv_value p ≤ hsv_value b)
    ∧ d0 ∈ vivid ∧ (∀ p, p ∈ vivid → hsv_value d0 ≤ hsv_value p)
    ∧ (close ∧ others ≠ [] → d ∈ others ∧ ∀ p, p ∈ others → hsv_value d ≤ hsv_value p)
    ∧ (¬ (close ∧ others ≠ []) → d = d0).
Proof.
  revert saturation_threshold hue_difference_threshold.
  induction depth as [|depth IH]; intros sat hue Hret; [done|].
  cbn [get_brightest_and_darkest_color] in Hret. fold (vivid_at image sat) in Hret.
  destruct (Z.ltb_spec (len (vivid_at image sat)) 10) as [Hfew|Hmany].
  - destruct (IH _ _ Hret) as (n & b & d0 & d & Hfirst & Hrest).
    exists (S n), b, d0, d. cbv zeta in *.
    replace (sat - 10 * Z.of_nat (S n)) with (sat - 10 - 10 * Z.of_nat n) by lia.
    assert (hue_threshold_after (S n) hue = hue_threshold_after n 30) as ->
      by (by destruct n).
    split; [|exact Hrest].
    intros [|m] Hm.
    + by replace (sat - 10 * Z.of_nat 0) with sat by lia.
    + replace (sat - 10 * Z.of_nat (S m)) with (sat - 10 - 10 * Z.of_nat m) by lia.
      apply Hfirst. lia.
  - destruct (argmax_by hsv_value (vivid_at image sat)) as [b|] eqn:Eb; [|done].
    destruct (argmin_by hsv_value (vivid_at image sat)) as [d0|] eqn:Ed; [|done].
    apply argmax_by_spec in Eb as [Hb Hbmax]. apply argmin_by_spec in Ed as [Hd0 Hd0min].
    injection Hret as <- <-.
    exists 0%nat, b, d0. replace (sat - 10 * Z.of_nat 0) with sat by lia.
    cbn [hue_threshold_after]. cbv zeta.
    destruct (Z.ltb_spec (Z.abs (hsv_hue b - hsv_hue d0)) hue) as [Hclose|Hfar].
    + destruct (argmin_by hsv_value
                  (filter (λ p, hsv_hue p ≠ hsv_hue b) (vivid_at image sat))) as [d|] eqn:Ed.
      * apply argmin_by_spec in Ed as [Hd Hdmin].
        exists d. split; [intros m Hm; lia|]. do 7 (split; [done|]).
        split; [done|]. intros Hn. destruct Hn. split; [done|].
        intros E. rewrite E in Hd. by apply elem_of_nil in Hd.
      * exists d0. split; [intros m Hm; lia|]. do 7 (split; [done|]).
        assert (filter (λ p, hsv_hue p ≠ hsv_hue b) (vivid_at image sat) = []) as Hnone.
        { destruct (filter _ _); [done|discriminate Ed]. }
        split; [|done]. intros [_ Hne]. by destruct Hne.
    + exists d0. split; [intros m Hm; lia|]. do 7 (split; [done|]).
      split; [|done]. intros [Hc _]. lia.
Qed.

(** ** Stacking images *)

Lemma foldl_add_foldr (a : Z) (l : list Z) : foldl Z.add a l = a + foldr Z.add 0 l.
Proof.
  revert a. induction l as [|x l IH]; intros a; simpl; [lia|]. rewrite IH. lia.
Qed.

Lemma foldl_max_spec (a : Z) (l : list Z) :
  let m := foldl Z.max a l in
  a ≤ m ∧ Forall (λ x, x ≤ m) l ∧ (m = a ∨ m ∈ l).
Proof.
  revert a. induction l as [|x l IH]; intros a; simpl.
  - split; [lia|]. split; [constructor|by left].
  - destruct (IH (Z.max a x)) as (Hle & Hall & Hin). simpl in *.
    split; [lia|]. split; [constructor; [lia|done]|].
    destruct Hin as [Hm|Hm]; [|right; by right].
    destruct (Z.max_spec a x) as [[_ E]|[_ E]]; rewrite E in Hm |- *.
    + right. rewrite Hm. by left.
    + by left.
Qed.

Lemma stack_from (images : list Image) canvas y :
  let res :=
    foldl (λ '(new_image, y_offset) image,
             (paste new_image image (0, y_offset), y_offset + height image))
          (canvas, y) images in
  size res.1 = size canvas
  ∧ pasted res.1 = pasted canvas ++ zip images ((λ t, (0, t)) <$> section_tops y images).
Proof.
  revert canvas y. induction images as [|im images IH]; intros canvas y; simpl.
  - by rewrite app_nil_r.
  - destruct (IH (paste canvas im (0, y)) (y + height im)) as [Hs Hp].
    simpl in *. rewrite Hs, Hp. by rewrite <- app_assoc.
Qed.

(** X15. vertically_concatenate_images needs an image: on the empty list
    the unpacking of the sizes raises ValueError.  Otherwise the canvas is
    as high as the images together and as wide as the widest of them, and
    the images are pasted at the left edge, the first at the top and every
    other one directly below the one before. *)
Theorem vertically_concatenate_images_stack (images : list Image) :
  (images = [] ↔ vertically_concatenate_images images = Err ValueError)
  ∧ (images ≠ [] ↔
     ∃ im,
       vertically_concatenate_images images = Ok im
       ∧ pasted im = zip images ((λ t, (0, t)) <$> section_tops 0 images)
       ∧ height im = total_height images
       ∧ Forall (λ i, width i ≤ width im) images
       ∧ ∃ widest, widest ∈ images ∧ width im = width widest).
Proof.
  destruct images as [|first rest].
  { split; split; try done. by intros (im & Him & _). }
  split; split; try done. intros _.
  unfold vertically_concatenate_images. cbv zeta.
  match goal with |- context [foldl ?f (?c, 0) (first :: rest)] =>
    destruct (stack_from (first :: rest) c 0) as [Hs Hp];
    set (im := (foldl f (c, 0) (first :: rest)).1) in *
  end.
  cbv zeta in Hs, Hp.
  exists im. split; [reflexivity|]. split; [exact Hp|].
  assert (height im = foldl Z.add 0 (height <$> first :: rest)) as Hh
      by (unfold height at 1; by rewrite Hs).
  assert (width im = foldl Z.max (width first) (width <$> rest)) as Hw
      by (unfold width at 1; by rewrite Hs).
  clearbody im. rewrite Hh, Hw.
  destruct (foldl_max_spec (width first) (width <$> rest)) as (Hle & Hall & Hin).
  cbv zeta in Hle, Hall, Hin.
  split; [|split].
  - rewrite foldl_add_foldr. unfold total_height. lia.
  - constructor; [done|]. apply Forall_forall. intros i Hi.
    rewrite Forall_forall in Hall. apply Hall. apply list_elem_of_fmap. by exists i.
  - destruct Hin as [Hm|Hm].
    + exists first. split; [by left|done].
    + apply list_elem_of_fmap in Hm as (w & Hw' & Hin). exists w. split; [by right|done].
Qed.

(** ** Random offsets *)

Lemma random_color_offset_run randint k (color : Color) offset :
  (∀ k low high, low < high → low ≤ randint k low high < high) →
  0 ≤ offset →
  ∃ color',
    random_color_offset randint k color offset = Ok (color', (k + length color)%nat)
    ∧ Forall2 (λ c c', 0 ≤ c' ≤ 255 ∧ (0 ≤ c ≤ 255 → - offset ≤ c' - c ≤ offset))
        color color'.
Proof.
  intros Hrange Hoff. revert k. induction color as [|c color IH]; intros k.
  - exists []. simpl. rewrite Nat.add_0_r. split; [done|constructor].
  - cbn [random_color_offset]. destruct (Z.leb_spec (offset + 1) (- offset)); [lia|].
    destruct (IH (S k)) as (rest & -> & Hrest). cbn [result_bind fst snd].
    eexists. split; [f_equal; f_equal; simpl; lia|].
    constructor; [|done].
    pose proof (Hrange k (- offset) (offset + 1)). lia.
Qed.

(** X16. random_color_offset moves every channel by at most [offset] and
    keeps it within 0..255: with an offset that is not negative and a
    generator that keeps to the range it is asked for, the colour returned
    has as many channels as the one passed, each between 0 and 255 and, when
    the channel passed was between 0 and 255, no further than [offset] from
    it; one random number is drawn for every channel.  A negative offset
    makes randint raise ValueError unless the colour has no channel. *)
Theorem random_color_offset_range randint k (color : Color) offset :
  (∀ k low high, low < high → low ≤ randint k low high < high) →
  (0 ≤ offset →
   ∃ color',
     random_color_offset randint k color offset = Ok (color', (k + length color)%nat)
     ∧ length color' = length color
     ∧ Forall2 (λ c c', 0 ≤ c' ≤ 255 ∧ (0 ≤ c ≤ 255 → - offset ≤ c' - c ≤ offset))
         color color')
  ∧ (offset < 0 → color ≠ [] →
     random_color_offset randint k color offset = Err ValueError)
  ∧ (random_color_offset randint k [] offset = Ok ([], k)).
Proof.
  intros Hrange. split; [|split].
  - intros Hoff.
    destruct (random_color_offset_run randint k color offset Hrange Hoff)
      as (color' & Hrun & Hall).
    exists color'. split; [done|]. split; [|done].
    symmetry. by eapply Forall2_length.
  - intros Hoff Hne. destruct color as [|c color]; [done|]. simpl.
    destruct (Z.leb_spec (offset + 1) (- offset)); [done|lia].
  - reflexivity.
Qed.

(** ** The profile card *)

Lemma card_box_width w : (w + 960) / 2 - (w - 960) / 2 = 960.
Proof.
  replace (w + 960) with (w - 960 + 960 * 2) by lia.
  rewrite Z.div_add by lia. lia.
Qed.

Lemma length_bind_const {A B : Type} (g : A → list B) (l : list A) (n : nat) :
  (∀ x, length (g x) = n) → length (x ← l; g x) = (length l * n)%nat.
Proof.
  intros Hg. induction l as [|x l IH]; [done|].
  rewrite bind_cons, length_app, IH, Hg. simpl. lia.
Qed.

Lemma bm_pixels_length (a : Bitmap) :
  0 ≤ bm_width a → 0 ≤ bm_height a → len (bm_pixels a) = bm_width a * bm_height a.
Proof.
  intros Hw Hh. unfold len, bm_pixels.
  rewrite (length_bind_const _ _ (Z.to_nat (bm_width a))).
  - rewrite length_seqZ. lia.
  - intros y. rewrite bind_singleton_fmap, length_fmap, length_seqZ. done.
Qed.

(** With enough frames get_brightest_and_darkest_color returns two pixels
    of a photo of ten pixels or more. *)
Lemma get_brightest_and_darkest_color_pixels (n : nat) depth (image : Bitmap) sat hue :
  10 ≤ len (bm_pixels image) → sat < 10 * Z.of_nat n → (n < depth)%nat →
  ∃ b d,
    get_brightest_and_darkest_color depth image sat hue
    = Ok (pixel_HSV_to_RGB b, pixel_HSV_to_RGB d).
Proof.
  intros Hbig. revert depth sat hue.
  induction n as [|n IH]; intros depth sat hue Hsat Hdepth;
    (destruct depth as [|depth]; [lia|]); cbn [get_brightest_and_darkest_color];
    fold (vivid_at image sat);
    destruct (Z.ltb_spec (len (vivid_at image sat)) 10) as [Hlt|Hge].
  - exfalso. assert (vivid_at image sat = pixel_to_HSV <$> bm_pixels image) as Hall.
    { unfold vivid_at. apply filter_all. apply Forall_forall. intros p _.
      unfold hsv_saturation. lia. }
    rewrite Hall in Hlt. unfold len in *. rewrite length_fmap in Hlt. lia.
  - assert (vivid_at image sat ≠ []) as Hne
        by (intros E; rewrite E in Hge; unfold len in Hge; simpl in Hge; lia).
    destruct (argmax_by_is_Some hsv_value _ Hne) as [b ->].
    destruct (argmin_by_is_Some hsv_value _ Hne) as [d ->]. by eexists _, _.
  - apply IH; lia.
  - assert (vivid_at image sat ≠ []) as Hne
        by (intros E; rewrite E in Hge; unfold len in Hge; simpl in Hge; lia).
    destruct (argmax_by_is_Some hsv_value _ Hne) as [b ->].
    destruct (argmin_by_is_Some hsv_value _ Hne) as [d ->]. by eexists _, _.
Qed.

Lemma with_alpha_run (color : Color) alpha :
  (3 ≤ length color)%nat →
  ∃ r g b, with_alpha color alpha = Ok [r; g; b; alpha].
Proof.
  destruct color as [|r [|g [|b rest]]]; simpl; try lia. intros _. by exists r, g, b.
Qed.

Lemma random_color_offset_length randint k (color : Color) offset :
  0 ≤ offset →
  ∃ color',
    random_color_offset randint k color offset = Ok (color', (k + length color)%nat)
    ∧ length color' = length color.
Proof.
  intros Hoff. revert k. induction color as [|c color IH]; intros k.
  - exists []. simpl. by rewrite Nat.add_0_r.
  - cbn [random_color_offset]. destruct (Z.leb_spec (offset + 1) (- offset)); [lia|].
    destruct (IH (S k)) as (rest & -> & Hrest). cbn [result_bind fst snd].
    eexists. split; [f_equal; f_equal; simpl; lia|]. simpl. by rewrite Hrest.
Qed.

Lemma achievement_color_of_run (color : Color) :
  (3 ≤ length color)%nat → ∃ ac, achievement_color_of color = Ok ac.
Proof.
  destruct color as [|r [|g [|b rest]]]; simpl; try lia. intros _.
  destruct (rgb_to_hsv (inject_Z r) (inject_Z g) (inject_Z b)) as [[hh s] v]. by eexists.
Qed.

(** What draw_game_info returns for a game it can draw. *)
Lemma draw_game_block achievement_color (g : DrawPlayerStatusData) :
  drawable g →
  ∃ block, draw_game achievement_color g = Ok block ∧ size block = (880, block_height g).
Proof.
  unfold drawable, draw_game, block_height, draw_game_info, truediv. cbv zeta.
  destruct (completed_achievement_number g) as [completed|],
           (total_achievement_number g) as [total|]; intros Hd;
    try (eexists; split; [reflexivity|done]).
  destruct achievement_color as [[cr cg] cb].
  destruct (Z.eqb_spec total 0) as [->|_]; [by destruct Hd|]. cbn [result_bind].
  match goal with
  | |- context [foldl ?f (?strip0, ?x0) (achievements g)] =>
      destruct (foldl f (strip0, x0) (achievements g)) as [strip x]
  end.
  eexists. split; [reflexivity|]. by destruct (6 <? completed).
Qed.

Lemma draw_games_blocks achievement_color (games : list DrawPlayerStatusData) :
  Forall drawable games →
  ∃ blocks,
    result_mapM (draw_game achievement_color) games = Ok blocks
    ∧ Forall2 (λ g block, draw_game achievement_color g = Ok block
                         ∧ size block = (880, block_height g)) games blocks.
Proof.
  induction 1 as [|g games Hg _ (blocks & Hblocks & IH)]; simpl.
  - exists []. by split.
  - destruct (draw_game_block achievement_color g Hg) as (block & Hb & Hs).
    exists (block :: blocks). rewrite Hb, Hblocks. split; [done|]. by constructor.
Qed.

Lemma paste_games_from (blocks : list Image) bg y :
  let res :=
    foldl (λ '(bg, y) game_image,
             (paste_mask bg game_image ((920 - width game_image) / 2 + 20, y)
                (convert game_image RGBA),
              y + (height game_image + 26)))
          (bg, y) blocks in
  size res.1 = size bg
  ∧ drawn_texts res.1 = drawn_texts bg
  ∧ rectangles res.1 = rectangles bg
  ∧ pasted res.1
    = pasted bg
      ++ zip blocks
           (zip ((λ b, (920 - width b) / 2 + 20) <$> blocks) (block_tops y blocks)).
Proof.
  revert bg y. induction blocks as [|b blocks IH]; intros bg y; simpl.
  - by rewrite app_nil_r.
  - edestruct (IH (paste_mask bg b ((920 - width b) / 2 + 20, y) (convert b RGBA))
                 (y + (height b + 26))) as (Hs & Ht & Hr & Hp).
    simpl in *. rewrite Hs, Ht, Hr, Hp. by rewrite <- app_assoc.
Qed.

(** draw_player_status up to the title blocks: on a background of at
    least one column and ten rows, with frames enough, everything before
    the loop over the games succeeds, and the call ends as the loop does. *)
Lemma draw_player_status_prefix depth randint k (player_bg : Bitmap) player_avatar
    player_name player_id player_description player_last_two_weeks_time :
  1 ≤ bm_width player_bg → 10 ≤ bm_height player_bg → (11 < depth)%nat →
  (∀ p, (3 ≤ length (pixel_HSV_to_RGB p))%nat) →
  ∃ backdrop b d r1 g1 b1 r2 g2 b2 brightest darkest achievement_color,
    recolor_image (bm_crop player_bg (card_box player_bg)) 10 10 = Ok backdrop
    ∧ size backdrop = (960, bm_height player_bg)
    ∧ get_brightest_and_darkest_color depth player_bg 100 30
      = Ok (pixel_HSV_to_RGB b, pixel_HSV_to_RGB d)
    ∧ with_alpha ((λ x, if 30 <=? x then x - 30 else 0) <$> pixel_HSV_to_RGB b) 128
      = Ok [r1; g1; b1; 128]
    ∧ random_color_offset randint k [r1; g1; b1; 128] 20 = Ok (brightest, (k + 4)%nat)
    ∧ with_alpha ((λ x, if x <=? 255 - 30 then x + 30 else 255) <$> pixel_HSV_to_RGB d) 128
      = Ok [r2; g2; b2; 128]
    ∧ random_color_offset randint (k + 4) [r2; g2; b2; 128] 20
      = Ok (darkest, (k + 4 + 4)%nat)
    ∧ achievement_color_of brightest = Ok achievement_color
    ∧ ∀ player_games,
        draw_player_status depth randint k player_bg player_avatar player_name player_id
          player_description player_last_two_weeks_time player_games
        = match result_mapM (draw_game achievement_color) player_games with
          | Ok blocks =>
              Ok (let bg :=
                    paste_games
                      (card_head backdrop player_avatar player_name player_id
                         player_description player_last_two_weeks_time blocks
                         (card_gradient brightest darkest))
                      blocks in
                  paste_mask (Image_fromarray player_bg) bg
                    ((bm_width player_bg - 960) / 2, 0) (convert bg RGBA))
          | Err e => Err e
          end.
Proof.
  intros Hw Hh Hdepth Hrgb.
  destruct (recolor_image_run (bm_crop player_bg (card_box player_bg)) 10 10)
    as (backdrop & total & Hbackdrop & Hbsize & _).
  { unfold card_box. simpl. lia. }
  { unfold card_box. simpl. rewrite card_box_width. lia. }
  assert (size backdrop = (960, bm_height player_bg)) as Hbsize'.
  { rewrite Hbsize. unfold card_box. simpl. rewrite card_box_width. f_equal. lia. }
  destruct (get_brightest_and_darkest_color_pixels 11 depth player_bg 100 30)
    as (b & d & Hcolors); [|lia|done|].
  { rewrite bm_pixels_length by lia. nia. }
  destruct (with_alpha_run ((λ x, if 30 <=? x then x - 30 else 0) <$> pixel_HSV_to_RGB b) 128)
    as (r1 & g1 & b1 & Ha1); [by rewrite length_fmap|].
  destruct (random_color_offset_length randint k [r1; g1; b1; 128] 20)
    as (brightest & Hbr & Hbl); [lia|]. simpl length in Hbr.
  destruct (with_alpha_run ((λ x, if x <=? 255 - 30 then x + 30 else 255)
                              <$> pixel_HSV_to_RGB d) 128)
    as (r2 & g2 & b2 & Ha2); [by rewrite length_fmap|].
  destruct (random_color_offset_length randint (k + 4) [r2; g2; b2; 128] 20)
    as (darkest & Hdk & Hdl); [lia|]. simpl length in Hdk.
  destruct (achievement_color_of_run brightest) as (ac & Hac); [rewrite Hbl; simpl; lia|].
  exists backdrop, b, d, r1, g1, b1, r2, g2, b2, brightest, darkest, ac.
  split; [done|]. split; [done|]. split; [done|]. split; [done|]. split; [done|].
  split; [done|]. split; [done|]. split; [done|].
  intros player_games.
  unfold draw_player_status. fold (card_box player_bg).
  rewrite Hbackdrop. cbn [result_bind]. rewrite Hcolors. cbn [result_bind fst snd].
  rewrite Ha1. cbn [result_bind]. rewrite Hbr. cbn [result_bind fst snd].
  rewrite Ha2. cbn [result_bind]. rewrite Hdk. cbn [result_bind fst snd].
  rewrite Hac. cbn [result_bind].
  destruct (result_mapM (draw_game ac) player_games) as [blocks|e]; [|done].
  cbn [result_bind].
  rewrite (create_gradient_image_RGBA (920, 50)) by (cbn [fst snd]; first [lia|done]).
  cbn [result_bind fst snd].
  unfold card_head, card_gradient. by destruct player_last_two_weeks_time.
Qed.

(** The colours of the gradient: what random_color_offset makes of the
    two colours with alpha 128. *)
Lemma jittered_color randint k r g b (color : Color) k' :
  (∀ k low high, low < high → low ≤ randint k low high < high) →
  random_color_offset randint k [r; g; b; 128] 20 = Ok (color, k') →
  ∃ r' g' b' alpha,
    color = [r'; g'; b'; alpha]
    ∧ 0 ≤ r' ≤ 255 ∧ 0 ≤ g' ≤ 255 ∧ 0 ≤ b' ≤ 255 ∧ 108 ≤ alpha ≤ 148.
Proof.
  intros Hrange Hrun.
  destruct (random_color_offset_run randint k [r; g; b; 128] 20 Hrange)
    as (color' & Hrun' & Hall); [lia|].
  rewrite Hrun in Hrun'. injection Hrun' as <- _.
  apply Forall2_cons_inv_l in Hall as (r' & l1 & [Hr _] & Hall & ->).
  apply Forall2_cons_inv_l in Hall as (g' & l2 & [Hg _] & Hall & ->).
  apply Forall2_cons_inv_l in Hall as (b' & l3 & [Hb _] & Hall & ->).
  apply Forall2_cons_inv_l in Hall as (alpha & l4 & [_ Ha] & Hall & ->).
  apply Forall2_nil_inv_l in Hall as ->.
  exists r', g', b', alpha. split; [done|]. repeat split; lia.
Qed.

Lemma description_loop_canvas n chars bg line line_width offset :
  let im := description_loop n chars bg line line_width offset in
  size im = size bg ∧ pasted im = pasted bg ∧ rectangles im = rectangles bg.
Proof.
  revert bg line line_width offset.
  induction chars as [|[idx char] chars IH]; intros bg line line_width offset; [done|].
  cbn [description_loop].
  destruct (exceeds_640 (line_width + getlength description_font [char])
            || (idx =? n - 1) || (char =? NEWLINE)%N).
  - destruct (25 * 4 <=? offset + 25); [done|].
    edestruct IH as (Hs & Hp & Hr). cbv zeta in *. rewrite Hs, Hp, Hr. done.
  - destruct (25 * 4 <=? offset); [done|]. apply IH.
Qed.

Lemma result_foldl_texts {B : Type} (f : Image → B → result Image) (l : list B) a im :
  (∀ a x a', f a x = Ok a' → texts a' = texts a) →
  result_foldl f a l = Ok im → texts im = texts a.
Proof.
  intros Hf. revert a. induction l as [|x l IH]; intros a; simpl.
  - by intros [= ->].
  - destruct (f a x) as [a'|e] eqn:E; [|done]. simpl. intros Hl.
    rewrite (IH _ Hl). by eapply Hf.
Qed.

Lemma recolor_image_texts (image : Bitmap) rows cols im :
  recolor_image image rows cols = Ok im → texts im = [].
Proof.
  unfold recolor_image.
  destruct (get_average_color image) as [total|]; [|done]. cbn [result_bind].
  destruct (split_image image rows cols) as [[[pieces pw] ph]|]; [|done]. cbn [result_bind].
  destruct pieces as [|p0 pieces]; [done|]. cbn [result_bind].
  match goal with |- context [result_foldl ?f ?a ?l] =>
    destruct (result_foldl f a l) as [im'|] eqn:E; [|done];
    apply (result_foldl_texts f l a im') in E
  end.
  - cbn [result_bind]. intros [= <-]. cbn [texts]. by rewrite E.
  - intros a [i piece] a'. destruct (get_average_color piece); [|done].
    cbn [result_bind]. by intros [= <-].
Qed.

Lemma blocks_at_40 (blocks : list Image) y :
  Forall (λ b, width b = 880) blocks →
  zip blocks (zip ((λ b, (920 - width b) / 2 + 20) <$> blocks) (block_tops y blocks))
  = zip blocks ((λ t, (40, t)) <$> block_tops y blocks).
Proof.
  intros Hall. revert y. induction Hall as [|b blocks Hb _ IH]; intros y; [done|].
  simpl. rewrite IH, Hb. done.
Qed.

Lemma blocks_heights (games : list DrawPlayerStatusData) (blocks : list Image) P :
  Forall2 (λ g block, P g block ∧ size block = (880, block_height g)) games blocks →
  Forall (λ b, width b = 880) blocks
  ∧ (λ b, height b + 26) <$> blocks = (λ g, block_height g + 26) <$> games.
Proof.
  induction 1 as [|g b games blocks [_ Hs] _ [IH1 IH2]]; [done|].
  split.
  - constructor; [unfold width; by rewrite Hs|done].
  - rewrite !fmap_cons, IH2. unfold height. by rewrite Hs.
Qed.

(** X17. The layout of the profile card.  On a background of at least
    one column and ten rows, with frames enough for the colour search and
    games whose total is not 0, draw_player_status returns the background
    with the card pasted on it: the result has the size of the background
    whatever the number of games, and the card, 960 pixels wide and as high
    as the background, is pasted at the top, centred.  On the card, over the
    mosaic, are the avatar (200x200 at (40, 40)), the dark panel
    (920 wide, 136 or 210 pixels for every game plus 106, at (20, 272)), the
    gradient (920x50 at the same place) and the title blocks, 880 wide,
    at x = 40 from y = 350 downwards with 26 pixels between two. *)
Theorem profile_card_layout depth randint k (player_bg : Bitmap) player_avatar
    player_name player_id player_description player_last_two_weeks_time player_games :
  1 ≤ bm_width player_bg → 10 ≤ bm_height player_bg → (11 < depth)%nat →
  (∀ p, (3 ≤ length (pixel_HSV_to_RGB p))%nat) →
  Forall drawable player_games →
  ∃ card bg backdrop panel gradient achievement_color blocks,
    draw_player_status depth randint k player_bg player_avatar player_name player_id
      player_description player_last_two_weeks_time player_games = Ok card
    ∧ size card = (bm_width player_bg, bm_height player_bg)
    ∧ canvas_of card = Image_fromarray player_bg
    ∧ pasted card = [(bg, ((bm_width player_bg - 960) / 2, 0))]
    ∧ size bg = (960, bm_height player_bg)
    ∧ recolor_image (bm_crop player_bg (card_box player_bg)) 10 10 = Ok backdrop
    ∧ pasted bg
      = pasted backdrop
        ++ [(resize player_avatar (200, 200) RESAMPLE_DEFAULT, (40, 40));
            (panel, (20, 272)); (gradient, (20, 272))]
        ++ zip blocks ((λ t, (40, t)) <$> block_tops 350 blocks)
    ∧ size panel
      = (920, 106 + foldr Z.add 0 ((λ g, block_height g + 26) <$> player_games))
    ∧ size gradient = (920, 50)
    ∧ Forall2 (λ g block, draw_game achievement_color g = Ok block
                         ∧ size block = (880, block_height g)) player_games blocks.
Proof.
  intros Hw Hh Hdepth Hrgb Hgames.
  destruct (draw_player_status_prefix depth randint k player_bg player_avatar player_name
              player_id player_description player_last_two_weeks_time Hw Hh Hdepth Hrgb)
    as (backdrop & b & d & r1 & g1 & b1 & r2 & g2 & b2 & brightest & darkest & ac
        & Hbackdrop & Hbsize & _ & _ & _ & _ & _ & _ & Hrun).
  specialize (Hrun player_games).
  destruct (draw_games_blocks ac player_games Hgames) as (blocks & Hmap & Hblocks).
  rewrite Hmap in Hrun.
  set (gradient := card_gradient brightest darkest) in *.
  assert (size gradient = (920, 50)) as Hgsize by done.
  destruct (blocks_heights _ _ _ Hblocks) as [H880 Hheights].
  cbv zeta in Hrun.
  set (head := card_head backdrop player_avatar player_name player_id player_description
                 player_last_two_weeks_time blocks gradient) in *.
  destruct (paste_games_from blocks head 350) as (Hs & _ & _ & Hp). cbv zeta in Hs, Hp.
  fold (paste_games head blocks) in Hs, Hp.
  rewrite blocks_at_40 in Hp by done.
  assert (size head = (960, bm_height player_bg)
          ∧ ∃ panel,
              pasted head
              = pasted backdrop
                ++ [(resize player_avatar (200, 200) RESAMPLE_DEFAULT, (40, 40));
                    (panel, (20, 272)); (gradient, (20, 272))]
              ∧ size panel
                = (920, 106 + foldr Z.add 0 ((λ g, block_height g + 26) <$> player_games)))
    as (Hhs & panel & Hhp & Hps).
  { unfold head, card_head, draw_description.
    match goal with |- context [description_loop ?n ?c ?bg0 ?l ?w ?o] =>
      destruct (description_loop_canvas n c bg0 l w o) as (Hds & Hdp & _);
      set (described := description_loop n c bg0 l w o) in *
    end.
    cbv zeta in Hds, Hdp. cbn [size pasted] in Hds, Hdp. clearbody described.
    split.
    - destruct player_last_two_weeks_time; cbn [size]; by rewrite Hds.
    - eexists. split.
      + destruct player_last_two_weeks_time; cbn [pasted]; rewrite Hdp;
          rewrite <- !app_assoc; reflexivity.
      + cbn [size]. rewrite Hheights, foldl_add_foldr. f_equal; lia. }
  eexists _, (paste_games head blocks), backdrop, panel, gradient, ac, blocks.
  split; [exact Hrun|]. split; [done|]. split; [done|]. split; [done|].
  split; [by rewrite Hs|]. split; [done|]. split; [by rewrite Hp, Hhp, <- !app_assoc|].
  by repeat split.
Qed.

Lemma texts_drawn_texts (im : Image) : texts im = (λ t, t.1.1.2) <$> drawn_texts im.
Proof.
  induction im; cbn [texts drawn_texts]; try done.
  rewrite fmap_app. by rewrite IHim.
Qed.

(** X18. The texts of the profile card, in the order they are drawn: the
    player's name, the friend code after its label, at most four lines of
    the biography (a prefix of it), the heading of the recent activity and,
    when one is passed, the play time of the last two weeks, drawn so that
    it ends 34 pixels before the right edge of the card. *)
Theorem profile_card_texts depth randint k (player_bg : Bitmap) player_avatar
    player_name player_id player_description player_last_two_weeks_time player_games :
  1 ≤ bm_width player_bg → 10 ≤ bm_height player_bg → (11 < depth)%nat →
  (∀ p, (3 ≤ length (pixel_HSV_to_RGB p))%nat) →
  Forall drawable player_games →
  ∃ card bg lines dropped,
    draw_player_status depth randint k player_bg player_avatar player_name player_id
      player_description player_last_two_weeks_time player_games = Ok card
    ∧ pasted card = [(bg, ((bm_width player_bg - 960) / 2, 0))]
    ∧ texts bg
      = [player_name; STR_FRIEND_CODE ++ player_id] ++ lines ++ [STR_RECENT]
        ++ match player_last_two_weeks_time with Some t => [t] | None => [] end
    ∧ player_description = concat lines ++ dropped
    ∧ (length lines ≤ 4)%nat
    ∧ ∀ t, player_last_two_weeks_time = Some t →
        last (drawn_texts bg)
        = Some ((960 - getlength (truetype font_light_path 26) t - 34)%Q, 279%Q, t,
                truetype font_light_path 26, [255; 255; 255]).
Proof.
  intros Hw Hh Hdepth Hrgb Hgames.
  destruct (draw_player_status_prefix depth randint k player_bg player_avatar player_name
              player_id player_description player_last_two_weeks_time Hw Hh Hdepth Hrgb)
    as (backdrop & b & d & r1 & g1 & b1 & r2 & g2 & b2 & brightest & darkest & ac
        & Hbackdrop & _ & _ & _ & _ & _ & _ & _ & Hrun).
  specialize (Hrun player_games).
  destruct (draw_games_blocks ac player_games Hgames) as (blocks & Hmap & _).
  rewrite Hmap in Hrun. cbv zeta in Hrun.
  set (head := card_head backdrop player_avatar player_name player_id player_description
                 player_last_two_weeks_time blocks (card_gradient brightest darkest)) in *.
  destruct (paste_games_from blocks head 350) as (_ & Ht & _). cbv zeta in Ht.
  fold (paste_games head blocks) in Ht.
  pose proof (recolor_image_texts _ _ _ _ Hbackdrop) as Hbt.
  eexists _, (paste_games head blocks).
  set (pre := draw_text
                (draw_text
                   (draw_rectangle
                      (paste (enhance_brightness backdrop (7 # 10))
                         (resize player_avatar (200, 200) RESAMPLE_DEFAULT) (40, 40))
                      (40, 40, 240, 240) None (Some [83; 164; 196]) 3)
                   (at_int 280 48) player_name (truetype font_light_path 40) [255; 255; 255])
                (at_int 280 100) (STR_FRIEND_CODE ++ player_id)
                (truetype font_regular_path 19) [191; 191; 191]).
  destruct (description_loop_spec (len player_description) player_description 0 pre
              [] 0 0)
    as (lines & dropped & Hlines & Hcat & Hlen & _);
    [unfold len; lia|lia|lia|done|by intros p Hp ->%prefix_nil_inv|].
  change (line_width_of []) with 0%Q in Hlines.
  fold (enumerate player_description) in Hlines.
  fold (draw_description pre player_description) in Hlines.
  exists lines, dropped.
  split; [exact Hrun|]. split; [done|]. split; [|split; [done|split]].
  - rewrite texts_drawn_texts, Ht, <- texts_drawn_texts.
    unfold head, card_head. fold pre.
    destruct player_last_two_weeks_time; cbn [texts]; rewrite Hlines;
      unfold pre; cbn [texts]; rewrite Hbt; cbn [app]; rewrite <- ?app_assoc;
      by rewrite ?app_nil_r.
  - unfold len in Hlen. lia.
  - intros t ->. rewrite Ht. unfold head, card_head. cbn [drawn_texts]. apply last_snoc.
Qed.

(** X19. The gradient under the heading of the card: 920x50 pixels at
    (20, 272), the same in every row, running from the brightest colour on
    the left to the darkest on the right.  Both colours have gone through
    random_color_offset with their alpha of 128, so, with a generator that
    keeps to its range, their red, green and blue lie between 0 and 255 and
    their alpha is not 128 but some value between 108 and 148. *)
Theorem profile_card_gradient depth randint k (player_bg : Bitmap) player_avatar
    player_name player_id player_description player_last_two_weeks_time player_games :
  1 ≤ bm_width player_bg → 10 ≤ bm_height player_bg → (11 < depth)%nat →
  (∀ p, (3 ≤ length (pixel_HSV_to_RGB p))%nat) →
  Forall drawable player_games →
  (∀ k low high, low < high → low ≤ randint k low high < high) →
  ∃ card bg a,
    draw_player_status depth randint k player_bg player_avatar player_name player_id
      player_description player_last_two_weeks_time player_games = Ok card
    ∧ pasted card = [(bg, ((bm_width player_bg - 960) / 2, 0))]
    ∧ (Image_fromarray a, (20, 272)) ∈ pasted bg
    ∧ (bm_width a, bm_height a) = (920, 50)
    ∧ (∀ x y y', bm_pixel a x y = bm_pixel a x y')
    ∧ ∃ r g b alpha r' g' b' alpha',
        (∀ y, bm_pixel a 0 y = [r; g; b; alpha])
        ∧ (∀ y, bm_pixel a 919 y = [r'; g'; b'; alpha'])
        ∧ 0 ≤ r ≤ 255 ∧ 0 ≤ g ≤ 255 ∧ 0 ≤ b ≤ 255 ∧ 108 ≤ alpha ≤ 148
        ∧ 0 ≤ r' ≤ 255 ∧ 0 ≤ g' ≤ 255 ∧ 0 ≤ b' ≤ 255 ∧ 108 ≤ alpha' ≤ 148.
Proof.
  intros Hw Hh Hdepth Hrgb Hgames Hrange.
  destruct (draw_player_status_prefix depth randint k player_bg player_avatar player_name
              player_id player_description player_last_two_weeks_time Hw Hh Hdepth Hrgb)
    as (backdrop & b & d & r1 & g1 & b1 & r2 & g2 & b2 & brightest & darkest & ac
        & Hbackdrop & _ & _ & _ & Hbr & _ & Hdk & _ & Hrun).
  specialize (Hrun player_games).
  destruct (draw_games_blocks ac player_games Hgames) as (blocks & Hmap & _).
  rewrite Hmap in Hrun. cbv zeta in Hrun.
  set (head := card_head backdrop player_avatar player_name player_id player_description
                 player_last_two_weeks_time blocks (card_gradient brightest darkest)) in *.
  destruct (paste_games_from blocks head 350) as (_ & _ & _ & Hp). cbv zeta in Hp.
  fold (paste_games head blocks) in Hp.
  destruct (jittered_color randint k r1 g1 b1 brightest _ Hrange Hbr)
    as (r & g & bl & alpha & -> & Hr & Hg & Hb & Ha).
  destruct (jittered_color randint (k + 4) r2 g2 b2 darkest _ Hrange Hdk)
    as (r' & g' & bl' & alpha' & -> & Hr' & Hg' & Hb' & Ha').
  eexists _, (paste_games head blocks), _.
  split; [exact Hrun|]. split; [done|]. split.
  { rewrite Hp. apply elem_of_app. left. unfold head, card_head, card_gradient.
    destruct player_last_two_weeks_time; cbn [pasted];
      apply elem_of_app; right; apply list_elem_of_here. }
  cbn [bm_width bm_height bm_pixel]. split; [done|]. split; [done|].
  exists r, g, bl, alpha, r', g', bl', alpha'.
  split; [|split].
  - intros _. rewrite linspace_color_first by done. cbn [fmap list_fmap].
    unfold clamp_channel. repeat f_equal; lia.
  - intros _. change 919 with (920 - 1). rewrite linspace_color_last by done.
    cbn [fmap list_fmap]. unfold clamp_channel. repeat f_equal; lia.
  - repeat split; lia.
Qed.

Lemma draw_game_zero_total achievement_color (g : DrawPlayerStatusData) :
  ¬ drawable g → draw_game achievement_color g = Err ZeroDivisionError.
Proof.
  unfold drawable, draw_game. intros Hn.
  destruct (completed_achievement_number g) as [completed|]; [|destruct Hn; by left].
  destruct (total_achievement_number g) as [total|]; [|destruct Hn; by right].
  destruct (decide (total = 0)) as [->|Hne]; [|destruct Hn; right; congruence].
  apply draw_game_info_zero_total.
Qed.

Lemma draw_games_zero_total achievement_color (games : list DrawPlayerStatusData) :
  ¬ Forall drawable games →
  result_mapM (draw_game achievement_color) games = Err ZeroDivisionError.
Proof.
  induction games as [|g games IH]; intros Hn.
  - destruct Hn. constructor.
  - cbn [result_mapM]. destruct (decide (drawable g)) as [Hg|Hg].
    + destruct (draw_game_block achievement_color g Hg) as (block & -> & _).
      cbn [result_bind]. rewrite IH; [done|]. intros Hall. apply Hn. by constructor.
    + by rewrite draw_game_zero_total.
Qed.

(** X20. One game with both counts and a total of 0 spoils the whole
    card: draw_player_status draws the title blocks before it puts anything
    of them on the card, and the division in draw_game_info makes the call
    fail with ZeroDivisionError, whatever the other games are.  When no
    game is like that, the call returns. *)
Theorem profile_card_zero_total depth randint k (player_bg : Bitmap) player_avatar
    player_name player_id player_description player_last_two_weeks_time player_games :
  1 ≤ bm_width player_bg → 10 ≤ bm_height player_bg → (11 < depth)%nat →
  (∀ p, (3 ≤ length (pixel_HSV_to_RGB p))%nat) →
  (Exists (λ g, is_Some (completed_achievement_number g)
                ∧ total_achievement_number g = Some 0) player_games ↔
   draw_player_status depth randint k player_bg player_avatar player_name player_id
     player_description player_last_two_weeks_time player_games = Err ZeroDivisionError)
  ∧ (¬ Exists (λ g, is_Some (completed_achievement_number g)
                    ∧ total_achievement_number g = Some 0) player_games ↔
     ∃ card,
       draw_player_status depth randint k player_bg player_avatar player_name player_id
         player_description player_last_two_weeks_time player_games = Ok card).
Proof.
  intros Hw Hh Hdepth Hrgb.
  destruct (draw_player_status_prefix depth randint k player_bg player_avatar player_name
              player_id player_description player_last_two_weeks_time Hw Hh Hdepth Hrgb)
    as (backdrop & b & d & r1 & g1 & b1 & r2 & g2 & b2 & brightest & darkest & ac
        & _ & _ & _ & _ & _ & _ & _ & _ & Hrun).
  specialize (Hrun player_games).
  assert (Forall drawable player_games ↔
          ¬ Exists (λ g, is_Some (completed_achievement_number g)
                         ∧ total_achievement_number g = Some 0) player_games) as Hiff.
  { rewrite <- Forall_Exists_neg. apply Forall_iff. intros g. unfold drawable.
    destruct (completed_achievement_number g) as [c|].
    - split.
      + intros [Hc|Ht] [_ Ht']; [done|by rewrite Ht' in Ht].
      + intros Hn. right. intros Ht. apply Hn. split; [by eexists|done].
    - split; [intros _ [[c Hc] _]; done|by left]. }
  destruct (decide (Forall drawable player_games)) as [Hgames|Hgames].
  - destruct (draw_games_blocks ac player_games Hgames) as (blocks & Hmap & _).
    rewrite Hmap in Hrun. rewrite Hrun. split; split.
    + intros He. by apply Hiff in Hgames.
    + done.
    + intros _. by eexists.
    + intros _. by apply Hiff.
  - rewrite (draw_games_zero_total ac player_games Hgames) in Hrun. rewrite Hrun.
    split; split.
    + done.
    + intros _. destruct (decide (Exists (λ g, is_Some (completed_achievement_number g)
                                   ∧ total_achievement_number g = Some 0) player_games))
        as [|Hn]; [done|]. by apply Hiff in Hn.
    + intros Hn. by apply Hiff in Hn.
    + by intros [card Hc].
Qed.
End draw.

(** * The theorems at the sample inputs *)

Lemma sample_roster_valid : Forall valid_state sample_roster.
Proof. repeat constructor; unfold valid_state; simpl; lia. Defined.

Lemma roster_classification_partition_witness :
  sample_heap !! 0%nat = Some sample_roster
  ∧ Forall valid_state sample_roster
  ∧ ∃ im h' members,
      draw_friends_status sample_getlength sample_open_size sample_bytes_size
        sample_avatar (lit "Steam") 0%nat sample_heap = Ok (im, h')
      ∧ lists_members sample_getlength sample_open_size sample_bytes_size im members
      ∧ members Gaming ++ members Online ++ members Offline ≡ₚ sample_roster.
Proof.
  split; [reflexivity|]. split; [exact sample_roster_valid|].
  destruct (roster_classification_partition sample_getlength sample_open_size
              sample_bytes_size sample_avatar (lit "Steam") 0%nat sample_heap
              sample_roster eq_refl sample_roster_valid)
    as (im & h' & members & Hrun & Hlists & Hperm & _).
  exists im, h', members. split; [exact Hrun|]. split; [exact Hlists|exact Hperm].
Defined.

Lemma roster_composition_witness :
  sample_heap !! 0%nat = Some sample_roster
  ∧ ∃ im h' sections,
      draw_friends_status sample_getlength sample_open_size sample_bytes_size
        sample_avatar (lit "Steam") 0%nat sample_heap = Ok (im, h')
      ∧ section_kind <$> sections = [Some Gaming; Some Online; Some Offline]
      ∧ length (rectangles im) = 2%nat
      ∧ height sample_open_size sample_bytes_size im
        = 120 + 50 + total_height sample_open_size sample_bytes_size sections.
Proof.
  split; [reflexivity|].
  destruct (roster_composition sample_getlength sample_open_size sample_bytes_size
              sample_avatar (lit "Steam") 0%nat sample_heap sample_roster eq_refl)
    as (im & h' & sections & Hrun & _ & _ & _ & _ & Hh & Hthree).
  exists im, h', sections. split; [exact Hrun|].
  destruct (Hthree bob amy zed) as [Hk Hr]; [reflexivity|..].
  - left. split; [reflexivity|discriminate].
  - left. split; reflexivity.
  - reflexivity.
  - split; [exact Hk|]. split; [exact Hr|exact Hh].
Defined.

Lemma section_ordering_witness :
  busy_heap !! 0%nat = Some busy_roster
  ∧ ∃ im h' members,
      draw_friends_status sample_getlength sample_open_size sample_bytes_size
        sample_avatar (lit "Steam") 0%nat busy_heap = Ok (im, h')
      ∧ lists_members sample_getlength sample_open_size sample_bytes_size im members
      ∧ members Online ≡ₚ [cal; dee; amy]
      ∧ Sorted (λ a b, online_sort_key a ≤ online_sort_key b) (members Online)
      ∧ members Gaming ≡ₚ [bob; eli]
      ∧ Sorted (λ a b, str_le (status a) (status b)) (members Gaming).
Proof.
  split; [reflexivity|].
  destruct (section_ordering sample_getlength sample_open_size sample_bytes_size
              sample_avatar (lit "Steam") 0%nat busy_heap busy_roster eq_refl)
    as (im & h' & members & Hrun & Hlists & Hop & Ho & _ & Hgp & Hg).
  exists im, h', members. split; [exact Hrun|]. split; [exact Hlists|].
  split; [exact Hop|]. split; [exact Ho|]. split; [exact Hgp|exact Hg].
Defined.

(** The rows of the busy roster as the image shows them, section by
    section and from top to bottom, each with its name and its status
    text: eli before bob under Gaming (Apex Legends sorts before
    Counter-Strike), and amy, dee, cal under Online (states 1, 2 and 3, the
    last counted as 7). *)
Example section_ordering_rows :
  ∃ im h',
    draw_friends_status sample_getlength sample_open_size sample_bytes_size
      sample_avatar (lit "Steam") 0%nat busy_heap = Ok (im, h')
    ∧ (λ sec, (λ row, texts row.1) <$> pasted sec) <$> roster_sections im
      = [[[lit "eli"; lit "Apex Legends"]; [lit "bob (bobby)"; lit "Counter-Strike"]];
         [[lit "amy"; STR_ONLINE]; [lit "dee"; STR_ONLINE]; [lit "cal"; STR_AWAY]];
         [[lit "zed"; lit "offline"]]].
Proof.
  destruct (draw_friends_status_run sample_getlength sample_open_size sample_bytes_size
              sample_avatar (lit "Steam") 0%nat busy_heap busy_roster eq_refl)
    as (im & h' & sections & Hrun & _ & _ & _ & _).
  exists im, h'. split; [exact Hrun|].
  assert (draw_friends_status sample_getlength sample_open_size sample_bytes_size
            sample_avatar (lit "Steam") 0%nat busy_heap
          = Ok (im, h')) as E by exact Hrun.
  vm_compute in E. injection E as <- _. by vm_compute.
Qed.

Lemma roster_sorts_callers_list_witness :
  sample_heap !! 0%nat = Some sample_roster
  ∧ ∃ im h',
      draw_friends_status sample_getlength sample_open_size sample_bytes_size
        sample_avatar (lit "Steam") 0%nat sample_heap = Ok (im, h')
      ∧ h' !! 0%nat = Some [zed; bob; amy].
Proof.
  split; [reflexivity|].
  destruct (roster_sorts_callers_list sample_getlength sample_open_size sample_bytes_size
              sample_avatar (lit "Steam") 0%nat sample_heap sample_roster eq_refl)
    as (im & h' & after & Hrun & Hd & -> & _).
  exists im, h'. split; [exact Hrun|exact Hd].
Defined.

(** C10, as stated, fails: the caller hands over [bob; amy; zed] and finds
    [zed; bob; amy] in the same list object after the call. *)
Lemma roster_reorders_callers_list :
  ∃ im h',
    draw_friends_status sample_getlength sample_open_size sample_bytes_size
      sample_avatar (lit "Steam") 0%nat sample_heap = Ok (im, h')
    ∧ sample_heap !! 0%nat = Some [bob; amy; zed]
    ∧ h' !! 0%nat = Some [zed; bob; amy]
    ∧ h' !! 0%nat ≠ sample_heap !! 0%nat.
Proof.
  destruct (draw_friends_status_run sample_getlength sample_open_size sample_bytes_size
              sample_avatar (lit "Steam") 0%nat sample_heap sample_roster eq_refl)
    as (im & h' & sections & Hrun & [Hd _] & _).
  exists im, h'. split; [exact Hrun|]. split; [reflexivity|]. split; [exact Hd|].
  intros E. pose proof (eq_trans (eq_sym Hd) E) as E'. vm_compute in E'. discriminate E'.
Qed.

(** C3, as stated, fails: on a photo of one pixel no depth of recursion
    lets get_brightest_and_darkest_color return. *)
Lemma vivid_extremes_one_pixel_never_returns :
  len (bm_pixels one_pixel) = 1
  ∧ ¬ ∃ depth colors,
        get_brightest_and_darkest_color sample_pixel_to_HSV sample_pixel_HSV_to_RGB depth
          one_pixel 100 30 = Ok colors.
Proof.
  split; [reflexivity|]. intros (depth & colors & Hret).
  rewrite vivid_extremes_small_image_never_returns in Hret by reflexivity.
  discriminate Hret.
Qed.

Lemma vivid_extremes_returns_witness :
  10 ≤ len (bm_pixels grey_photo)
  ∧ 100 < 10 * Z.of_nat 11
  ∧ (11 < 12)%nat
  ∧ ∃ colors,
      get_brightest_and_darkest_color sample_pixel_to_HSV sample_pixel_HSV_to_RGB 12
        grey_photo 100 30 = Ok colors.
Proof.
  split; [vm_compute; discriminate|]. split; [lia|]. split; [lia|].
  apply (vivid_extremes_returns sample_pixel_to_HSV sample_pixel_HSV_to_RGB 11 12
           grey_photo 100 30); [vm_compute; discriminate|lia|lia].
Defined.

(** C1, as stated, fails: with 3 of 0 achievements the title block is not
    drawn with an empty bar; the call fails. *)
Lemma draw_game_info_zero_total_fails :
  draw_game_info sample_getlength sample_open_size sample_bytes_size colorsys_rgb_to_hsv
    colorsys_hsv_to_rgb sample_avatar (lit "Portal") (lit "10.2") (lit "today") []
    (Some 3) (Some 0) (40, 80, 120) = Err ZeroDivisionError.
Proof. apply draw_game_info_zero_total. Qed.

Lemma draw_game_info_nonzero_total_witness :
  4 ≠ 0
  ∧ ∃ bg achievement_bg pos,
      draw_game_info sample_getlength sample_open_size sample_bytes_size
        colorsys_rgb_to_hsv colorsys_hsv_to_rgb sample_avatar (lit "Portal") (lit "10.2")
        (lit "today") [] (Some 3) (Some 4) (40, 80, 120)
      = Ok (paste_mask bg achievement_bg (10, 110) achievement_bg)
      ∧ (create_progress_bar sample_open_size sample_bytes_size colorsys_rgb_to_hsv
           colorsys_hsv_to_rgb (inject_Z 3 / inject_Z 4)%Q (40, 80, 120) 186 16, pos)
        ∈ pasted achievement_bg.
Proof.
  split; [lia|].
  destruct (draw_game_info_nonzero_total sample_getlength sample_open_size
              sample_bytes_size colorsys_rgb_to_hsv colorsys_hsv_to_rgb sample_avatar
              (lit "Portal") (lit "10.2") (lit "today") [] 3 4 (40, 80, 120))
    as (bg & abg & pos & Hrun & _ & Hin); [lia|].
  exists bg, abg, pos. split; [exact Hrun|exact Hin].
Defined.




Lemma gradient_degenerate_sizes_witness :
  create_vertical_gradient_rect 0 12 [255; 0; 0] [0; 0; 255]
  = Image_new RGBA (1, 1) [0; 0; 0; 0]
  ∧ (∃ a, create_gradient_image sample_fromarray_empty (920, 50)
            [200; 180; 40; 128] [20; 40; 90; 128] = Ok (Image_fromarray a)
          ∧ (bm_width a, bm_height a) = (920, 50)
          ∧ bm_pixel a 0 7 = [200; 180; 40; 128]
          ∧ bm_pixel a 919 7 = [20; 40; 90; 128])
  ∧ create_gradient_image sample_fromarray_empty (-1, 50)
      [200; 180; 40; 128] [20; 40; 90; 128] = Err ValueError.
Proof.
  destruct (gradient_degenerate_sizes sample_fromarray_empty) as (Hv & Hh & _ & He).
  split; [apply Hv; lia|]. split; [|apply He; simpl; lia].
  destruct (Hh (920, 50) [200; 180; 40; 128] [20; 40; 90; 128])
    as (a & Ha & Hs & _ & Hfirst & Hlast); [simpl; lia|simpl; lia|reflexivity|reflexivity|].
  exists a. split; [exact Ha|]. split; [exact Hs|].
  split; [apply Hfirst|apply Hlast; simpl; lia].
Defined.

(** C9. The horizontal constructor lacks the guard that the vertical one
    has: asked for a width of -1 the vertical constructor returns the 1x1
    transparent pixel, and the horizontal one, on the same size and
    colours, raises ValueError and returns no image. *)
Theorem horizontal_gradient_no_placeholder :
  create_vertical_gradient_rect (-1) 50 [200; 180; 40; 128] [20; 40; 90; 128]
  = Image_new RGBA (1, 1) [0; 0; 0; 0]
  ∧ create_gradient_image sample_fromarray_empty (-1, 50)
      [200; 180; 40; 128] [20; 40; 90; 128] = Err ValueError
  ∧ create_gradient_image sample_fromarray_empty (-1, 50)
      [200; 180; 40; 128] [20; 40; 90; 128] ≠ Ok (Image_new RGBA (1, 1) [0; 0; 0; 0]).
Proof. split; [reflexivity|]. split; [reflexivity|discriminate]. Qed.

Lemma description_wrapping_witness :
  ∃ lines dropped,
    texts (draw_description sample_getlength (Image_new RGB (960, 800) [0; 0; 0])
             sample_description) = lines
    ∧ sample_description = concat lines ++ dropped
    ∧ (length lines ≤ 4)%nat.
Proof.
  destruct (description_wrapping sample_getlength (Image_new RGB (960, 800) [0; 0; 0])
              sample_description)
    as (lines & dropped & Ht & Hcat & Hlen & _).
  exists lines, dropped. split; [exact Ht|]. split; [exact Hcat|exact Hlen].
Defined.

(** The two lines of the sample biography, and a text of 300 wide glyphs:
    four lines of 59 glyphs are drawn, the other 64 glyphs are not. *)
Example description_wrapping_samples :
  texts (draw_description sample_getlength (Image_new RGB (960, 800) [0; 0; 0])
           sample_description)
  = [lit "Hello" ++ [NEWLINE]; lit "World"]
  ∧ texts (draw_description sample_getlength (Image_new RGB (960, 800) [0; 0; 0])
             (replicate 300 87%N))
    = replicate 4 (replicate 59 87%N).
Proof. split; by vm_compute. Qed.

(** * utils.py and steam.py *)

(** ** Decimal strings *)

Lemma digits_value_snoc (s : pystr) c :
  digits_value (s ++ [c]) = 10 * digits_value s + (Z.of_N c - 48).
Proof. unfold digits_value. by rewrite foldl_app. Qed.

Lemma pos_digits_spec (fuel : nat) (n : Z) (acc : pystr) :
  (1 ≤ fuel)%nat → 0 ≤ n < 10 ^ Z.of_nat fuel →
  ∃ ds, pos_digits fuel n acc = ds ++ acc
        ∧ ds ≠ [] ∧ Forall (λ c, (48 ≤ c ≤ 57)%N) ds
        ∧ digits_value ds = n ∧ (length ds ≤ fuel)%nat.
Proof.
  revert n acc. induction fuel as [|fuel IH]; intros n acc Hf Hn; [lia|].
  cbn [pos_digits].
  assert (0 ≤ n mod 10 < 10) as Hm by (apply Z.mod_pos_bound; lia).
  assert ((48 ≤ 48 + Z.to_N (n mod 10) ≤ 57)%N) as Hd by lia.
  assert (Z.of_N (48 + Z.to_N (n mod 10)) - 48 = n mod 10) as Hv by lia.
  destruct (Z.ltb_spec n 10) as [Hlt|Hge].
  - exists [(48 + Z.to_N (n mod 10))%N]. split; [done|]. split; [done|].
    split; [constructor; [exact Hd|constructor]|]. split; [|simpl; lia].
    unfold digits_value. simpl. rewrite Hv. rewrite Z.mod_small; lia.
  - assert (0 ≤ n / 10 < 10 ^ Z.of_nat fuel) as Hq.
    { split; [apply Z.div_pos; lia|]. apply Z.div_lt_upper_bound; [lia|].
      rewrite <- Z.pow_succ_r by lia. rewrite <- Nat2Z.inj_succ. lia. }
    assert (1 ≤ fuel)%nat as Hf'.
    { destruct fuel; [|lia]. simpl in Hq. assert (1 ≤ n / 10); [|lia].
      apply Z.div_le_lower_bound; lia. }
    destruct (IH (n / 10) ((48 + Z.to_N (n mod 10))%N :: acc) Hf' Hq)
      as (ds & -> & Hne & Hall & Hval & Hlen).
    exists (ds ++ [(48 + Z.to_N (n mod 10))%N]). split; [by rewrite <- app_assoc|].
    split; [by destruct ds|].
    split; [apply Forall_app; split; [done|constructor; [exact Hd|constructor]]|].
    split.
    + rewrite digits_value_snoc, Hval, Hv. symmetry. apply Z.div_mod. lia.
    + rewrite length_app. simpl. lia.
Qed.

(** [str(n)] for a number that is not negative is the decimal numeral of
    [n]: ASCII digits, one at least, that denote [n]. *)
Lemma str_of_int_decimal (n : Z) :
  0 ≤ n →
  ascii_decimal (str_of_int n) ∧ digits_value (str_of_int n) = n
  ∧ len (str_of_int n) ≤ 1 + Z.log2 n.
Proof.
  intros Hn. unfold str_of_int. destruct (Z.ltb_spec n 0) as [|_]; [lia|].
  destruct (pos_digits_spec (S (Z.to_nat (Z.log2 n))) n []) as (ds & -> & Hne & Hall & Hv & Hl).
  - lia.
  - split; [done|]. rewrite Nat2Z.inj_succ, Z2Nat.id by apply Z.log2_nonneg.
    destruct (decide (n = 0)) as [->|Hpos]; [done|].
    destruct (Z.log2_spec n) as [_ Hlt]; [lia|].
    eapply Z.lt_le_trans; [exact Hlt|].
    apply Z.pow_le_mono_l. pose proof (Z.log2_nonneg n). lia.
  - rewrite app_nil_r. split; [done|]. split; [done|].
    unfold len. pose proof (Z.log2_nonneg n). lia.
Qed.

Lemma ascii_decimal_digits (U : Unicode) (s : pystr) :
  unicode_ok U → Forall (λ c, (48 ≤ c ≤ 57)%N) s →
  forallb (is_digit U) s = true
  ∧ ∃ ds, mapM (decimal U) s = Some ds
          ∧ ∀ v, foldl (λ v d, 10 * v + d) v ds
                 = foldl (λ v c, 10 * v + (Z.of_N c - 48)) v s.
Proof.
  intros [Hascii Hdec]. induction 1 as [|c s Hc _ (Hall & ds & Hds & Hv)].
  - split; [done|]. exists []. by split.
  - pose proof (Hascii c Hc) as Hcv. destruct (Hdec _ _ Hcv) as [Hd _].
    split; [simpl; by rewrite Hd, Hall|].
    exists ((Z.of_N c - 48) :: ds). split.
    + cbn [mapM]. rewrite Hcv. simpl. by rewrite Hds.
    + intros v. simpl. apply Hv.
Qed.

Lemma int_of_digits_ascii (U : Unicode) limit (s : pystr) :
  unicode_ok U → ascii_decimal s → converts limit (len s) →
  str_isdigit U s = true ∧ int_of_digits U limit s = Ok (digits_value s).
Proof.
  intros HU [Hne Hall] Hlim.
  destruct (ascii_decimal_digits U s HU Hall) as (Hd & ds & Hds & Hv).
  split; [by destruct s|].
  unfold int_of_digits.
  assert ((0 <? limit) && (limit <? len s) = false) as ->.
  { apply andb_false_iff. destruct Hlim; [left|right]; lia. }
  rewrite Hds. f_equal. apply Hv.
Qed.

(** ** Steam IDs and friend codes *)

Lemma forallb_false_Exists {A : Type} (f : A → bool) (l : list A) :
  forallb f l = false ↔ Exists (λ c, f c = false) l.
Proof.
  induction l as [|c l IH]; simpl.
  - split; [done|]. by intros ?%Exists_nil.
  - rewrite andb_false_iff, Exists_cons, IH. done.
Qed.

Lemma str_isdigit_false (U : Unicode) (s : pystr) :
  str_isdigit U s = false ↔ s = [] ∨ Exists (λ c, is_digit U c = false) s.
Proof.
  destruct s as [|c s]; [by split; [left|]|].
  unfold str_isdigit. rewrite forallb_false_Exists. split; [by right|].
  by intros [|].
Qed.

Lemma get_steam_id_ascii (U : Unicode) limit (s : pystr) :
  unicode_ok U → ascii_decimal s → converts limit (len s) →
  get_steam_id U limit s
  = Ok (Some (if digits_value s <? STEAM_ID_OFFSET
              then str_of_int (digits_value s + STEAM_ID_OFFSET) else s)).
Proof.
  intros HU Hs Hlim. unfold get_steam_id.
  destruct (int_of_digits_ascii U limit s HU Hs Hlim) as [-> ->]. cbn [negb result_bind].
  by destruct (digits_value s <? STEAM_ID_OFFSET).
Qed.

Lemma digits_value_nonneg (s : pystr) :
  Forall (λ c, (48 ≤ c ≤ 57)%N) s → 0 ≤ digits_value s.
Proof.
  unfold digits_value. intros Hall.
  assert (∀ v, 0 ≤ v → 0 ≤ foldl (λ v c, 10 * v + (Z.of_N c - 48)) v s) as H; [|by apply H].
  induction Hall as [|c s Hc _ IH]; intros v Hv; [done|]. simpl. apply IH. lia.
Qed.

Lemma len_steam_id (n : Z) : 0 ≤ n < 2 ^ 63 → len (str_of_int n) ≤ 64.
Proof.
  intros Hn. destruct (str_of_int_decimal n) as (_ & _ & Hl); [lia|].
  assert (Z.log2 n < 63); [|lia].
  destruct (decide (n = 0)) as [->|]; [done|]. apply Z.log2_lt_pow2; lia.
Qed.

(** X21. get_steam_id on a string of ASCII digits that the interpreter
    converts: the result is again a string of ASCII digits and denotes a
    number from STEAM_ID_OFFSET on.  A number below the offset is taken
    for a friend code and the offset is added; a string that denotes a
    larger number is returned as it is, leading zeros included.  The empty
    string and a string with a character that is no digit give None. *)
Theorem get_steam_id_digits (U : Unicode) limit (s : pystr) :
  unicode_ok U →
  (s = [] ∨ Exists (λ c, is_digit U c = false) s ↔ get_steam_id U limit s = Ok None)
  ∧ (ascii_decimal s → converts limit (len s) →
     ∃ r,
       get_steam_id U limit s = Ok (Some r)
       ∧ ascii_decimal r
       ∧ STEAM_ID_OFFSET ≤ digits_value r
       ∧ (digits_value s < STEAM_ID_OFFSET →
          r = str_of_int (digits_value s + STEAM_ID_OFFSET)
          ∧ digits_value r = digits_value s + STEAM_ID_OFFSET)
       ∧ (STEAM_ID_OFFSET ≤ digits_value s → r = s)).
Proof.
  intros HU. split.
  - rewrite <- str_isdigit_false. unfold get_steam_id. split.
    + by intros ->.
    + destruct (str_isdigit U s); [|done]. cbn [negb].
      destruct (int_of_digits U limit s) as [id_|]; [|done]. cbn [result_bind].
      by destruct (id_ <? STEAM_ID_OFFSET).
  - intros Hs Hlim. rewrite (get_steam_id_ascii U limit s HU Hs Hlim).
    pose proof (digits_value_nonneg s (proj2 Hs)) as Hnn.
    eexists. split; [reflexivity|].
    destruct (Z.ltb_spec (digits_value s) STEAM_ID_OFFSET) as [Hlt|Hge].
    + destruct (str_of_int_decimal (digits_value s + STEAM_ID_OFFSET)) as (Hd & Hv & _);
        [unfold STEAM_ID_OFFSET; lia|].
      split; [done|]. rewrite Hv. split; [lia|]. split; [done|]. lia.
    + split; [done|]. split; [done|]. split; [lia|done].
Qed.

(** X22. get_steam_id is idempotent on strings of ASCII digits, and the
    friend code that the profile card shows undoes it: for a friend code
    [n] below the offset, written in decimal, get_steam_id returns the
    numeral of [n + STEAM_ID_OFFSET], get_steam_id of that numeral is the
    numeral itself, and [str(int(steam_id) - STEAM_ID_OFFSET)] is the
    numeral of [n] again. *)
Theorem friend_code_round_trip (U : Unicode) limit (n : Z) :
  unicode_ok U → limit ≤ 0 ∨ 64 ≤ limit →
  0 ≤ n < STEAM_ID_OFFSET →
  let steam_id := str_of_int (n + STEAM_ID_OFFSET) in
  get_steam_id U limit (str_of_int n) = Ok (Some steam_id)
  ∧ get_steam_id U limit steam_id = Ok (Some steam_id)
  ∧ player_id_of U limit steam_id = Ok (str_of_int n).
Proof.
  intros HU Hlim Hn steam_id.
  assert (∀ m, 0 ≤ m < 2 ^ 63 → converts limit (len (str_of_int m))) as Hconv.
  { intros m Hm. pose proof (len_steam_id m Hm). unfold converts.
    destruct Hlim; [by left|right; lia]. }
  destruct (str_of_int_decimal n) as (Hd & Hv & _); [lia|].
  destruct (str_of_int_decimal (n + STEAM_ID_OFFSET)) as (Hd' & Hv' & _);
    [unfold STEAM_ID_OFFSET; lia|].
  assert (0 ≤ n < 2 ^ 63) as Hn63 by (unfold STEAM_ID_OFFSET in Hn; lia).
  assert (0 ≤ n + STEAM_ID_OFFSET < 2 ^ 63) as Hs63
      by (unfold STEAM_ID_OFFSET in *; lia).
  split; [|split].
  - rewrite get_steam_id_ascii by auto. rewrite Hv.
    destruct (Z.ltb_spec n STEAM_ID_OFFSET); [done|lia].
  - unfold steam_id. rewrite get_steam_id_ascii by auto. rewrite Hv'.
    destruct (Z.ltb_spec (n + STEAM_ID_OFFSET) STEAM_ID_OFFSET); [lia|done].
  - unfold player_id_of, steam_id.
    destruct (int_of_digits_ascii U limit (str_of_int (n + STEAM_ID_OFFSET)))
      as [_ ->]; auto.
    cbn [result_bind]. rewrite Hv'. do 2 f_equal. lia.
Qed.

(** X23. A digit that is no decimal digit gets past [isdigit] and stops
    [int]: on a string of digits for [str.isdigit] of which one is not a
    decimal digit (a superscript two, say) get_steam_id raises ValueError
    instead of returning None. *)
Theorem get_steam_id_other_digits (U : Unicode) limit (s : pystr) :
  str_isdigit U s = true → Exists (λ c, decimal U c = None) s →
  get_steam_id U limit s = Err ValueError.
Proof.
  intros Hd Hex. unfold get_steam_id, int_of_digits. rewrite Hd. cbn [negb].
  destruct ((0 <? limit) && (limit <? len s)); [done|].
  destruct (mapM (decimal U) s) as [ds|] eqn:E; [|done].
  apply mapM_Some in E. apply Exists_exists in Hex as (c & Hc & Hnone).
  apply list_elem_of_lookup in Hc as [i Hi].
  destruct (Forall2_lookup_l _ _ _ _ _ E Hi) as (v & _ & Hv). congruence.
Qed.

(** ** The status text *)

(** X24. The text for a player who is offline.  Without a time of the
    last log-off, or with the time 0, it is the plain label; otherwise it
    tells how long ago the player was last seen, in the largest unit that
    fits, a month counting 30 days and a year 365: "just now" under a
    minute, also when the log-off lies in the future; then 1 to 59 minutes,
    1 to 23 hours, 1 to 29 days, 1 to 12 months (12 from the 360th day on),
    and from the 365th day on the years.  The game of the player plays no
    part. *)
Theorem last_seen_text (now : Z) (gameextrainfo : option pystr) :
  simplize_steam_player_status now 0 None gameextrainfo = STR_OFFLINE
  ∧ simplize_steam_player_status now 0 (Some 0) gameextrainfo = STR_OFFLINE
  ∧ ∀ time_logged_off, time_logged_off ≠ 0 →
      let seen n unit := STR_LAST_SEEN ++ str_of_int n ++ unit in
      let status :=
        simplize_steam_player_status now 0 (Some time_logged_off) gameextrainfo in
      let ago := now - time_logged_off in
      (ago < 60 → status = STR_LAST_SEEN ++ STR_JUST_NOW)
      ∧ (60 ≤ ago < 3600 →
         status = seen (ago / 60) STR_MINUTES_AGO ∧ 1 ≤ ago / 60 ≤ 59)
      ∧ (3600 ≤ ago < 86400 →
         status = seen (ago / 3600) STR_HOURS_AGO ∧ 1 ≤ ago / 3600 ≤ 23)
      ∧ (86400 ≤ ago < 2592000 →
         status = seen (ago / 86400) STR_DAYS_AGO ∧ 1 ≤ ago / 86400 ≤ 29)
      ∧ (2592000 ≤ ago < 31536000 →
         status = seen (ago / 2592000) STR_MONTHS_AGO ∧ 1 ≤ ago / 2592000 ≤ 12)
      ∧ (31536000 ≤ ago →
         status = seen (ago / 31536000) STR_YEARS_AGO ∧ 1 ≤ ago / 31536000).
Proof.
  split; [done|]. split; [done|]. intros t Ht. cbv zeta.
  unfold simplize_steam_player_status. cbn [Z.eqb].
  destruct (Z.eqb_spec t 0) as [|_]; [done|].
  assert (∀ a b lo hi, 0 < b → lo * b ≤ a < (hi + 1) * b → lo ≤ a / b ≤ hi) as Hdiv.
  { intros a b lo hi Hb Ha. split.
    - apply Z.div_le_lower_bound; lia.
    - assert (a / b < hi + 1); [|lia]. apply Z.div_lt_upper_bound; lia. }
  set (ago := now - t).
  destruct (Z.ltb_spec ago 60);
    [|destruct (Z.ltb_spec ago 3600);
      [|destruct (Z.ltb_spec ago 86400);
        [|destruct (Z.ltb_spec ago 2592000);
          [|destruct (Z.ltb_spec ago 31536000)]]]];
    repeat split; intros; try lia; try done;
    solve [apply Hdiv; lia | apply Z.div_le_lower_bound; lia
          | assert (1 ≤ ago / 60 ≤ 59) by (apply Hdiv; lia); lia
          | assert (1 ≤ ago / 3600 ≤ 23) by (apply Hdiv; lia); lia
          | assert (1 ≤ ago / 86400 ≤ 29) by (apply Hdiv; lia); lia
          | assert (1 ≤ ago / 2592000 ≤ 12) by (apply Hdiv; lia); lia].
Qed.

(** X25. The section of a record whose status text comes from
    simplize_steam_player_data.  A player is listed under Gaming exactly
    when the state is 1 or 4 and a game is reported whose name is not the
    label of an online player, or the state is 3 and a game is reported
    whose name is not the label of a player who is away.  Busy (2) and the
    two looking-to states (5, 6) are listed under Online also when a game
    is reported, and so is a player whose game has the very name of the
    label; state 0 is listed under Offline; a record of any other state
    is in no section. *)
Theorem simplized_section (now : Z) (lastlogoff : option Z) (gameextrainfo : option pystr)
    (d : Friend) :
  status d = simplize_steam_player_status now (personastate d) lastlogoff gameextrainfo →
  (in_offline_data d ↔ personastate d = 0)
  ∧ (in_gaming_data d ↔
     (personastate d ∈ [1; 4] ∧ ∃ game, gameextrainfo = Some game ∧ game ≠ STR_ONLINE)
     ∨ (personastate d = 3 ∧ ∃ game, gameextrainfo = Some game ∧ game ≠ STR_AWAY))
  ∧ (in_online_data d ↔
     personastate d ∈ [2; 5; 6]
     ∨ (personastate d ∈ [1; 4]
        ∧ (gameextrainfo = None ∨ gameextrainfo = Some STR_ONLINE))
     ∨ (personastate d = 3 ∧ (gameextrainfo = None ∨ gameextrainfo = Some STR_AWAY)))
  ∧ (¬ 0 ≤ personastate d ≤ 6 →
     ¬ in_gaming_data d ∧ ¬ in_online_data d ∧ ¬ in_offline_data d).
Proof.
  destruct d as [sid av nm st p nk]. cbn [status personastate]. intros ->.
  unfold in_offline_data, in_gaming_data, in_online_data. cbn [status personastate].
  rewrite !elem_of_cons, !elem_of_nil.
  split; [done|].
  assert (∀ q, q = 1 ∨ q = 4 →
            simplize_steam_player_status now q lastlogoff gameextrainfo
            = match gameextrainfo with None => STR_ONLINE | Some g => g end) as H14.
  { intros q [-> | ->]; reflexivity. }
  assert (simplize_steam_player_status now 3 lastlogoff gameextrainfo
          = match gameextrainfo with None => STR_AWAY | Some g => g end) as H3 by reflexivity.
  split; [|split].
  - split.
    + intros [[-> Hs]|[[-> Hs]|[-> Hs]]].
      * left. split; [by left|]. rewrite H14 in Hs by (by left).
        destruct gameextrainfo as [g|]; [by exists g|done].
      * right. split; [done|]. rewrite H3 in Hs.
        destruct gameextrainfo as [g|]; [by exists g|done].
      * left. split; [right; by left|]. rewrite H14 in Hs by (by right).
        destruct gameextrainfo as [g|]; [by exists g|done].
    + intros [[Hp (g & -> & Hg)]|[-> (g & -> & Hg)]].
      * destruct Hp as [->|[->|[]]]; [left|right; right]; (split; [done|]);
          by rewrite H14 by lia.
      * right. left. split; [done|]. by rewrite H3.
  - split.
    + intros [[-> Hs]|[[-> Hs]|[[-> Hs]|Hp]]].
      * right. left. split; [by left|]. rewrite H14 in Hs by (by left).
        destruct gameextrainfo as [g|]; [right; by rewrite Hs|by left].
      * right. right. split; [done|]. rewrite H3 in Hs.
        destruct gameextrainfo as [g|]; [right; by rewrite Hs|by left].
      * right. left. split; [right; by left|]. rewrite H14 in Hs by (by right).
        destruct gameextrainfo as [g|]; [right; by rewrite Hs|by left].
      * by left.
    + intros [Hp|[[Hp Hg]|[-> Hg]]].
      * by right; right; right.
      * destruct Hp as [->|[->|[]]]; [left|right; right; left]; (split; [done|]);
          rewrite H14 by lia; by destruct Hg as [-> | ->].
      * right. left. split; [done|]. rewrite H3. by destruct Hg as [-> | ->].
  - intros Hp. split; [|split]; lia.
Qed.

(** ** Colour literals *)

Lemma hex_digit_range a v : hex_digit a = Some v → 0 ≤ v ≤ 15.
Proof.
  unfold hex_digit. repeat case_match; intros [= <-];
    repeat match goal with
           | H : _ && _ = true |- _ => apply andb_true_iff in H as [? ?]
           end; lia.
Qed.

(** X26. hex_to_rgb on a string that begins with six hexadecimal digits
    returns three channels between 0 and 255, each the value of two
    digits.  Only the digits count: capital and small letters give the
    same colour, and what follows the sixth character is ignored. *)
Theorem hex_to_rgb_six_digits (hex_color : string) :
  (6 ≤ length (list_ascii_of_string hex_color))%nat →
  Forall (λ a, is_Some (hex_digit a)) (take 6 (list_ascii_of_string hex_color)) →
  ∃ r g b,
    hex_to_rgb_checked hex_color = Ok [r; g; b]
    ∧ hex_to_rgb hex_color = [r; g; b]
    ∧ 0 ≤ r ≤ 255 ∧ 0 ≤ g ≤ 255 ∧ 0 ≤ b ≤ 255
    ∧ ∀ other,
        Forall2 (λ a a', hex_digit a = hex_digit a')
          (take 6 (list_ascii_of_string hex_color)) (take 6 (list_ascii_of_string other)) →
        hex_to_rgb_checked other = Ok [r; g; b].
Proof.
  unfold hex_to_rgb, hex_to_rgb_checked. intros Hlen Hall.
  destruct (list_ascii_of_string hex_color) as [|r1 [|r2 [|g1 [|g2 [|b1 [|b2 rest]]]]]];
    simpl in Hlen; try lia. clear Hlen. cbn [take] in *.
  repeat match goal with
         | H : Forall _ (_ :: _) |- _ => apply Forall_cons in H as [[? ?] H]
         end.
  unfold hex_byte.
  repeat match goal with H : hex_digit _ = Some _ |- _ =>
           pose proof (hex_digit_range _ _ H); rewrite H end.
  cbn [result_bind]. eexists _, _, _. split; [reflexivity|]. split; [reflexivity|].
  split; [lia|]. split; [lia|]. split; [lia|].
  intros other Hsame.
  destruct (list_ascii_of_string other) as [|r1' [|r2' [|g1' [|g2' [|b1' [|b2' rest']]]]]];
    cbn [take] in Hsame;
    repeat match goal with
           | H : Forall2 _ (_ :: _) _ |- _ => inversion H; subst; clear H
           | H : Forall2 _ [] _ |- _ => inversion H; subst; clear H
           end.
  repeat match goal with H : hex_digit ?a = hex_digit ?b |- _ =>
           rewrite <- H; clear H end.
  repeat match goal with H : hex_digit _ = Some _ |- _ => rewrite H; clear H end.
  reflexivity.
Qed.

(** * data_source.py *)

(** ** The bindings *)

(** X27. Adding, looking up and removing a binding.  After [add] with a
    user id that is not empty, [get] of that parent and user returns the
    entry added, and [get] of any other parent or user returns what it
    returned before.  With no user id, or an empty one, nothing is bound,
    but the parent is there from then on: [get] of the parent alone
    returns its users where it returned None.  After [remove], [get] of
    that parent and user returns None, also when the last user of the
    parent went: the parent stays, without users. *)
Theorem bindings_round_trip (content : BindContent) (parent_id : pystr) (data : BindEntry) :
  (∀ user_id, bind_user_id data = Some user_id → user_id ≠ [] →
     BindData_get (BindData_add content parent_id data) parent_id (Some user_id)
     = GetEntry data
     ∧ ∀ parent_id' user_id', (parent_id', user_id') ≠ (parent_id, user_id) →
         BindData_get (BindData_add content parent_id data) parent_id' (Some user_id')
         = BindData_get content parent_id' (Some user_id'))
  ∧ (truthy (bind_user_id data) = false →
     BindData_get (BindData_add content parent_id data) parent_id None
     = GetUsers (default ∅ (content !! parent_id))
     ∧ ∀ parent_id' user_id',
         BindData_get (BindData_add content parent_id data) parent_id' (Some user_id')
         = BindData_get content parent_id' (Some user_id'))
  ∧ (∀ user_id,
       BindData_get (BindData_remove content parent_id user_id) parent_id (Some user_id)
       = GetNone
       ∧ (is_Some (content !! parent_id) →
          ∃ users,
            BindData_get (BindData_remove content parent_id user_id) parent_id None
            = GetUsers users ∧ users !! user_id = None)
       ∧ ∀ parent_id' user_id', (parent_id', user_id') ≠ (parent_id, user_id) →
           BindData_get (BindData_remove content parent_id user_id) parent_id'
             (Some user_id')
           = BindData_get content parent_id' (Some user_id')).
Proof.
  split; [|split].
  - intros user_id Hu Hne. unfold BindData_add. rewrite Hu.
    assert (truthy (Some user_id) = true) as -> by (by destruct user_id).
    split.
    + unfold BindData_get. by rewrite !lookup_insert_eq.
    + intros parent_id' user_id' Hother. unfold BindData_get.
      destruct (decide (parent_id' = parent_id)) as [->|Hp].
      * rewrite lookup_insert_eq.
        rewrite lookup_insert_ne by congruence.
        case_bool_decide as Hdom.
        -- rewrite lookup_total_insert_eq, lookup_empty.
           apply not_elem_of_dom in Hdom. by rewrite Hdom.
        -- try apply dec_stable in Hdom. apply elem_of_dom in Hdom as [users Husers].
           rewrite Husers. by rewrite (lookup_total_correct _ _ _ Husers).
      * rewrite lookup_insert_ne by done.
        case_bool_decide; [by rewrite lookup_insert_ne|done].
  - intros Hfalse. unfold BindData_add. rewrite Hfalse. unfold BindData_get. split.
    + case_bool_decide as Hdom.
      * rewrite lookup_insert_eq. apply not_elem_of_dom in Hdom. by rewrite Hdom.
      * try apply dec_stable in Hdom. apply elem_of_dom in Hdom as [users Husers].
        by rewrite Husers.
    + intros parent_id' user_id'. case_bool_decide as Hdom; [|done].
      destruct (decide (parent_id' = parent_id)) as [->|Hp].
      * rewrite lookup_insert_eq, lookup_empty.
        apply not_elem_of_dom in Hdom. by rewrite Hdom.
      * by rewrite lookup_insert_ne.
  - intros user_id. unfold BindData_remove, BindData_get.
    destruct (content !! parent_id) as [users|] eqn:Hp.
    + case_bool_decide as Hdom.
      * split; [by rewrite lookup_insert_eq, lookup_delete_eq|]. split.
        -- intros _. rewrite lookup_insert_eq. eexists. split; [done|].
           apply lookup_delete_eq.
        -- intros parent_id' user_id' Hother.
           destruct (decide (parent_id' = parent_id)) as [->|Hp'].
           ++ rewrite lookup_insert_eq, Hp. rewrite lookup_delete_ne by congruence. done.
           ++ by rewrite lookup_insert_ne.
      * apply not_elem_of_dom in Hdom. split; [by rewrite Hp, Hdom|]. split; [|done].
        intros _. rewrite Hp. by eexists.
    + split; [by rewrite Hp|]. split; [by intros [? ?]|done].
Qed.

(** ** The comparison of two polls *)

Lemma old_dict_of_snoc (old_players : list Player) (player : Player) :
  old_dict_of (old_players ++ [player])
  = <[player_steamid player := player]> (old_dict_of old_players).
Proof. unfold old_dict_of. by rewrite foldl_app. Qed.

(** With one player for an id, the index of the old players finds, for
    an id, the old player who has it. *)
Lemma old_dict_of_lookup (old_players : list Player) (sid : option pystr) (old : Player) :
  NoDup (player_steamid <$> old_players) →
  old_dict_of old_players !! sid = Some old
  ↔ old ∈ old_players ∧ player_steamid old = sid.
Proof.
  induction old_players as [|player old_players IH] using rev_ind; intros Hnodup.
  - unfold old_dict_of. simpl. rewrite lookup_empty. split; [done|].
    intros [Hin _]. by apply elem_of_nil in Hin.
  - rewrite fmap_app in Hnodup. apply NoDup_app in Hnodup as (Hnodup & Hfresh & _).
    rewrite old_dict_of_snoc, elem_of_app, list_elem_of_singleton.
    destruct (decide (player_steamid player = sid)) as [<-|Hne].
    + rewrite lookup_insert_eq. split.
      * intros [= <-]. split; [by right|done].
      * intros [[Hin| ->] Hid]; [|done].
        exfalso. apply (Hfresh (player_steamid player)).
        -- rewrite <- Hid. apply list_elem_of_fmap. by exists old.
        -- simpl. apply list_elem_of_singleton. done.
    + rewrite lookup_insert_ne by done. rewrite (IH Hnodup). split.
      * intros [Hin Hid]. split; [by left|done].
      * intros [[Hin| ->] Hid]; [done|]. by destruct Hne.
Qed.

Lemma omap_nil_iff {A B} (f : A → option B) (l : list A) :
  omap f l = [] ↔ ∀ x, x ∈ l → f x = None.
Proof.
  induction l as [|a l IH]; simpl.
  - split; [|done]. intros _ x Hin. by apply elem_of_nil in Hin.
  - destruct (f a) eqn:Ha.
    + split; [done|]. intros Hall. specialize (Hall a (list_elem_of_here _ _)). congruence.
    + rewrite IH. split.
      * intros Hall x [->|Hin]%elem_of_cons; [done|by apply Hall].
      * intros Hall x Hin. apply Hall. by right.
Qed.

Lemma compare_one_player (old_dict : gmap (option pystr) Player) (new : Player) (c : Change) :
  compare_one old_dict new = Some c → change_player c = new.
Proof.
  unfold compare_one. intros Hc.
  repeat (case_match; simplify_eq/=); done.
Qed.

Lemma compare_players_sublist (old_dict : gmap (option pystr) Player)
    (new_players : list Player) :
  change_player <$> omap (compare_one old_dict) new_players `sublist_of` new_players.
Proof.
  induction new_players as [|new new_players IH]; simpl; [done|].
  destruct (compare_one old_dict new) as [c|] eqn:Hc; simpl.
  - rewrite (compare_one_player _ _ _ Hc). by apply sublist_skip.
  - by apply sublist_cons.
Qed.

(** X28. The records of [compare] are about new players only, in their
    order and at most one for each; and where no two players share an id,
    comparing a poll with itself gives no record. *)
Theorem compare_same_poll (old_players new_players : list Player) :
  change_player <$> SteamInfoData_compare old_players new_players
    `sublist_of` new_players
  ∧ (NoDup (player_steamid <$> new_players) →
     SteamInfoData_compare new_players new_players = []).
Proof.
  split; [apply compare_players_sublist|].
  intros Hnodup. unfold SteamInfoData_compare. apply omap_nil_iff.
  intros new Hin. unfold compare_one.
  assert (old_dict_of new_players !! player_steamid new = Some new) as ->
    by (by apply old_dict_of_lookup).
  simpl. destruct (truthy (gameextrainfo new)); simpl; [|done].
  by rewrite bool_decide_eq_false_2 by (by intros []).
Qed.

(** X29. What [compare] reports, where no two old players share an id.
    A start: a new player in a game, whose id no old player in a game
    has.  A stop: a new player in no game and the old player of that id,
    who was in one.  A change: a new player in a game and the old player
    of that id, who was in another game. *)
Theorem compare_records (old_players new_players : list Player)
    (Hnodup : NoDup (player_steamid <$> old_players)) (new old : Player) :
  (change_start new ∈ SteamInfoData_compare old_players new_players
   ↔ new ∈ new_players ∧ playing new
     ∧ ∀ old, old ∈ old_players → player_steamid old = player_steamid new →
         ¬ playing old)
  ∧ (change_stop new old ∈ SteamInfoData_compare old_players new_players
     ↔ new ∈ new_players ∧ old ∈ old_players
       ∧ player_steamid old = player_steamid new
       ∧ playing old ∧ ¬ playing new)
  ∧ (change_change new old ∈ SteamInfoData_compare old_players new_players
     ↔ new ∈ new_players ∧ old ∈ old_players
       ∧ player_steamid old = player_steamid new
       ∧ playing old ∧ playing new ∧ gameextrainfo new ≠ gameextrainfo old).
Proof.
  unfold SteamInfoData_compare, playing.
  pose proof (old_dict_of_lookup old_players (player_steamid new)) as Hlookup.
  assert (∀ c, c ∈ omap (compare_one (old_dict_of old_players)) new_players
             ↔ change_player c ∈ new_players
               ∧ compare_one (old_dict_of old_players) (change_player c) = Some c)
    as Hmem.
  { intros c. rewrite list_elem_of_omap. split.
    - intros (x & Hin & Hc). by rewrite (compare_one_player _ _ _ Hc).
    - intros [Hin Hc]. by exists (change_player c). }
  rewrite !Hmem. simpl. unfold compare_one.
  destruct (old_dict_of old_players !! player_steamid new) as [old'|] eqn:Hold; simpl.
  - destruct (proj1 (Hlookup old' Hnodup) eq_refl) as [Hin' Hid'].
    assert (∀ o, o ∈ old_players → player_steamid o = player_steamid new → o = old')
      as Huniq.
    { intros o Hin Hid. pose proof (proj2 (Hlookup o Hnodup) (conj Hin Hid)). congruence. }
    clear Hlookup Hmem Hold.
    destruct (truthy (gameextrainfo new)) eqn:Hn,
             (truthy (gameextrainfo old')) eqn:Ho; simpl;
      try case_bool_decide; (split; [|split]); split;
      try (intros [_ ?]; discriminate); try (intros [Hin [= <-]]; subst);
      try (intros (Hin & Hp & Hall)); try done.
    all: try (destruct Hall as (Hid & Hall); pose proof (Huniq _ Hp Hid); subst old').
    all: try done.
    all: try (by destruct (Hall old' Hin' Hid')).
    all: try (intros [Hin _]).
    all: try (split; [done|]; split; [done|]; intros o Hino Hid;
              by rewrite (Huniq o Hino Hid), Ho).
    all: try (destruct Hall as (? & ? & ?); congruence).
    all: try (destruct Hall as (? & ?); congruence).
  - assert (∀ o, o ∈ old_players → player_steamid o = player_steamid new → False)
      as Hnone.
    { intros o Hin Hid. pose proof (proj2 (Hlookup o Hnodup) (conj Hin Hid)). congruence. }
    clear Hlookup Hmem Hold.
    destruct (truthy (gameextrainfo new)) eqn:Hn; simpl;
      (split; [|split]); split;
      try (intros [_ ?]; discriminate); try (intros (Hin & Hp & Hall)); try done.
    all: try (destruct Hall as (Hid & Hall); by destruct (Hnone _ Hp Hid)).
    all: try (intros [Hin _]).
    all: try (split; [done|]; split; [done|]; intros o Hino Hid;
              by destruct (Hnone o Hino Hid)).
Qed.

(** * The card, the ids and the stores at the sample inputs *)

Lemma sample_pixel_HSV_to_RGB_length (p : N * N * N) :
  (3 ≤ length (sample_pixel_HSV_to_RGB p))%nat.
Proof.
  unfold sample_pixel_HSV_to_RGB.
  destruct (colorsys_hsv_to_rgb _ _ _) as [[r g] b]. simpl. lia.
Defined.

Lemma sample_randint_range (k : nat) (low high : Z) :
  low < high → low ≤ sample_randint k low high < high.
Proof. unfold sample_randint. lia. Defined.

Lemma ascii_digits_ok : unicode_ok ascii_digits.
Proof.
  split.
  - intros c Hc. simpl.
    destruct (N.leb_spec 48 c), (N.leb_spec c 57); simpl; try lia. reflexivity.
  - intros c v. simpl.
    destruct (N.leb_spec 48 c), (N.leb_spec c 57); simpl; try discriminate.
    intros [= <-]. split; [reflexivity|lia].
Defined.


Lemma roster_lists_known_states_witness :
  odd_heap !! 0%nat = Some odd_roster
  ∧ ghost ∈ odd_roster ∧ ¬ valid_state ghost
  ∧ draw_friend sample_getlength ghost = Err KeyError
  ∧ ∃ im h' members,
      draw_friends_status sample_getlength sample_open_size sample_bytes_size
        sample_avatar (lit "Steam") 0%nat odd_heap = Ok (im, h')
      ∧ lists_members sample_getlength sample_open_size sample_bytes_size im members
      ∧ members Gaming ++ members Online ++ members Offline ≡ₚ [bob]
      ∧ ∀ k, ghost ∉ members k.
Proof.
  assert (ghost ∈ odd_roster) as Hin by (right; left).
  assert (¬ valid_state ghost) as Hbad by (unfold valid_state; simpl; lia).
  split; [reflexivity|]. split; [exact Hin|]. split; [exact Hbad|].
  destruct (roster_lists_known_states sample_getlength sample_open_size sample_bytes_size
              sample_avatar (lit "Steam") 0%nat odd_heap odd_roster eq_refl)
    as (im & h' & members & Hrun & Hlists & Hperm & Hout).
  split; [exact (proj1 (Hout ghost Hin Hbad))|]. exists im, h', members.
  split; [exact Hrun|]. split; [exact Hlists|]. split; [exact Hperm|].
  exact (proj2 (Hout ghost Hin Hbad)).
Defined.

Lemma roster_height_witness :
  odd_heap !! 0%nat = Some odd_roster
  ∧ ∃ im h',
      draw_friends_status sample_getlength sample_open_size sample_bytes_size
        sample_avatar (lit "Steam") 0%nat odd_heap = Ok (im, h')
      ∧ size sample_open_size sample_bytes_size im = (400, 170 + 80 * 1 + 66 * 1).
Proof.
  split; [reflexivity|].
  destruct (roster_height sample_getlength sample_open_size sample_bytes_size
              sample_avatar (lit "Steam") 0%nat odd_heap odd_roster eq_refl)
    as (im & h' & Hrun & Hsize).
  exists im, h'. split; [exact Hrun|exact Hsize].
Defined.

Lemma roster_of_nobody_witness :
  empty_heap !! 0%nat = Some []
  ∧ ∃ im h',
      draw_friends_status sample_getlength sample_open_size sample_bytes_size
        sample_avatar (lit "Steam") 0%nat empty_heap = Ok (im, h')
      ∧ size sample_open_size sample_bytes_size im = (400, 170)
      ∧ rectangles im = [].
Proof.
  split; [reflexivity|].
  destruct (roster_of_nobody sample_getlength sample_open_size sample_bytes_size
              sample_avatar (lit "Steam") 0%nat empty_heap eq_refl)
    as (im & h' & Hrun & Hsize & _ & Hrect & _).
  exists im, h'. split; [exact Hrun|]. split; [exact Hsize|exact Hrect].
Defined.

Lemma section_renderers_witness :
  sample_heap !! 0%nat = Some sample_roster
  ∧ Forall valid_state sample_roster
  ∧ ∃ im,
      draw_online_friends_status sample_getlength 0%nat sample_heap = Ok (im, sample_heap)
      ∧ texts im = [STR_ONLINE_TITLE; lit "(" ++ str_of_int 3 ++ lit ")"]
      ∧ size sample_open_size sample_bytes_size im = (400, 80 + 66 * 3).
Proof.
  split; [reflexivity|]. split; [exact sample_roster_valid|].
  destruct (section_renderers sample_getlength sample_open_size sample_bytes_size
              0%nat sample_heap sample_roster eq_refl) as [Hgood _].
  destruct (Hgood sample_roster_valid) as (_ & (im & Hrun & Ht & Hsize) & _).
  exists im. split; [exact Hrun|]. split; [exact Ht|exact Hsize].
Defined.

Lemma section_and_colour_witness :
  bob ∈ sample_roster ∧ valid_state bob
  ∧ bob ∈ section_members Gaming sample_roster
  ∧ ∃ row,
      draw_friend sample_getlength bob = Ok row
      ∧ row_colors (personastate bob) (status bob) = in_game_colors.
Proof.
  assert (bob ∈ sample_roster) as Hin by left.
  assert (valid_state bob) as Hok by (unfold valid_state; simpl; lia).
  assert (bob ∈ section_members Gaming sample_roster) as Hg by (vm_compute; left).
  split; [exact Hin|]. split; [exact Hok|]. split; [exact Hg|].
  destruct (section_and_colour sample_getlength bob sample_roster Hin Hok)
    as (row & Hrun & _ & Hgaming & _).
  exists row. split; [exact Hrun|exact (Hgaming Hg)].
Defined.

Lemma progress_bar_fill_inside_witness :
  (0 <= 1 # 2)%Q ∧ (1 # 2 <= 1)%Q ∧ 6 < 186 ∧ 4 < 16
  ∧ size sample_open_size sample_bytes_size
      (create_progress_bar sample_open_size sample_bytes_size colorsys_rgb_to_hsv
         colorsys_hsv_to_rgb (1 # 2) (40, 80, 120) 186 16) = (186 + 1, 16 + 1)
  ∧ (∀ q, (1 # 2 <= q)%Q → fill_width (1 # 2) 186 ≤ fill_width q 186)
  ∧ ∃ fill,
      last (pasted (create_progress_bar sample_open_size sample_bytes_size
                      colorsys_rgb_to_hsv colorsys_hsv_to_rgb (1 # 2) (40, 80, 120) 186 16))
      = Some (fill, (3, 2))
      ∧ 3 + (size sample_open_size sample_bytes_size fill).1 ≤ 186 - 2
      ∧ 2 + (size sample_open_size sample_bytes_size fill).2 ≤ 16 - 1.
Proof.
  assert (0 <= 1 # 2)%Q as H0 by (unfold Qle; simpl; lia).
  assert (1 # 2 <= 1)%Q as H1 by (unfold Qle; simpl; lia).
  split; [exact H0|]. split; [exact H1|]. split; [lia|]. split; [lia|].
  apply (progress_bar_fill_inside sample_open_size sample_bytes_size colorsys_rgb_to_hsv
           colorsys_hsv_to_rgb (1 # 2) (40, 80, 120) 186 16 H0 H1); lia.
Defined.

Lemma draw_game_info_without_counts_witness :
  (@None Z = None ∨ Some 4 = None)
  ∧ ∃ bg,
      draw_game_info sample_getlength sample_open_size sample_bytes_size
        colorsys_rgb_to_hsv colorsys_hsv_to_rgb sample_avatar (lit "Portal") (lit "10.2")
        (lit "today") [] None (Some 4) (40, 80, 120) = Ok (crop bg (0, 0, 880, 110))
      ∧ texts bg = [lit "Portal"; lit "today"; STR_TOTAL_HOURS ++ lit "10.2"].
Proof.
  split; [by left|].
  destruct (draw_game_info_without_counts sample_getlength sample_open_size
              sample_bytes_size colorsys_rgb_to_hsv colorsys_hsv_to_rgb sample_avatar
              (lit "Portal") (lit "10.2") (lit "today") [] None (Some 4) (40, 80, 120))
    as (bg & Hrun & _ & _ & Ht); [by left|].
  exists bg. split; [exact Hrun|exact Ht].
Defined.

Lemma achievement_strip_layout_witness :
  10 ≠ 0
  ∧ ∃ bg strip,
      draw_game_info sample_getlength sample_open_size sample_bytes_size
        colorsys_rgb_to_hsv colorsys_hsv_to_rgb sample_avatar (lit "Portal") (lit "10.2")
        (lit "today") [] (Some 7) (Some 10) (40, 80, 120)
      = Ok (paste_mask bg strip (10, 110) strip)
      ∧ size sample_open_size sample_bytes_size strip = (860, 64)
      ∧ rectangles strip = [(512, 8, 560, 56)]
      ∧ texts strip
        = [STR_ACH_PROGRESS; achievement_counter 7 10; lit "+" ++ str_of_int 2].
Proof.
  split; [lia|].
  destruct (achievement_strip_layout sample_getlength sample_open_size sample_bytes_size
              colorsys_rgb_to_hsv colorsys_hsv_to_rgb sample_avatar (lit "Portal")
              (lit "10.2") (lit "today") [] 7 10 (40, 80, 120))
    as (bg & strip & bar_x & Hrun & Hsize & _ & Hrect & Ht); [lia|].
  exists bg, strip. split; [exact Hrun|]. split; [exact Hsize|].
  split; [exact Hrect|exact Ht].
Defined.

Lemma get_average_color_between_witness :
  0 < bm_width grey_photo ∧ 0 < bm_height grey_photo ∧ 0 ≤ 128
  ∧ get_average_color grey_photo = Ok [128; 128; 128].
Proof.
  split; [simpl; lia|]. split; [simpl; lia|]. split; [lia|].
  destruct (get_average_color_between grey_photo 3 128 128)
    as (average & Hrun & _ & _ & Hsame).
  - simpl. lia.
  - simpl. lia.
  - lia.
  - intros x y _ _. split; [reflexivity|]. simpl. repeat constructor; lia.
  - rewrite Hrun. f_equal. apply (Hsame eq_refl 0 0); simpl; lia.
Defined.

Lemma recolor_image_square_tiles_witness :
  1 ≤ 2 ≤ bm_height square_photo ∧ 1 ≤ 2 ≤ bm_width square_photo
  ∧ bm_width square_photo / 2 = 10 ∧ bm_height square_photo / 2 = 10
  ∧ ∃ im,
      recolor_image square_photo 2 2 = Ok im
      ∧ size sample_open_size sample_bytes_size im = (20, 20)
      ∧ length (pasted im) = 4%nat.
Proof.
  split; [simpl; lia|]. split; [simpl; lia|]. split; [reflexivity|]. split; [reflexivity|].
  destruct (recolor_image_square_tiles sample_open_size sample_bytes_size square_photo
              2 2 10) as (im & total & Hrun & Hsize & _ & _ & Htiles);
    [simpl; lia|simpl; lia|reflexivity|reflexivity|].
  exists im. split; [exact Hrun|]. split; [exact Hsize|].
  apply Forall2_length in Htiles. rewrite <- Htiles. reflexivity.
Defined.

Lemma vivid_extremes_are_pixels_witness :
  get_brightest_and_darkest_color sample_pixel_to_HSV sample_pixel_HSV_to_RGB 12
    hue_photo 100 30 = Ok ([255; 0; 0], [0; 120; 0])
  ∧ ∃ (n : nat) b d0 d,
      10 ≤ len (vivid_at sample_pixel_to_HSV hue_photo (100 - 10 * Z.of_nat n))
      ∧ sample_pixel_HSV_to_RGB b = [255; 0; 0]
      ∧ sample_pixel_HSV_to_RGB d = [0; 120; 0]
      ∧ (Z.abs (hsv_hue b - hsv_hue d0) < hue_threshold_after n 30
         ∧ filter (λ p, hsv_hue p ≠ hsv_hue b)
             (vivid_at sample_pixel_to_HSV hue_photo (100 - 10 * Z.of_nat n)) ≠ [] →
         hsv_hue d ≠ hsv_hue b)
      ∧ (¬ (Z.abs (hsv_hue b - hsv_hue d0) < hue_threshold_after n 30
            ∧ filter (λ p, hsv_hue p ≠ hsv_hue b)
                (vivid_at sample_pixel_to_HSV hue_photo (100 - 10 * Z.of_nat n)) ≠ []) →
         d = d0).
Proof.
  assert (get_brightest_and_darkest_color sample_pixel_to_HSV sample_pixel_HSV_to_RGB 12
            hue_photo 100 30 = Ok ([255; 0; 0], [0; 120; 0])) as Hrun
    by (vm_compute; reflexivity).
  split; [exact Hrun|].
  destruct (vivid_extremes_are_pixels sample_pixel_to_HSV sample_pixel_HSV_to_RGB 12
              hue_photo 100 30 _ _ Hrun)
    as (n & b & d0 & d & _ & Hten & Hbc & Hdc & _ & _ & _ & _ & Hrepl & Hkeep).
  exists n, b, d0, d. split; [exact Hten|]. split; [by symmetry|]. split; [by symmetry|].
  split; [|exact Hkeep].
  intros Hc. destruct (Hrepl Hc) as [Hd _]. by apply list_elem_of_filter in Hd as [Hd _].
Defined.

(** On the photo of reds and one green the darkest pixel, dark red, has
    the hue of the brightest: with the default hue threshold the green
    pixel takes its place, with a hue threshold of 0 it stays.  After a
    retry (a saturation threshold of 300 leaves no vivid pixel) the hue
    threshold of 0 is forgotten and the green pixel takes its place
    again. *)
Example vivid_extremes_replaced :
  get_brightest_and_darkest_color sample_pixel_to_HSV sample_pixel_HSV_to_RGB 12
    hue_photo 100 30 = Ok ([255; 0; 0], [0; 120; 0])
  ∧ get_brightest_and_darkest_color sample_pixel_to_HSV sample_pixel_HSV_to_RGB 12
      hue_photo 100 0 = Ok ([255; 0; 0], [100; 0; 0])
  ∧ get_brightest_and_darkest_color sample_pixel_to_HSV sample_pixel_HSV_to_RGB 12
      hue_photo 300 0 = Ok ([255; 0; 0], [0; 120; 0]).
Proof. repeat split; by vm_compute. Qed.

Lemma random_color_offset_range_witness :
  (∀ k low high, low < high → low ≤ sample_randint k low high < high)
  ∧ 0 ≤ 20
  ∧ ∃ color',
      random_color_offset sample_randint 0 [200; 10; 255; 128] 20 = Ok (color', 4%nat)
      ∧ length color' = 4%nat.
Proof.
  split; [exact sample_randint_range|]. split; [lia|].
  destruct (random_color_offset_range sample_randint 0 [200; 10; 255; 128] 20
              sample_randint_range) as (Hgood & _).
  destruct Hgood as (color' & Hrun & Hlen & _); [lia|].
  exists color'. split; [exact Hrun|exact Hlen].
Defined.

Lemma sample_games_drawable : Forall drawable [sample_game].
Proof. constructor; [|constructor]. right. discriminate. Defined.

Lemma profile_card_layout_witness :
  1 ≤ bm_width wide_photo ∧ 10 ≤ bm_height wide_photo ∧ (11 < 12)%nat
  ∧ (∀ p, (3 ≤ length (sample_pixel_HSV_to_RGB p))%nat)
  ∧ Forall drawable [sample_game]
  ∧ ∃ card bg panel,
      draw_player_status sample_getlength sample_open_size sample_bytes_size
        colorsys_rgb_to_hsv colorsys_hsv_to_rgb sample_pixel_to_HSV
        sample_pixel_HSV_to_RGB sample_fromarray_empty 12 sample_randint 0 wide_photo
        sample_avatar (lit "ann") (lit "12345") sample_description (Some (lit "3.5 h"))
        [sample_game] = Ok card
      ∧ size sample_open_size sample_bytes_size card = (20, 10)
      ∧ pasted card = [(bg, (-470, 0))]
      ∧ size sample_open_size sample_bytes_size bg = (960, 10)
      ∧ (panel, (20, 272)) ∈ pasted bg
      ∧ size sample_open_size sample_bytes_size panel = (920, 106 + (184 + 26 + 0)).
Proof.
  split; [simpl; lia|]. split; [simpl; lia|]. split; [lia|].
  split; [exact sample_pixel_HSV_to_RGB_length|]. split; [exact sample_games_drawable|].
  destruct (profile_card_layout sample_getlength sample_open_size sample_bytes_size
              colorsys_rgb_to_hsv colorsys_hsv_to_rgb sample_pixel_to_HSV
              sample_pixel_HSV_to_RGB sample_fromarray_empty 12 sample_randint 0
              wide_photo sample_avatar (lit "ann") (lit "12345") sample_description
              (Some (lit "3.5 h")) [sample_game])
    as (card & bg & backdrop & panel & gradient & acolor & blocks
        & Hrun & Hsize & _ & Hpasted & Hbg & _ & Hon & Hpanel & _);
    [simpl; lia|simpl; lia|lia|exact sample_pixel_HSV_to_RGB_length
    |exact sample_games_drawable|].
  exists card, bg, panel. split; [exact Hrun|]. split; [exact Hsize|].
  split; [exact Hpasted|]. split; [exact Hbg|]. split; [|exact Hpanel].
  rewrite Hon. apply elem_of_app. right. apply elem_of_app. left. right. left.
Defined.

Lemma profile_card_texts_witness :
  1 ≤ bm_width wide_photo ∧ 10 ≤ bm_height wide_photo ∧ (11 < 12)%nat
  ∧ (∀ p, (3 ≤ length (sample_pixel_HSV_to_RGB p))%nat)
  ∧ Forall drawable [sample_game]
  ∧ ∃ card bg lines,
      draw_player_status sample_getlength sample_open_size sample_bytes_size
        colorsys_rgb_to_hsv colorsys_hsv_to_rgb sample_pixel_to_HSV
        sample_pixel_HSV_to_RGB sample_fromarray_empty 12 sample_randint 0 wide_photo
        sample_avatar (lit "ann") (lit "12345") sample_description (Some (lit "3.5 h"))
        [sample_game] = Ok card
      ∧ pasted card = [(bg, (-470, 0))]
      ∧ texts bg
        = [lit "ann"; STR_FRIEND_CODE ++ lit "12345"] ++ lines ++ [STR_RECENT]
          ++ [lit "3.5 h"]
      ∧ (length lines ≤ 4)%nat.
Proof.
  split; [simpl; lia|]. split; [simpl; lia|]. split; [lia|].
  split; [exact sample_pixel_HSV_to_RGB_length|]. split; [exact sample_games_drawable|].
  destruct (profile_card_texts sample_getlength sample_open_size sample_bytes_size
              colorsys_rgb_to_hsv colorsys_hsv_to_rgb sample_pixel_to_HSV
              sample_pixel_HSV_to_RGB sample_fromarray_empty 12 sample_randint 0
              wide_photo sample_avatar (lit "ann") (lit "12345") sample_description
              (Some (lit "3.5 h")) [sample_game])
    as (card & bg & lines & dropped & Hrun & Hpasted & Ht & _ & Hlen & _);
    [simpl; lia|simpl; lia|lia|exact sample_pixel_HSV_to_RGB_length
    |exact sample_games_drawable|].
  exists card, bg, lines. split; [exact Hrun|]. split; [exact Hpasted|].
  split; [exact Ht|exact Hlen].
Defined.

Lemma profile_card_gradient_witness :
  1 ≤ bm_width wide_photo ∧ 10 ≤ bm_height wide_photo ∧ (11 < 12)%nat
  ∧ (∀ p, (3 ≤ length (sample_pixel_HSV_to_RGB p))%nat)
  ∧ Forall drawable [sample_game]
  ∧ (∀ k low high, low < high → low ≤ sample_randint k low high < high)
  ∧ ∃ card bg a,
      draw_player_status sample_getlength sample_open_size sample_bytes_size
        colorsys_rgb_to_hsv colorsys_hsv_to_rgb sample_pixel_to_HSV
        sample_pixel_HSV_to_RGB sample_fromarray_empty 12 sample_randint 0 wide_photo
        sample_avatar (lit "ann") (lit "12345") sample_description (Some (lit "3.5 h"))
        [sample_game] = Ok card
      ∧ pasted card = [(bg, (-470, 0))]
      ∧ (Image_fromarray a, (20, 272)) ∈ pasted bg
      ∧ (bm_width a, bm_height a) = (920, 50).
Proof.
  split; [simpl; lia|]. split; [simpl; lia|]. split; [lia|].
  split; [exact sample_pixel_HSV_to_RGB_length|]. split; [exact sample_games_drawable|].
  split; [exact sample_randint_range|].
  destruct (profile_card_gradient sample_getlength sample_open_size sample_bytes_size
              colorsys_rgb_to_hsv colorsys_hsv_to_rgb sample_pixel_to_HSV
              sample_pixel_HSV_to_RGB sample_fromarray_empty 12 sample_randint 0
              wide_photo sample_avatar (lit "ann") (lit "12345") sample_description
              (Some (lit "3.5 h")) [sample_game])
    as (card & bg & a & Hrun & Hpasted & Hin & Hsize & _);
    [simpl; lia|simpl; lia|lia|exact sample_pixel_HSV_to_RGB_length
    |exact sample_games_drawable|exact sample_randint_range|].
  exists card, bg, a. split; [exact Hrun|]. split; [exact Hpasted|].
  split; [exact Hin|exact Hsize].
Defined.

Lemma profile_card_zero_total_witness :
  1 ≤ bm_width wide_photo ∧ 10 ≤ bm_height wide_photo ∧ (11 < 12)%nat
  ∧ (∀ p, (3 ≤ length (sample_pixel_HSV_to_RGB p))%nat)
  ∧ draw_player_status sample_getlength sample_open_size sample_bytes_size
      colorsys_rgb_to_hsv colorsys_hsv_to_rgb sample_pixel_to_HSV
      sample_pixel_HSV_to_RGB sample_fromarray_empty 12 sample_randint 0 wide_photo
      sample_avatar (lit "ann") (lit "12345") sample_description None
      [sample_game; broken_game] = Err ZeroDivisionError.
Proof.
  split; [simpl; lia|]. split; [simpl; lia|]. split; [lia|].
  split; [exact sample_pixel_HSV_to_RGB_length|].
  destruct (profile_card_zero_total sample_getlength sample_open_size sample_bytes_size
              colorsys_rgb_to_hsv colorsys_hsv_to_rgb sample_pixel_to_HSV
              sample_pixel_HSV_to_RGB sample_fromarray_empty 12 sample_randint 0
              wide_photo sample_avatar (lit "ann") (lit "12345") sample_description
              None [sample_game; broken_game])
    as [Hzero _];
    [simpl; lia|simpl; lia|lia|exact sample_pixel_HSV_to_RGB_length|].
  apply Hzero. right. left. split; [by eexists|reflexivity].
Defined.

Lemma get_steam_id_digits_witness :
  unicode_ok ascii_digits
  ∧ get_steam_id ascii_digits 4300 [] = Ok None
  ∧ ∃ r,
      get_steam_id ascii_digits 4300 (lit "12345") = Ok (Some r)
      ∧ ascii_decimal r
      ∧ STEAM_ID_OFFSET ≤ digits_value r.
Proof.
  split; [exact ascii_digits_ok|].
  split.
  - apply (get_steam_id_digits ascii_digits 4300 [] ascii_digits_ok). by left.
  - destruct (get_steam_id_digits ascii_digits 4300 (lit "12345") ascii_digits_ok)
      as [_ Hdigits].
    destruct Hdigits as (r & Hrun & Hr & Hge & _).
    + split; [discriminate|]. vm_compute. repeat constructor; discriminate.
    + right. vm_compute. discriminate.
    + exists r. split; [exact Hrun|]. split; [exact Hr|exact Hge].
Defined.

Lemma friend_code_round_trip_witness :
  unicode_ok ascii_digits ∧ (4300 ≤ 0 ∨ 64 ≤ 4300) ∧ 0 ≤ 12345 < STEAM_ID_OFFSET
  ∧ get_steam_id ascii_digits 4300 (lit "12345") = Ok (Some (lit "76561197960278073"))
  ∧ get_steam_id ascii_digits 4300 (lit "76561197960278073")
    = Ok (Some (lit "76561197960278073"))
  ∧ player_id_of ascii_digits 4300 (lit "76561197960278073") = Ok (lit "12345").
Proof.
  assert (0 ≤ 12345 < STEAM_ID_OFFSET) as Hn by (unfold STEAM_ID_OFFSET; lia).
  assert (4300 ≤ 0 ∨ 64 ≤ 4300) as Hlimit by (right; lia).
  split; [exact ascii_digits_ok|]. split; [exact Hlimit|]. split; [exact Hn|].
  exact (friend_code_round_trip ascii_digits 4300 12345 ascii_digits_ok Hlimit Hn).
Defined.

Lemma get_steam_id_other_digits_witness :
  str_isdigit latin1_digits [0x31; 0xB2]%N = true
  ∧ Exists (λ c, decimal latin1_digits c = None) [0x31; 0xB2]%N
  ∧ get_steam_id latin1_digits 4300 [0x31; 0xB2]%N = Err ValueError.
Proof.
  assert (Exists (λ c, decimal latin1_digits c = None) [0x31; 0xB2]%N) as Hsup
    by (right; left; reflexivity).
  split; [reflexivity|]. split; [exact Hsup|].
  exact (get_steam_id_other_digits latin1_digits 4300 [0x31; 0xB2]%N eq_refl Hsup).
Defined.

Lemma simplized_section_witness :
  status bob = simplize_steam_player_status 0 (personastate bob) None
                 (Some (lit "Counter-Strike"))
  ∧ in_gaming_data bob ∧ ¬ in_offline_data bob.
Proof.
  split; [reflexivity|].
  destruct (simplized_section 0 None (Some (lit "Counter-Strike")) bob eq_refl)
    as (Hoff & Hgame & _).
  split.
  - apply Hgame. left. split; [left|]. eexists. split; [reflexivity|discriminate].
  - intros H. apply Hoff in H. discriminate H.
Defined.

Lemma hex_to_rgb_six_digits_witness :
  (6 ≤ length (list_ascii_of_string "e3ffc2"))%nat
  ∧ Forall (λ a, is_Some (hex_digit a)) (take 6 (list_ascii_of_string "e3ffc2"))
  ∧ hex_to_rgb "e3ffc2" = [227; 255; 194]
  ∧ hex_to_rgb_checked "E3FFC2ff" = Ok [227; 255; 194].
Proof.
  assert (Forall (λ a, is_Some (hex_digit a)) (take 6 (list_ascii_of_string "e3ffc2")))
    as Hhex by (simpl; repeat constructor; by eexists).
  split; [simpl; lia|]. split; [exact Hhex|].
  destruct (hex_to_rgb_six_digits "e3ffc2")
    as (r & g & b & Hchk & Hrun & _ & _ & _ & Hother); [simpl; lia|exact Hhex|].
  assert ([r; g; b] = [227; 255; 194]) as E by (rewrite <- Hrun; reflexivity).
  split; [reflexivity|]. rewrite <- E. apply Hother.
  simpl. repeat constructor.
Defined.

Lemma compare_records_witness :
  NoDup (player_steamid <$> [ann_idle])
  ∧ SteamInfoData_compare [ann_idle] [ann_playing] = [change_start ann_playing]
  ∧ change_start ann_playing ∈ SteamInfoData_compare [ann_idle] [ann_playing].
Proof.
  assert (NoDup (player_steamid <$> [ann_idle])) as Hnodup
    by (simpl; apply NoDup_singleton).
  split; [exact Hnodup|]. split; [by vm_compute|].
  apply (compare_records [ann_idle] [ann_playing] Hnodup ann_playing ann_idle).
  split; [left|]. split; [reflexivity|].
  intros old [->|Hin]%elem_of_cons _; [discriminate|by apply elem_of_nil in Hin].
Defined.
